(** * ComplianceNav: the resilient external-call layer

    A shallow embedding of [src/utils/rate_limiter.py], [src/utils/cache.py]
    and of [GeminiClient.generate_response] from
    [src/integrations/gemini_client.py], with the properties the
    specification states about them.

    Conventions of the embedding.
    - Python [int] values are [Z].
    - [time.time()] readings and the arithmetic on them are exact rationals
      [Q]: the algorithm is modelled, IEEE rounding of doubles is not.
      Every function takes the clock readings it makes as explicit
      arguments, one per [time.time()] call site it can reach.
    - A method [m(self, ...)] that mutates [self] becomes a function that
      takes the object and returns the updated object next to its result.
    - A call that may raise returns a [Result]. What is raised is any
      [BaseException]: [is_Exception] tells the subclasses of [Exception],
      which the [except Exception] clauses of the source catch, from the
      others ([asyncio.CancelledError], [KeyboardInterrupt]), which they let
      through.
    - Logging is not modelled. *)

From Stdlib Require Import ZArith QArith Qminmax Lia Lqa List String Ascii.
From stdpp Require Import gmap strings.

Local Open Scope Z_scope.

(** ** Python values *)

(** Why [call] raises [CircuitBreakerOpenError]: the circuit is OPEN, or
    the calls allowed in HALF_OPEN are used up. *)
Inductive OpenWhy := IsOpen | TooManyHalfOpenCalls.

(** What the modelled code raises or lets through. [ImportError] stands
    for the class and its subclasses ([ModuleNotFoundError]),
    [UnicodeEncodeError] is what [str.encode] raises on a text with a lone
    surrogate, [OtherException] is any other subclass of [Exception] an
    action may raise. [CancelledError] ([asyncio.CancelledError], raised in
    a task that is cancelled while it awaits) and [OtherBaseException]
    ([KeyboardInterrupt], [SystemExit]) derive from [BaseException] only. *)
Inductive PyExc :=
| ValueError (msg : string)
| UnicodeEncodeError (msg : string)
| ImportError (msg : string)
| CircuitBreakerOpenError (why : OpenWhy)
| RateLimitExceededError (reason : string)
| OtherException (msg : string)
| CancelledError
| OtherBaseException (msg : string).

(** [isinstance(e, Exception)] and [isinstance(e, ImportError)]. *)
Definition is_Exception (e : PyExc) : bool :=
  match e with
  | CancelledError | OtherBaseException _ => false
  | _ => true
  end.

Definition is_ImportError (e : PyExc) : bool :=
  match e with
  | ImportError _ => true
  | _ => false
  end.

Inductive Result (A : Type) :=
| Return (a : A)
| Raise (e : PyExc).
Arguments Return {A} a.
Arguments Raise {A} e.

(** A number that is an [int] or a [float] at run time. *)
Inductive PyNum := PyInt (z : Z) | PyFloat (q : Q).

(** [x > y] and [x >= y] on floats. *)
Definition Qgtb (x y : Q) : bool := negb (Qle_bool x y).
Definition Qgeb (x y : Q) : bool := Qle_bool y x.

(** [int(x)] on a float: truncation toward zero. *)
Definition py_int (x : Q) : Z := Z.quot (Qnum x) (Z.pos (Qden x)).

(** [min(xs)] on a list of floats: the first minimal element, [None] standing
    for the [ValueError] Python raises on an empty list. *)
Definition py_min (xs : list Q) : option Q :=
  match xs with
  | [] => None
  | x :: rest =>
      Some (fold_left (fun best y => if Qgtb best y then y else best) rest x)
  end.

(** Truthiness of a string and of an optional timestamp
    ([None] and [0.0] are falsy). *)
Definition truthy_str (s : string) : bool :=
  match s with EmptyString => false | _ => true end.

Definition truthy_time (t : option Q) : bool :=
  match t with
  | None => false
  | Some q => negb (Qeq_bool q 0)
  end.

(** ** [RateLimitConfig] and [RateLimiter] *)

Module RateLimiter.

Record RateLimitConfig := {
  requests_per_minute : Z;
  requests_per_hour : Z;
  burst_allowance : Z;
  cooldown_seconds : Z
}.

Definition default_config : RateLimitConfig :=
  {| requests_per_minute := 60; requests_per_hour := 1000;
     burst_allowance := 10; cooldown_seconds := 60 |}.

Record t := {
  config : RateLimitConfig;
  tokens : Z;
  last_refill : Q;
  minute_requests : list Q;
  hour_requests : list Q
}.

(** [__init__]; [now] is the reading of [time.time()]. *)
Definition init (cfg : RateLimitConfig) (now : Q) : t :=
  {| config := cfg;
     tokens := burst_allowance cfg;
     last_refill := now;
     minute_requests := [];
     hour_requests := [] |}.

(** The info dictionary returned next to the decision. *)
Inductive Info :=
| minute_limit_exceeded (retry_after : Q)
| hour_limit_exceeded (retry_after : Q)
| burst_limit_exceeded (retry_after : Z) (tokens_available : Z)
| allowed_info (remaining_minute remaining_hour tokens_available : Z).

(** [info['reason']] (absent from the dictionary of an allowed call). *)
Definition reason (i : Info) : option string :=
  match i with
  | minute_limit_exceeded _ => Some "minute_limit_exceeded"%string
  | hour_limit_exceeded _ => Some "hour_limit_exceeded"%string
  | burst_limit_exceeded _ _ => Some "burst_limit_exceeded"%string
  | allowed_info _ _ _ => None
  end.

(** [info.get('retry_after', default)]. *)
Definition get_retry_after (i : Info) (default : PyNum) : PyNum :=
  match i with
  | minute_limit_exceeded r => PyFloat r
  | hour_limit_exceeded r => PyFloat r
  | burst_limit_exceeded r _ => PyInt r
  | allowed_info _ _ _ => default
  end.

Definition _cleanup_old_requests (self : t) (now : Q) : t :=
  let minute_ago := (now - 60)%Q in
  let hour_ago := (now - 3600)%Q in
  {| config := config self;
     tokens := tokens self;
     last_refill := last_refill self;
     minute_requests := List.filter (fun x => Qgtb x minute_ago) (minute_requests self);
     hour_requests := List.filter (fun x => Qgtb x hour_ago) (hour_requests self) |}.

(** [_refill_tokens]. The credit [int(time_passed * requests_per_minute / 60)]
    is computed here on exact rationals. In the source the difference, the
    product and the quotient are operations on doubles, each of which
    rounds, so a credit whose exact value lies just below a whole number
    can come out as that number there; what is proved of the credit is
    proved of its exact value. *)
Definition _refill_tokens (self : t) (now : Q) : t :=
  let time_passed := (now - last_refill self)%Q in
  let tokens_to_add :=
    py_int (time_passed * inject_Z (requests_per_minute (config self)) / 60)%Q in
  {| config := config self;
     tokens := Z.min (burst_allowance (config self)) (tokens self + tokens_to_add);
     last_refill := now;
     minute_requests := minute_requests self;
     hour_requests := hour_requests self |}.

Definition len (xs : list Q) : Z := Z.of_nat (List.length xs).

(** [is_allowed]; [now] is its one reading of the clock. A [ValueError]
    comes from [min] of an empty window, which the limit checks reach
    exactly when the configured limit is not positive. *)
Definition is_allowed (self : t) (now : Q) (cost : Z) : Result (bool * Info) * t :=
  let self := _cleanup_old_requests self now in
  if len (minute_requests self) >=? requests_per_minute (config self) then
    match py_min (minute_requests self) with
    | None => (Raise (ValueError "min() arg is an empty sequence"), self)
    | Some oldest =>
        (Return (false, minute_limit_exceeded (60 - (now - oldest))%Q), self)
    end
  else if len (hour_requests self) >=? requests_per_hour (config self) then
    match py_min (hour_requests self) with
    | None => (Raise (ValueError "min() arg is an empty sequence"), self)
    | Some oldest =>
        (Return (false, hour_limit_exceeded (3600 - (now - oldest))%Q), self)
    end
  else
    let self := _refill_tokens self now in
    if tokens self <? cost then
      (Return (false,
               burst_limit_exceeded (cooldown_seconds (config self)) (tokens self)),
       self)
    else
      let self :=
        {| config := config self;
           tokens := tokens self - cost;
           last_refill := last_refill self;
           minute_requests := minute_requests self ++ [now];
           hour_requests := hour_requests self ++ [now] |} in
      (Return (true,
               allowed_info
                 (requests_per_minute (config self) - len (minute_requests self))
                 (requests_per_hour (config self) - len (hour_requests self))
                 (tokens self)),
       self).

(** A sequence of calls on one limiter: each call is a clock reading and a
    cost; [trace] lists the limiter after every call. *)
Fixpoint trace (self : t) (calls : list (Q * Z)) : list t :=
  match calls with
  | [] => []
  | (now, cost) :: rest =>
      let self' := snd (is_allowed self now cost) in
      self' :: trace self' rest
  end.

(** The clock readings of successive calls do not go backwards. *)
Fixpoint clock_ordered (start : Q) (calls : list (Q * Z)) : Prop :=
  match calls with
  | [] => True
  | (now, _) :: rest => (start <= now)%Q /\ clock_ordered now rest
  end.

(** The decision of a call. *)
Definition allowed (r : Result (bool * Info)) : bool :=
  match r with
  | Return (true, _) => true
  | _ => false
  end.

(** The results of a sequence of calls on one limiter, in order. *)
Fixpoint results (self : t) (calls : list (Q * Z)) : list (Result (bool * Info)) :=
  match calls with
  | [] => []
  | (now, cost) :: rest =>
      fst (is_allowed self now cost) :: results (snd (is_allowed self now cost)) rest
  end.

(** The limiter after a sequence of calls. *)
Definition after_calls (self : t) (calls : list (Q * Z)) : t :=
  fold_left (fun s c => snd (is_allowed s (fst c) (snd c))) calls self.

(** The clock readings of the calls of a sequence that were allowed. *)
Fixpoint admitted (self : t) (calls : list (Q * Z)) : list Q :=
  match calls with
  | [] => []
  | (now, cost) :: rest =>
      (if allowed (fst (is_allowed self now cost)) then [now] else [])
      ++ admitted (snd (is_allowed self now cost)) rest
  end.

(** The clock reading of the last call of a sequence ([start] when there is
    none). *)
Definition last_reading (start : Q) (calls : list (Q * Z)) : Q :=
  fold_left (fun _ c => fst c) calls start.

End RateLimiter.

(** ** [CircuitBreakerConfig] and [CircuitBreaker] *)

Module CircuitBreaker.

Inductive CircuitState := CLOSED | OPEN | HALF_OPEN.

Record CircuitBreakerConfig := {
  failure_threshold : Z;
  recovery_timeout : Z;
  half_open_max_calls : Z;
  success_threshold : Z
}.

Definition default_config : CircuitBreakerConfig :=
  {| failure_threshold := 5; recovery_timeout := 60;
     half_open_max_calls := 3; success_threshold := 2 |}.

Record t := {
  name : string;
  config : CircuitBreakerConfig;
  state : CircuitState;
  failure_count : Z;
  success_count : Z;
  last_failure_time : option Q;
  half_open_calls : Z
}.

(** [__init__]. *)
Definition init (nm : string) (cfg : CircuitBreakerConfig) : t :=
  {| name := nm; config := cfg; state := CLOSED;
     failure_count := 0; success_count := 0;
     last_failure_time := None; half_open_calls := 0 |}.

(** [now] is the reading of [time.time()], made only when
    [last_failure_time] is truthy. *)
Definition _should_attempt_reset (self : t) (now : Q) : bool :=
  if negb (truthy_time (last_failure_time self)) then true
  else
    match last_failure_time self with
    | Some last => Qgeb (now - last)%Q (inject_Z (recovery_timeout (config self)))
    | None => true
    end.

Definition _reset_circuit (self : t) : t :=
  {| name := name self; config := config self;
     state := CLOSED;
     failure_count := 0;
     success_count := 0;
     last_failure_time := last_failure_time self;
     half_open_calls := 0 |}.

Definition _on_success (self : t) : t :=
  match state self with
  | HALF_OPEN =>
      let self :=
        {| name := name self; config := config self; state := state self;
           failure_count := failure_count self;
           success_count := success_count self + 1;
           last_failure_time := last_failure_time self;
           half_open_calls := half_open_calls self |} in
      if success_count self >=? success_threshold (config self)
      then _reset_circuit self
      else self
  | CLOSED =>
      {| name := name self; config := config self; state := state self;
         failure_count := 0;
         success_count := success_count self;
         last_failure_time := last_failure_time self;
         half_open_calls := half_open_calls self |}
  | OPEN => self
  end.

(** [now] is the reading of [time.time()] stored in [last_failure_time]. *)
Definition _on_failure (self : t) (now : Q) : t :=
  let self :=
    {| name := name self; config := config self; state := state self;
       failure_count := failure_count self + 1;
       success_count := success_count self;
       last_failure_time := Some now;
       half_open_calls := half_open_calls self |} in
  if failure_count self >=? failure_threshold (config self) then
    {| name := name self; config := config self;
       state := OPEN;
       failure_count := failure_count self;
       success_count := success_count self;
       last_failure_time := last_failure_time self;
       half_open_calls := half_open_calls self |}
  else self.

(** The two [if] blocks that open [call]: the OPEN check, which may move the
    breaker to HALF_OPEN, and the HALF_OPEN call limit. The result is
    [Raise] when [call] raises [CircuitBreakerOpenError] there; the second
    component is the breaker as these blocks leave it (a state change of
    the first block stays when the second one raises). *)
Definition call_guard (self : t) (now : Q) : Result unit * t :=
  let opened :=
    match state self with
    | OPEN =>
        if _should_attempt_reset self now then
          (Return tt,
           {| name := name self; config := config self;
              state := HALF_OPEN;
              failure_count := failure_count self;
              success_count := success_count self;
              last_failure_time := last_failure_time self;
              half_open_calls := 0 |})
        else (Raise (CircuitBreakerOpenError IsOpen), self)
    | _ => (Return tt, self)
    end in
  match opened with
  | (Raise e, self) => (Raise e, self)
  | (Return _, self) =>
      match state self with
      | HALF_OPEN =>
          if half_open_calls self >=? half_open_max_calls (config self) then
            (Raise (CircuitBreakerOpenError TooManyHalfOpenCalls), self)
          else
            (Return tt,
             {| name := name self; config := config self; state := state self;
                failure_count := failure_count self;
                success_count := success_count self;
                last_failure_time := last_failure_time self;
                half_open_calls := half_open_calls self + 1 |})
      | _ => (Return tt, self)
      end
  end.

(** The breaker in HALF_OPEN with [calls] calls counted, as the OPEN check
    ([calls = 0]) and then the call limit ([calls = 1]) leave it. *)
Definition half_opened (self : t) (calls : Z) : t :=
  {| name := name self; config := config self;
     state := HALF_OPEN;
     failure_count := failure_count self;
     success_count := success_count self;
     last_failure_time := last_failure_time self;
     half_open_calls := calls |}.

(** [call]. The wrapped function acts on a world [W] of its own (a remote
    service, a call counter) and returns or raises; it is run at most once,
    and only when the guard lets the call through. [now] is the clock
    reading of the OPEN check and [t_fail] the one [_on_failure] makes.
    The handler is [except Exception]: what the function raises outside
    that class (a cancellation) passes through [call] with no bookkeeping,
    after the guard has counted the call. *)
Definition call {W R : Type} (self : t) (now : Q)
    (func : W -> Result R * W) (w : W) (t_fail : Q) : Result R * t * W :=
  match call_guard self now with
  | (Raise e, self) => (Raise e, self, w)
  | (Return _, self) =>
      match func w with
      | (Return result, w') => (Return result, _on_success self, w')
      | (Raise e, w') =>
          if is_Exception e then (Raise e, _on_failure self t_fail, w')
          else (Raise e, self, w')
      end
  end.

(** The breaker after a call. *)
Definition after {W R : Type} (r : Result R * t * W) : t := snd (fst r).

(** One call as seen from the breaker: the two clock readings and whether
    the wrapped function returned or raised, and what. *)
Record Event := {
  ev_now : Q;
  ev_outcome : Result unit;
  ev_t_fail : Q
}.

Definition apply_event (self : t) (ev : Event) : t :=
  after (call self (ev_now ev) (fun w : unit => (ev_outcome ev, w)) tt (ev_t_fail ev)).

Definition run (self : t) (evs : list Event) : t := fold_left apply_event evs self.

(** The breakers a sequence of calls produces from a new one. *)
Definition reachable (nm : string) (cfg : CircuitBreakerConfig) (self : t) : Prop :=
  exists evs, self = run (init nm cfg) evs.

(** A call whose action fails, as the breaker sees failure: it raises an
    [Exception]. *)
Definition failing (ev : Event) : Prop :=
  exists e, ev_outcome ev = Raise e /\ is_Exception e = true.

(** A call whose action returns or fails: not one that ends by an exception
    outside [Exception], such as a cancellation. *)
Definition settled (ev : Event) : Prop :=
  match ev_outcome ev with
  | Return _ => True
  | Raise e => is_Exception e = true
  end.

(** The breakers a sequence of such calls produces from a new one. *)
Definition reachable_settled (nm : string) (cfg : CircuitBreakerConfig) (self : t) : Prop :=
  exists evs, Forall settled evs /\ self = run (init nm cfg) evs.

(** A breaker that refuses every call and that no call changes: HALF_OPEN
    with its call limit used up. *)
Definition stuck (self : t) : Prop :=
  state self = HALF_OPEN /\ half_open_max_calls (config self) <= half_open_calls self.

(** [_seconds_until_retry]; [now] is the reading of [time.time()], made
    only when [last_failure_time] is truthy. [max(0, x)] is [x] when
    [x > 0] and the integer 0 otherwise. *)
Definition _seconds_until_retry (self : t) (now : Q) : Q :=
  if negb (truthy_time (last_failure_time self)) then 0%Q
  else
    match last_failure_time self with
    | Some last =>
        let elapsed := (now - last)%Q in
        let left := (inject_Z (recovery_timeout (config self)) - elapsed)%Q in
        if Qgtb left 0 then left else 0%Q
    | None => 0%Q
    end.

(** What holds of every breaker a sequence of calls produces. *)
Definition invariant (self : t) : Prop :=
  0 <= success_count self
  /\ 0 <= half_open_calls self
  /\ (state self <> CLOSED -> failure_threshold (config self) <= failure_count self)
  /\ (success_count self = 0 \/ success_count self < success_threshold (config self))
  /\ (state self = OPEN -> last_failure_time self <> None).

(** What holds besides when every action returned or failed: in HALF_OPEN
    each call counted has been a success. *)
Definition probes_counted (self : t) : Prop :=
  state self = HALF_OPEN ->
  half_open_calls self = 0
  \/ (half_open_calls self <= success_count self
      /\ success_count self < success_threshold (config self)).

(** Further facts about every breaker a sequence of calls produces. *)
Definition bounded (self : t) : Prop :=
  half_open_calls self <= Z.max 0 (half_open_max_calls (config self))
  /\ (state self = CLOSED ->
      failure_count self = 0 \/ failure_count self < failure_threshold (config self))
  /\ 0 <= failure_count self
  /\ (success_count self = 0 \/ success_count self < success_threshold (config self)).

(** An event whose clock readings are not before [T] and in order. *)
Definition not_before (T : Q) (ev : Event) : Prop :=
  (T <= ev_now ev)%Q /\ (ev_now ev <= ev_t_fail ev)%Q.

(** A call that can follow from time [T] on: its clock readings are not
    before [T] and in order, and its action returns or fails. *)
Definition continues (T : Q) (ev : Event) : Prop := not_before T ev /\ settled ev.

(** The events used to drive a breaker: a call at [now] that returns, one
    that raises with the failure recorded at [now], and one whose action is
    cancelled. *)
Definition ok_at (now : Q) : Event :=
  {| ev_now := now; ev_outcome := Return tt; ev_t_fail := now |}.

Definition err_at (now : Q) : Event :=
  {| ev_now := now; ev_outcome := Raise (OtherException "error"); ev_t_fail := now |}.

Definition cancelled_at (now : Q) : Event :=
  {| ev_now := now; ev_outcome := Raise CancelledError; ev_t_fail := now |}.

(** A clock reading at which an OPEN breaker attempts a reset, not before [T]. *)
Definition reset_time (self : t) (T : Q) : Q :=
  match last_failure_time self with
  | Some last => Qmax T (last + inject_Z (recovery_timeout (config self)))%Q
  | None => T
  end.

End CircuitBreaker.

(** ** [ProductionAPIManager]: one limiter and one breaker per service name *)

Module ProductionAPIManager.

Record t := {
  rate_limiters : gmap string RateLimiter.t;
  circuit_breakers : gmap string CircuitBreaker.t;
  default_rate_config : RateLimiter.RateLimitConfig;
  default_circuit_config : CircuitBreaker.CircuitBreakerConfig
}.

(** [__init__]. *)
Definition init : t :=
  {| rate_limiters := ∅;
     circuit_breakers := ∅;
     default_rate_config :=
       {| RateLimiter.requests_per_minute := 50;
          RateLimiter.requests_per_hour := 800;
          RateLimiter.burst_allowance := 8;
          RateLimiter.cooldown_seconds := 30 |};
     default_circuit_config :=
       {| CircuitBreaker.failure_threshold := 3;
          CircuitBreaker.recovery_timeout := 45;
          CircuitBreaker.half_open_max_calls := 2;
          CircuitBreaker.success_threshold := 2 |} |}.

Definition rate_service_configs : gmap string RateLimiter.RateLimitConfig :=
  <[ "gemini_api"%string :=
       {| RateLimiter.requests_per_minute := 30;
          RateLimiter.requests_per_hour := 500;
          RateLimiter.burst_allowance := 5;
          RateLimiter.cooldown_seconds := 45 |} ]>
  (<[ "web_scraping"%string :=
       {| RateLimiter.requests_per_minute := 20;
          RateLimiter.requests_per_hour := 400;
          RateLimiter.burst_allowance := 3;
          RateLimiter.cooldown_seconds := 60 |} ]>
  (<[ "vector_store"%string :=
       {| RateLimiter.requests_per_minute := 100;
          RateLimiter.requests_per_hour := 2000;
          RateLimiter.burst_allowance := 20;
          RateLimiter.cooldown_seconds := 10 |} ]> ∅)).

Definition circuit_service_configs : gmap string CircuitBreaker.CircuitBreakerConfig :=
  <[ "gemini_api"%string :=
       {| CircuitBreaker.failure_threshold := 2;
          CircuitBreaker.recovery_timeout := 120;
          CircuitBreaker.half_open_max_calls := 1;
          CircuitBreaker.success_threshold := 1 |} ]>
  (<[ "web_scraping"%string :=
       {| CircuitBreaker.failure_threshold := 4;
          CircuitBreaker.recovery_timeout := 60;
          CircuitBreaker.half_open_max_calls := 3;
          CircuitBreaker.success_threshold := 2 |} ]> ∅).

Definition _get_rate_config (self : t) (service_name : string)
    : RateLimiter.RateLimitConfig :=
  default (default_rate_config self) (rate_service_configs !! service_name).

Definition _get_circuit_config (self : t) (service_name : string)
    : CircuitBreaker.CircuitBreakerConfig :=
  default (default_circuit_config self) (circuit_service_configs !! service_name).

(** [get_rate_limiter]: the limiter of the service and the manager that now
    holds it; [now] is the clock reading of [RateLimiter.__init__], made
    only when the limiter is created. *)
Definition get_rate_limiter (self : t) (service_name : string) (now : Q)
    : RateLimiter.t * t :=
  match rate_limiters self !! service_name with
  | Some limiter => (limiter, self)
  | None =>
      let limiter := RateLimiter.init (_get_rate_config self service_name) now in
      (limiter,
       {| rate_limiters := <[service_name := limiter]> (rate_limiters self);
          circuit_breakers := circuit_breakers self;
          default_rate_config := default_rate_config self;
          default_circuit_config := default_circuit_config self |})
  end.

Definition get_circuit_breaker (self : t) (service_name : string)
    : CircuitBreaker.t * t :=
  match circuit_breakers self !! service_name with
  | Some breaker => (breaker, self)
  | None =>
      let breaker :=
        CircuitBreaker.init service_name (_get_circuit_config self service_name) in
      (breaker,
       {| rate_limiters := rate_limiters self;
          circuit_breakers := <[service_name := breaker]> (circuit_breakers self);
          default_rate_config := default_rate_config self;
          default_circuit_config := default_circuit_config self |})
  end.

(** The getters hand out references: a method call on the object they
    return changes the object the manager holds. [put_rate_limiter] and
    [put_circuit_breaker] write the object a method returns back under its
    name. *)
Definition put_rate_limiter (self : t) (service_name : string)
    (limiter : RateLimiter.t) : t :=
  {| rate_limiters := <[service_name := limiter]> (rate_limiters self);
     circuit_breakers := circuit_breakers self;
     default_rate_config := default_rate_config self;
     default_circuit_config := default_circuit_config self |}.

Definition put_circuit_breaker (self : t) (service_name : string)
    (breaker : CircuitBreaker.t) : t :=
  {| rate_limiters := rate_limiters self;
     circuit_breakers := <[service_name := breaker]> (circuit_breakers self);
     default_rate_config := default_rate_config self;
     default_circuit_config := default_circuit_config self |}.

(** The [rate_limited(service_name)] decorator applied to [func], run on the
    global manager: [t_init] is the reading of a limiter's construction and
    [now] the one of [is_allowed]. *)
Definition rate_limited {W R : Type} (service_name : string)
    (func : W -> Result R * W) (manager : t) (t_init now : Q) (w : W)
    : Result R * t * W :=
  let '(rate_limiter, manager) := get_rate_limiter manager service_name t_init in
  let '(decision, rate_limiter) := RateLimiter.is_allowed rate_limiter now 1 in
  let manager := put_rate_limiter manager service_name rate_limiter in
  match decision with
  | Raise e => (Raise e, manager, w)
  | Return (allowed, info) =>
      if negb allowed then
        (Raise (RateLimitExceededError
                  ("Rate limit exceeded: " +:+ default ""%string (RateLimiter.reason info))),
         manager, w)
      else
        let '(r, w') := func w in (r, manager, w')
  end.

(** The [circuit_protected(service_name)] decorator applied to [func]. *)
Definition circuit_protected {W R : Type} (service_name : string)
    (func : W -> Result R * W) (manager : t) (now : Q) (w : W) (t_fail : Q)
    : Result R * t * W :=
  let '(circuit_breaker, manager) := get_circuit_breaker manager service_name in
  let '(r, circuit_breaker, w') := CircuitBreaker.call circuit_breaker now func w t_fail in
  (r, put_circuit_breaker manager service_name circuit_breaker, w').

End ProductionAPIManager.

(** ** [PerformanceCache]: the API-response cache *)

Module PerformanceCache.

(** What a cache file holds: the pickled dictionary [set_api_response]
    writes, or bytes that [pickle.load] rejects. *)
Inductive FileContent :=
| Pickled (data : string) (timestamp : Q)
| Unreadable.

(** [files] is the content of [cache_dir], by cache key (the file of key
    [k] is [cache_dir/k.cache]). Opening, writing and unlinking a file
    succeed. *)
Record t := {
  ttl : Z;
  memory_cache : gmap string (string * Q);
  files : gmap string FileContent
}.

(** [__init__] on an empty directory; the default [ttl] is 3600. *)
Definition init (ttl_seconds : Z) : t :=
  {| ttl := ttl_seconds; memory_cache := ∅; files := ∅ |}.

Definition _is_expired (self : t) (now : Q) (timestamp : Q) : bool :=
  Qgtb (now - timestamp)%Q (inject_Z (ttl self)).

Section api_response.

(** [api_key h] is [_get_cache_key({'type': 'api_response', 'prompt_hash': h})],
    the MD5 digest of the JSON text of that dictionary. *)
Variable api_key : string -> string.

(** [get_api_response]; [now_mem] and [now_file] are the clock readings of
    the two [_is_expired] calls. *)
Definition get_api_response (self : t) (now_mem now_file : Q)
    (prompt_hash : string) : option string * t :=
  let cache_key := api_key prompt_hash in
  let '(hit, self) :=
    match memory_cache self !! cache_key with
    | Some (data, timestamp) =>
        if negb (_is_expired self now_mem timestamp) then (Some data, self)
        else
          (None,
           {| ttl := ttl self;
              memory_cache := delete cache_key (memory_cache self);
              files := files self |})
    | None => (None, self)
    end in
  match hit with
  | Some data => (Some data, self)
  | None =>
      match files self !! cache_key with
      | Some (Pickled data timestamp) =>
          if negb (_is_expired self now_file timestamp) then
            (Some data,
             {| ttl := ttl self;
                memory_cache := <[cache_key := (data, timestamp)]> (memory_cache self);
                files := files self |})
          else
            (None,
             {| ttl := ttl self;
                memory_cache := memory_cache self;
                files := delete cache_key (files self) |})
      | Some Unreadable => (None, self)
      | None => (None, self)
      end
  end.

(** [set_api_response]; [now] is its clock reading. *)
Definition set_api_response (self : t) (now : Q) (prompt_hash response : string) : t :=
  let cache_key := api_key prompt_hash in
  let timestamp := now in
  {| ttl := ttl self;
     memory_cache := <[cache_key := (response, timestamp)]> (memory_cache self);
     files := <[cache_key := Pickled response timestamp]> (files self) |}.

End api_response.

(** [clear_expired_cache], on a cache whose memory tier and directory hold
    API responses. Every [_is_expired] call reads the clock: [at_mem k] is
    the reading made when the memory entry of key [k] is examined and
    [at_file k] the one made for the file of key [k]. A file that does not
    unpickle is logged and left in place. The result is the number of
    entries removed, memory entries and files together. *)
Definition mem_expired (self : t) (at_mem : string -> Q) (kv : string * (string * Q)) : bool :=
  _is_expired self (at_mem (fst kv)) (snd (snd kv)).

Definition file_expired (self : t) (at_file : string -> Q) (kv : string * FileContent) : bool :=
  match snd kv with
  | Pickled _ timestamp => _is_expired self (at_file (fst kv)) timestamp
  | Unreadable => false
  end.

Definition clear_expired_cache (self : t) (at_mem at_file : string -> Q) : Z * t :=
  let expired_keys := filter (fun kv => mem_expired self at_mem kv = true) (memory_cache self) in
  let expired_files := filter (fun kv => file_expired self at_file kv = true) (files self) in
  (Z.of_nat (size expired_keys) + Z.of_nat (size expired_files),
   {| ttl := ttl self;
      memory_cache :=
        filter (fun kv => mem_expired self at_mem kv <> true) (memory_cache self);
      files :=
        filter (fun kv => file_expired self at_file kv <> true) (files self) |}).

End PerformanceCache.

(** ** [PerformanceCache]: the regulation-search cache

    [get_regulation_search] and [set_regulation_search] work on the same
    object as the API-response methods. Their keys are digests of
    dictionaries of another ['type'], so their entries are modelled by maps
    of their own, with the cached documents of an arbitrary type [D]. *)

Module RegulationSearch.

(** [sorted(xs)] on strings. Python orders strings by code point, which on
    UTF-8 text is the order of the bytes, [String.leb]; since the order is
    total and equal strings are identical, every sorting algorithm returns
    the same list, here by insertion. *)
Fixpoint insert_sorted (x : string) (xs : list string) : list string :=
  match xs with
  | [] => [x]
  | y :: rest => if String.leb x y then x :: y :: rest else y :: insert_sorted x rest
  end.

Definition sorted (xs : list string) : list string :=
  fold_right insert_sorted [] xs.

(** A cache file of this kind: the pickled dictionary with ['data'] and
    ['timestamp'] (its ['metadata'] is never read), or bytes that do not
    unpickle. *)
Inductive FileContent (D : Type) :=
| Pickled (data : D) (timestamp : Q)
| Unreadable.
Arguments Pickled {D} data timestamp.
Arguments Unreadable {D}.

Record t (D : Type) := {
  ttl : Z;
  memory_cache : gmap string (D * Q);
  files : gmap string (FileContent D)
}.
Arguments ttl {D} _.
Arguments memory_cache {D} _.
Arguments files {D} _.

Definition init (D : Type) (ttl_seconds : Z) : t D :=
  {| ttl := ttl_seconds; memory_cache := ∅; files := ∅ |}.

Definition _is_expired {D : Type} (self : t D) (now : Q) (timestamp : Q) : bool :=
  Qgtb (now - timestamp)%Q (inject_Z (ttl self)).

Section regulation_search.

Context {D : Type}.

(** [str.lower]. *)
Variable lower : string -> string.

(** [search_key country industry activities] is [_get_cache_key] of the
    dictionary with ['type'] ['regulation_search'] and these three values:
    the MD5 digest of its JSON text. *)
Variable search_key : string -> string -> list string -> string.

(** The key of a search: [cache_key_data] and [_get_cache_key]. *)
Definition cache_key_of (country industry : string) (business_activities : list string)
    : string :=
  search_key (lower country) (lower industry) (sorted (map lower business_activities)).

(** [get_regulation_search]; [now_mem] and [now_file] are the clock
    readings of the two [_is_expired] calls. *)
Definition get_regulation_search (self : t D) (now_mem now_file : Q)
    (country industry : string) (business_activities : list string)
    : option D * t D :=
  let cache_key := cache_key_of country industry business_activities in
  let '(hit, self) :=
    match memory_cache self !! cache_key with
    | Some (data, timestamp) =>
        if negb (_is_expired self now_mem timestamp) then (Some data, self)
        else
          (None,
           {| ttl := ttl self;
              memory_cache := delete cache_key (memory_cache self);
              files := files self |})
    | None => (None, self)
    end in
  match hit with
  | Some data => (Some data, self)
  | None =>
      match files self !! cache_key with
      | Some (Pickled data timestamp) =>
          if negb (_is_expired self now_file timestamp) then
            (Some data,
             {| ttl := ttl self;
                memory_cache := <[cache_key := (data, timestamp)]> (memory_cache self);
                files := files self |})
          else
            (None,
             {| ttl := ttl self;
                memory_cache := memory_cache self;
                files := delete cache_key (files self) |})
      | Some Unreadable => (None, self)
      | None => (None, self)
      end
  end.

(** [set_regulation_search]; [now] is its clock reading. *)
Definition set_regulation_search (self : t D) (now : Q)
    (country industry : string) (business_activities : list string) (data : D) : t D :=
  let cache_key := cache_key_of country industry business_activities in
  let timestamp := now in
  {| ttl := ttl self;
     memory_cache := <[cache_key := (data, timestamp)]> (memory_cache self);
     files := <[cache_key := Pickled data timestamp]> (files self) |}.

End regulation_search.

End RegulationSearch.

(** ** The response cache as the specification words it *)

Module ResponseCacheSpec.

(** The cache of the specification's section 4.3, in its words:
    [CacheEntry] with a [ttlSeconds] of its own, [Set(key, value,
    ttlSeconds)] writing both tiers with [createdAt = now], and the two-tier
    [Get(key)]. An entry is valid while [now - createdAt < ttlSeconds], in
    either tier. This is not a translation of source code; it is what
    [PerformanceCache] is compared with. *)
Record CacheEntry := {
  value : string;
  createdAt : Q;
  ttlSeconds : Z
}.

Record t := {
  fast : gmap string CacheEntry;
  durable : gmap string CacheEntry
}.

Definition empty : t := {| fast := ∅; durable := ∅ |}.

Definition valid (e : CacheEntry) (now : Q) : bool :=
  Qgtb (inject_Z (ttlSeconds e)) (now - createdAt e)%Q.

Definition Set_ (self : t) (now : Q) (key val : string) (ttl_seconds : Z) : t :=
  let e := {| value := val; createdAt := now; ttlSeconds := ttl_seconds |} in
  {| fast := <[key := e]> (fast self); durable := <[key := e]> (durable self) |}.

Definition Get (self : t) (now : Q) (key : string) : option string * t :=
  match fast self !! key with
  | Some e =>
      if valid e now then (Some (value e), self)
      else
        match durable self !! key with
        | Some d =>
            if valid d now then
              (Some (value d), {| fast := <[key := d]> (fast self); durable := durable self |})
            else (None, {| fast := fast self; durable := delete key (durable self) |})
        | None => (None, self)
        end
  | None =>
      match durable self !! key with
      | Some d =>
          if valid d now then
            (Some (value d), {| fast := <[key := d]> (fast self); durable := durable self |})
          else (None, {| fast := fast self; durable := delete key (durable self) |})
      | None => (None, self)
      end
  end.

End ResponseCacheSpec.

(** ** [GeminiClient.generate_response] *)

Module GeminiClient.

(** The global objects the method works on, and the remote model. *)
Record Env (W : Type) := {
  api_manager : ProductionAPIManager.t;
  performance_cache : PerformanceCache.t;
  remote : W
}.
Arguments api_manager {W} _.
Arguments performance_cache {W} _.
Arguments remote {W} _.

(** The clock readings along one run, by call site: the construction of the
    limiter, [is_allowed], the two [_is_expired] calls of the first cache
    lookup, the breaker's OPEN check and failure record, the two
    [_is_expired] calls of the lookup after [CircuitBreakerOpenError], and
    [set_api_response]. *)
Record Clock := {
  at_limiter_init : Q;
  at_is_allowed : Q;
  at_lookup_mem : Q;
  at_lookup_file : Q;
  at_breaker : Q;
  at_failure : Q;
  at_fallback_mem : Q;
  at_fallback_file : Q;
  at_store : Q
}.

Definition newline : string := String "010"%char EmptyString.

Section generate_response.

Context {W : Type}.

(** [prompt_hash_of text temperature max_tokens] is what evaluating
    [hashlib.md5(f"{text}_{temperature}_{max_tokens}".encode()).hexdigest()]
    gives: the digest, or the exception the expression raises
    ([UnicodeEncodeError] from [encode] when the text holds a lone
    surrogate). *)
Variable prompt_hash_of : string -> Q -> Z -> Result string.

(** The key derivation of [PerformanceCache]. *)
Variable api_key : string -> string.

(** The text an f-string gives for a number, and [str(e)]. *)
Variable format_num : PyNum -> string.
Variable str : PyExc -> string.

(** [self.model.generate_content_async(full_prompt, generation_config)]
    followed by [response.text], as a function of the prompt, the
    temperature and the token limit. *)
Variable generate_content : string -> Q -> Z -> W -> Result string * W.

Definition with_manager (env : Env W) (m : ProductionAPIManager.t) : Env W :=
  {| api_manager := m; performance_cache := performance_cache env; remote := remote env |}.

Definition with_cache (env : Env W) (c : PerformanceCache.t) : Env W :=
  {| api_manager := api_manager env; performance_cache := c; remote := remote env |}.

Definition with_remote (env : Env W) (w : W) : Env W :=
  {| api_manager := api_manager env; performance_cache := performance_cache env; remote := w |}.

(** The handler that closes the method:
    [except Exception as e: return f"Error: Unable to generate response - {str(e)}"].
    What is not an [Exception] leaves the method. *)
Definition report_error (e : PyExc) (env : Env W) : Result string * Env W :=
  if is_Exception e then
    (Return ("Error: Unable to generate response - " +:+ str e)%string, env)
  else (Raise e, env).

(** [if use_cache: await performance_cache.set_api_response(prompt_hash, response_text)].
    [cache_hash] is [Some prompt_hash] when [use_cache] is set and [None]
    when it is not: [prompt_hash] is bound by the cache check, which runs
    under [if use_cache], and every later use of it sits under
    [if use_cache] too. *)
Definition store_response (env : Env W) (clk : Clock) (cache_hash : option string)
    (response_text : string) : Env W :=
  match cache_hash with
  | Some prompt_hash =>
      with_cache env
        (PerformanceCache.set_api_response api_key (performance_cache env)
           (at_store clk) prompt_hash response_text)
  | None => env
  end.

(** The part of [generate_response] below the cache check, inside its
    [try ... except Exception]: the call through the breaker, the handler
    [except (ImportError, CircuitBreakerOpenError)] with its two branches,
    and the caching of the response. *)
Definition call_model (env : Env W) (clk : Clock) (full_prompt : string)
    (temperature : Q) (max_tokens : Z) (cache_hash : option string)
    : Result string * Env W :=
  (* Apply circuit breaker protection *)
  let '(circuit_breaker, manager) :=
    ProductionAPIManager.get_circuit_breaker (api_manager env) "gemini_api" in
  let '(outcome, circuit_breaker, w) :=
    CircuitBreaker.call circuit_breaker (at_breaker clk)
      (generate_content full_prompt temperature max_tokens)
      (remote env) (at_failure clk) in
  let env :=
    with_remote
      (with_manager env
         (ProductionAPIManager.put_circuit_breaker manager "gemini_api" circuit_breaker))
      w in
  match outcome with
  | Return response_text =>
      (* Cache the response if enabled *)
      (Return response_text, store_response env clk cache_hash response_text)
  | Raise (CircuitBreakerOpenError _) =>
      let unavailable :=
        "Service temporarily unavailable. Using fallback response."%string in
      match cache_hash with
      | Some prompt_hash =>
          let '(cached_response, cache) :=
            PerformanceCache.get_api_response api_key (performance_cache env)
              (at_fallback_mem clk) (at_fallback_file clk) prompt_hash in
          let env := with_cache env cache in
          match cached_response with
          | Some cached =>
              if truthy_str cached then (Return cached, env)
              else (Return unavailable, env)
          | None => (Return unavailable, env)
          end
      | None => (Return unavailable, env)
      end
  | Raise (ImportError _) =>
      (* Fallback to direct API call if circuit breaker not available *)
      match generate_content full_prompt temperature max_tokens (remote env) with
      | (Return response_text, w) =>
          (Return response_text,
           store_response (with_remote env w) clk cache_hash response_text)
      | (Raise e, w) => report_error e (with_remote env w)
      end
  | Raise e => report_error e env
  end.

(** The second [try] block of [generate_response], with its handler
    [except Exception]: the prompt sent to the model, the cache check, and
    the call of the model. *)
Definition cached_call (env : Env W) (clk : Clock)
    (prompt : string) (temperature : Q) (max_tokens : Z)
    (system_prompt : option string) (use_cache : bool) : Result string * Env W :=
  let full_prompt :=
    match system_prompt with
    | Some sp =>
        if truthy_str sp then
          ("SYSTEM: " +:+ sp +:+ newline +:+ newline +:+ "USER: " +:+ prompt)%string
        else prompt
    | None => prompt
    end in
  (* Check cache if enabled *)
  if use_cache then
    match prompt_hash_of full_prompt temperature max_tokens with
    | Raise e => report_error e env
    | Return prompt_hash =>
        let '(cached_response, cache) :=
          PerformanceCache.get_api_response api_key (performance_cache env)
            (at_lookup_mem clk) (at_lookup_file clk) prompt_hash in
        let env := with_cache env cache in
        match cached_response with
        | Some cached =>
            if truthy_str cached then (Return cached, env)
            else call_model env clk full_prompt temperature max_tokens (Some prompt_hash)
        | None => call_model env clk full_prompt temperature max_tokens (Some prompt_hash)
        end
    end
  else call_model env clk full_prompt temperature max_tokens None.

(** [generate_response]. Both [utils.rate_limiter] and [utils.cache] are
    modules of the repository, so the [import] statements succeed. The
    [except ImportError] clauses remain: the one of the first [try] block
    (after which the method goes on without rate limiting), the one around
    the first cache lookup, and the one around the breaker call, which also
    catches an [ImportError] the model call raises. *)
Definition generate_response (env : Env W) (clk : Clock)
    (prompt : string) (temperature : Q) (max_tokens : Z)
    (system_prompt : option string) (use_cache : bool) : Result string * Env W :=
  (* Check rate limiting *)
  let '(rate_limiter, manager) :=
    ProductionAPIManager.get_rate_limiter (api_manager env) "gemini_api" (at_limiter_init clk) in
  let '(decision, rate_limiter) :=
    RateLimiter.is_allowed rate_limiter (at_is_allowed clk) 1 in
  let env :=
    with_manager env (ProductionAPIManager.put_rate_limiter manager "gemini_api" rate_limiter) in
  match decision with
  | Raise e =>
      (* except ImportError: rate limiting not available *)
      if is_ImportError e
      then cached_call env clk prompt temperature max_tokens system_prompt use_cache
      else (Raise e, env)
  | Return (false, info) =>
      let message :=
        ("Rate limit exceeded. Retry after "
           +:+ format_num (RateLimiter.get_retry_after info (PyInt 60))
           +:+ " seconds.")%string in
      if use_cache then
        (* try ... except ImportError: pass *)
        match prompt_hash_of prompt temperature max_tokens with
        | Raise e =>
            if is_ImportError e then (Return message, env) else (Raise e, env)
        | Return prompt_hash =>
            let '(cached_response, cache) :=
              PerformanceCache.get_api_response api_key (performance_cache env)
                (at_lookup_mem clk) (at_lookup_file clk) prompt_hash in
            let env := with_cache env cache in
            match cached_response with
            | Some cached =>
                if truthy_str cached then (Return cached, env)
                else (Return message, env)
            | None => (Return message, env)
            end
        end
      else (Return message, env)
  | Return (true, _) =>
      cached_call env clk prompt temperature max_tokens system_prompt use_cache
  end.

(** Names for what [generate_response] computes on its way: the limiter it
    obtains, the manager after the limiter's decision, the prompt sent to
    the model, the breaker it obtains, and what the cache check before the
    call yields: [Return None] when caching is off, on a miss and on an
    empty cached text, [Return (Some text)] on a hit, and [Raise] when the
    digest of the request cannot be computed. *)
Definition limiter_of (env : Env W) (clk : Clock) : RateLimiter.t :=
  fst (ProductionAPIManager.get_rate_limiter (api_manager env) "gemini_api" (at_limiter_init clk)).

Definition decision_of (env : Env W) (clk : Clock) : Result (bool * RateLimiter.Info) :=
  fst (RateLimiter.is_allowed (limiter_of env clk) (at_is_allowed clk) 1).

Definition manager_after_limiter (env : Env W) (clk : Clock) : ProductionAPIManager.t :=
  ProductionAPIManager.put_rate_limiter
    (snd (ProductionAPIManager.get_rate_limiter (api_manager env) "gemini_api" (at_limiter_init clk)))
    "gemini_api"
    (snd (RateLimiter.is_allowed (limiter_of env clk) (at_is_allowed clk) 1)).

Definition full_prompt_of (prompt : string) (system_prompt : option string) : string :=
  match system_prompt with
  | Some sp =>
      if truthy_str sp then
        ("SYSTEM: " +:+ sp +:+ newline +:+ newline +:+ "USER: " +:+ prompt)%string
      else prompt
  | None => prompt
  end.

Definition breaker_of (env : Env W) (clk : Clock) : CircuitBreaker.t :=
  fst (ProductionAPIManager.get_circuit_breaker (manager_after_limiter env clk) "gemini_api").

Definition cached_before_call (env : Env W) (clk : Clock) (text : string)
    (temperature : Q) (max_tokens : Z) (use_cache : bool) : Result (option string) :=
  if use_cache then
    match prompt_hash_of text temperature max_tokens with
    | Return prompt_hash =>
        Return
          match fst (PerformanceCache.get_api_response api_key (performance_cache env)
                       (at_lookup_mem clk) (at_lookup_file clk) prompt_hash) with
          | Some cached => if truthy_str cached then Some cached else None
          | None => None
          end
    | Raise e => Raise e
    end
  else Return None.

(** [prompt_hash] where the code below the cache check reads it: bound when
    caching is on and the digest was computed. *)
Definition cache_hash_of (text : string) (temperature : Q) (max_tokens : Z)
    (use_cache : bool) : option string :=
  if use_cache then
    match prompt_hash_of text temperature max_tokens with
    | Return prompt_hash => Some prompt_hash
    | Raise _ => None
    end
  else None.

Definition rate_limit_message (info : RateLimiter.Info) : string :=
  ("Rate limit exceeded. Retry after "
     +:+ format_num (RateLimiter.get_retry_after info (PyInt 60))
     +:+ " seconds.")%string.

End generate_response.

Section generate_response_sync.

Context {W : Type}.

Variable str : PyExc -> string.

(** [self.model.generate_content(full_prompt, generation_config)] followed
    by [response.text]; the sampling temperature is the method's default
    unless given, the token limit likewise. *)
Variable generate_content_sync : string -> Q -> Z -> W -> Result string * W.

(** [generate_response_sync]: no limiter, no breaker, no cache. *)
Definition generate_response_sync (w : W) (prompt : string) (temperature : Q)
    (max_tokens : Z) (system_prompt : option string) : Result string * W :=
  let full_prompt :=
    match system_prompt with
    | Some sp =>
        if truthy_str sp then
          ("SYSTEM: " +:+ sp +:+ newline +:+ newline +:+ "USER: " +:+ prompt)%string
        else prompt
    | None => prompt
    end in
  match generate_content_sync full_prompt temperature max_tokens w with
  | (Return text, w') => (Return text, w')
  | (Raise e, w') =>
      (* except Exception as e *)
      if is_Exception e then
        (Return ("Error: Unable to generate response - " +:+ str e)%string, w')
      else (Raise e, w')
  end.

End generate_response_sync.

End GeminiClient.

(** ** Concrete objects used in the examples *)

Module Examples.

(** The [gemini_api] limiter policy. *)
Definition gemini_rate : RateLimiter.RateLimitConfig :=
  ProductionAPIManager._get_rate_config ProductionAPIManager.init "gemini_api".

(** Four calls on one limiter: two at time 0, of cost 1 and 4, then one
    call each second. *)
Definition paced_calls : list (Q * Z) :=
  [(0%Q, 1); (0%Q, 4); (1%Q, 1); (2%Q, 1)].

(** A new [gemini_api] limiter (burst allowance 5, 30 requests per minute)
    that served five calls at time 0. *)
Definition drained : RateLimiter.t :=
  fold_left (fun self c => snd (RateLimiter.is_allowed self (fst c) (snd c)))
    [(0%Q, 1); (0%Q, 1); (0%Q, 1); (0%Q, 1); (0%Q, 1)]
    (RateLimiter.init gemini_rate 0).

(** The manager's default breaker policy: 3 failures open the circuit, 45
    seconds to recover, 2 calls in HALF_OPEN, 2 successes to close. *)
Definition manager_circuit : CircuitBreaker.CircuitBreakerConfig :=
  ProductionAPIManager._get_circuit_config ProductionAPIManager.init "other_service".

(** A breaker under that policy that opened after three failures and, once
    the recovery time had passed, let one call through, which succeeded. *)
Definition probing : CircuitBreaker.t :=
  CircuitBreaker.run (CircuitBreaker.init "other_service" manager_circuit)
    [CircuitBreaker.err_at 1; CircuitBreaker.err_at 2; CircuitBreaker.err_at 3;
     CircuitBreaker.ok_at 50].

(** A policy that allows one call in HALF_OPEN and needs two successes. *)
Definition tight_circuit : CircuitBreaker.CircuitBreakerConfig :=
  {| CircuitBreaker.failure_threshold := 1;
     CircuitBreaker.recovery_timeout := 60;
     CircuitBreaker.half_open_max_calls := 1;
     CircuitBreaker.success_threshold := 2 |}.

(** Under [tight_circuit]: one failure, then a successful call after the
    recovery time. *)
Definition stuck : CircuitBreaker.t :=
  CircuitBreaker.run (CircuitBreaker.init "svc" tight_circuit)
    [CircuitBreaker.err_at 1; CircuitBreaker.ok_at 100].

(** Stand-ins for the digest, the key derivation and the two text
    conversions, a call counter as the remote world, and a model whose
    calls all fail. The digest of a text is the text itself, but for
    [unencodable], which stands for a text with a lone surrogate. *)
Definition unencodable : string := "lone surrogate".

Definition digest (text : string) (temperature : Q) (max_tokens : Z) : Result string :=
  if String.eqb text unencodable
  then Raise (UnicodeEncodeError "surrogates not allowed")
  else Return text.

Definition same_key (h : string) : string := h.

Definition show_num (n : PyNum) : string :=
  match n with
  | PyInt 45 => "45"%string
  | _ => "n"%string
  end.

Definition show_exc (e : PyExc) : string :=
  match e with
  | ValueError m | UnicodeEncodeError m | ImportError m | RateLimitExceededError m
  | OtherException m | OtherBaseException m => m
  | CircuitBreakerOpenError _ => "circuit open"%string
  | CancelledError => ""%string
  end.

Definition failing_model (full_prompt : string) (temperature : Q) (max_tokens : Z)
    (calls : nat) : Result string * nat :=
  (Raise (OtherException "quota exhausted"), S calls).

Definition clock_at (now : Q) : GeminiClient.Clock :=
  {| GeminiClient.at_limiter_init := now; GeminiClient.at_is_allowed := now;
     GeminiClient.at_lookup_mem := now; GeminiClient.at_lookup_file := now;
     GeminiClient.at_breaker := now; GeminiClient.at_failure := now;
     GeminiClient.at_fallback_mem := now; GeminiClient.at_fallback_file := now;
     GeminiClient.at_store := now |}.

(** A process that has made no call yet, with an empty cache. *)
Definition env_new : GeminiClient.Env nat :=
  {| GeminiClient.api_manager := ProductionAPIManager.init;
     GeminiClient.performance_cache := PerformanceCache.init 3600;
     GeminiClient.remote := 0%nat |}.


(** A model that answers every call. *)
Definition answering_model (full_prompt : string) (temperature : Q) (max_tokens : Z)
    (calls : nat) : Result string * nat :=
  (Return "answer"%string, S calls).

(** A process whose [gemini_api] limiter has one token left, with an empty
    cache. *)
Definition env_last_token : GeminiClient.Env nat :=
  {| GeminiClient.api_manager :=
       ProductionAPIManager.put_rate_limiter ProductionAPIManager.init "gemini_api"
         (RateLimiter.after_calls (RateLimiter.init gemini_rate 0)
            [(0%Q, 1); (0%Q, 1); (0%Q, 1); (0%Q, 1)]);
     GeminiClient.performance_cache := PerformanceCache.init 3600;
     GeminiClient.remote := 0%nat |}.

(** A process whose [gemini_api] breaker opened at time 2, with an empty
    cache. *)
Definition env_open : GeminiClient.Env nat :=
  {| GeminiClient.api_manager :=
       ProductionAPIManager.put_circuit_breaker ProductionAPIManager.init "gemini_api"
         (CircuitBreaker.run
            (CircuitBreaker.init "gemini_api"
               (ProductionAPIManager._get_circuit_config ProductionAPIManager.init "gemini_api"))
            [CircuitBreaker.err_at 1; CircuitBreaker.err_at 2]);
     GeminiClient.performance_cache := PerformanceCache.init 3600;
     GeminiClient.remote := 0%nat |}.


Definition cancelled_model (full_prompt : string) (temperature : Q) (max_tokens : Z)
    (calls : nat) : Result string * nat :=
  (Raise CancelledError, S calls).

(** The [gemini_api] breaker policy (2 failures open the circuit, 120
    seconds to recover, 1 call in HALF_OPEN, 1 success to close), and a
    breaker under it that opened at time 2. *)
Definition gemini_circuit : CircuitBreaker.CircuitBreakerConfig :=
  ProductionAPIManager._get_circuit_config ProductionAPIManager.init "gemini_api".

Definition gemini_opened : CircuitBreaker.t :=
  CircuitBreaker.run (CircuitBreaker.init "gemini_api" gemini_circuit)
    [CircuitBreaker.err_at 1; CircuitBreaker.err_at 2].

(** That breaker after the call made at time 130, past the recovery time,
    was cancelled while the model was awaited. *)
Definition gemini_cancelled : CircuitBreaker.t :=
  CircuitBreaker.run (CircuitBreaker.init "gemini_api" gemini_circuit)
    [CircuitBreaker.err_at 1; CircuitBreaker.err_at 2; CircuitBreaker.cancelled_at 130].

(** A policy that allows no call in HALF_OPEN, and a breaker under it that
    opened at time 1. *)
Definition no_probe_circuit : CircuitBreaker.CircuitBreakerConfig :=
  {| CircuitBreaker.failure_threshold := 1;
     CircuitBreaker.recovery_timeout := 60;
     CircuitBreaker.half_open_max_calls := 0;
     CircuitBreaker.success_threshold := 1 |}.

Definition no_probe_opened : CircuitBreaker.t :=
  CircuitBreaker.run (CircuitBreaker.init "svc" no_probe_circuit) [CircuitBreaker.err_at 1].

End Examples.

(** * Properties *)

(** ** Arithmetic of the embedding *)

Lemma Qgtb_lt (x y : Q) : Qgtb x y = true <-> (y < x)%Q.
Proof.
  unfold Qgtb. rewrite negb_true_iff. split; intros H.
  - apply Qnot_le_lt. intros Hle. apply Qle_bool_iff in Hle. congruence.
  - destruct (Qle_bool x y) eqn:E; [|reflexivity].
    apply Qle_bool_iff in E. exfalso. exact (Qlt_not_le _ _ H E).
Qed.

Lemma Qgeb_le (x y : Q) : Qgeb x y = true <-> (y <= x)%Q.
Proof. unfold Qgeb. apply Qle_bool_iff. Qed.

Lemma py_int_nonneg (x : Q) : (0 <= x)%Q -> 0 <= py_int x.
Proof.
  intros H. unfold py_int. apply Z.quot_pos; [|lia].
  unfold Qle in H. simpl in H. lia.
Qed.

(** On a non-negative float [int] is the floor. *)
Lemma py_int_floor (x : Q) :
  (0 <= x)%Q -> (inject_Z (py_int x) <= x)%Q /\ (x < inject_Z (py_int x + 1))%Q.
Proof.
  intros H. destruct x as [n d]. unfold py_int, Qle, Qlt in *. simpl in *.
  assert (Hn : 0 <= n) by lia.
  rewrite Z.quot_div_nonneg by lia.
  pose proof (Z.mul_div_le n (Z.pos d) ltac:(lia)).
  pose proof (Z.mul_succ_div_gt n (Z.pos d) ltac:(lia)).
  split; lia.
Qed.

Lemma refill_credit_nonneg (now last : Q) (rpm : Z) :
  (last <= now)%Q -> 0 <= rpm ->
  0 <= py_int ((now - last) * inject_Z rpm / 60)%Q.
Proof.
  intros Hle Hr. apply py_int_nonneg.
  apply Qle_shift_div_l; [reflexivity|].
  rewrite Qmult_0_l. apply Qmult_le_0_compat.
  - apply (proj1 (Qle_minus_iff last now)) in Hle. exact Hle.
  - unfold Qle. simpl. lia.
Qed.

(** ** The rate limiter *)

Section RateLimiterFacts.

Import RateLimiter.

Lemma cleanup_frame (self : t) (now : Q) :
  config (_cleanup_old_requests self now) = config self
  /\ tokens (_cleanup_old_requests self now) = tokens self
  /\ last_refill (_cleanup_old_requests self now) = last_refill self.
Proof. repeat split. Qed.

(** The three ways [is_allowed] leaves before the bucket is touched, and the
    two after it. *)
Lemma is_allowed_cases (self : t) (now : Q) (cost : Z) :
  let pruned := _cleanup_old_requests self now in
  let refilled := _refill_tokens pruned now in
  (snd (is_allowed self now cost) = pruned
   /\ (len (minute_requests pruned) >= requests_per_minute (config self)
       \/ len (hour_requests pruned) >= requests_per_hour (config self))
   /\ (forall i, fst (is_allowed self now cost) <> Return (true, i))
   /\ (forall r t', fst (is_allowed self now cost) <> Return (false, burst_limit_exceeded r t')))
  \/ (len (minute_requests pruned) < requests_per_minute (config self)
      /\ len (hour_requests pruned) < requests_per_hour (config self)
      /\ tokens refilled < cost
      /\ is_allowed self now cost =
           (Return (false, burst_limit_exceeded (cooldown_seconds (config self)) (tokens refilled)),
            refilled))
  \/ (len (minute_requests pruned) < requests_per_minute (config self)
      /\ len (hour_requests pruned) < requests_per_hour (config self)
      /\ cost <= tokens refilled
      /\ exists i, is_allowed self now cost =
           (Return (true, i),
            {| config := config self;
               tokens := tokens refilled - cost;
               last_refill := now;
               minute_requests := minute_requests pruned ++ [now];
               hour_requests := hour_requests pruned ++ [now] |})).
Proof.
  intros pruned refilled. unfold is_allowed. fold pruned.
  change (config pruned) with (config self).
  destruct (len (minute_requests pruned) >=? requests_per_minute (config self)) eqn:Em.
  { left. apply Z.geb_le in Em.
    destruct (py_min (minute_requests pruned)); cbn [fst snd];
      (split; [reflexivity|split; [left; lia|split; intros; discriminate]]). }
  destruct (len (hour_requests pruned) >=? requests_per_hour (config self)) eqn:Eh.
  { left. apply Z.geb_le in Eh.
    destruct (py_min (hour_requests pruned)); cbn [fst snd];
      (split; [reflexivity|split; [right; lia|split; intros; discriminate]]). }
  assert (Hm : len (minute_requests pruned) < requests_per_minute (config self)).
  { destruct (Z.geb_spec (len (minute_requests pruned)) (requests_per_minute (config self)));
      [discriminate|lia]. }
  assert (Hh : len (hour_requests pruned) < requests_per_hour (config self)).
  { destruct (Z.geb_spec (len (hour_requests pruned)) (requests_per_hour (config self)));
      [discriminate|lia]. }
  fold refilled.
  destruct (Z.ltb_spec (tokens refilled) cost) as [Hlt|Hge].
  - right. left. repeat split; assumption.
  - right. right. repeat split; try assumption. eexists. reflexivity.
Qed.

End RateLimiterFacts.

Section RateLimiterClaims.

Import RateLimiter.

Lemma len_nonneg (xs : list Q) : 0 <= len xs.
Proof. unfold len. lia. Qed.

(** One call keeps the bucket within its bounds, provided the clock has not
    gone back behind the last refill. *)
Lemma is_allowed_bounds (self : t) (now : Q) (cost : Z) :
  0 <= cost ->
  (last_refill self <= now)%Q ->
  0 <= tokens self <= burst_allowance (config self) ->
  let self' := snd (is_allowed self now cost) in
  config self' = config self
  /\ 0 <= tokens self' <= burst_allowance (config self)
  /\ (last_refill self' <= now)%Q.
Proof.
  intros Hc Ht Hb self'. subst self'.
  destruct (is_allowed_cases self now cost) as [(E & _)|[(Hm & _ & Hlt & E)|(Hm & _ & Hge & i & E)]].
  - rewrite E. cbn. auto.
  - rewrite E. cbn [snd].
    pose proof (len_nonneg (minute_requests (_cleanup_old_requests self now))) as Hl.
    pose proof (refill_credit_nonneg now (last_refill self)
                  (requests_per_minute (config self)) Ht ltac:(lia)) as Hadd.
    cbn. split; [reflexivity|]. split; [lia|apply Qle_refl].
  - rewrite E. cbn [snd].
    pose proof (len_nonneg (minute_requests (_cleanup_old_requests self now))) as Hl.
    pose proof (refill_credit_nonneg now (last_refill self)
                  (requests_per_minute (config self)) Ht ltac:(lia)) as Hadd.
    cbn in Hge |- *. split; [reflexivity|]. split; [lia|apply Qle_refl].
Qed.

Lemma trace_bounds (calls : list (Q * Z)) : forall (self : t) (start : Q),
  (last_refill self <= start)%Q ->
  0 <= tokens self <= burst_allowance (config self) ->
  clock_ordered start calls ->
  Forall (fun c => 0 <= snd c) calls ->
  Forall (fun s => 0 <= tokens s <= burst_allowance (config self)) (trace self calls).
Proof.
  induction calls as [|[now cost] rest IH]; intros self start Hs Hb Ho Hc.
  - constructor.
  - cbn [trace]. destruct Ho as [Hle Ho]. inversion Hc as [|? ? Hc0 Hcr]; subst.
    cbn [snd] in Hc0.
    destruct (is_allowed_bounds self now cost Hc0 (Qle_trans _ _ _ Hs Hle) Hb)
      as (Hcfg & Hb' & Hl').
    constructor; [exact Hb'|].
    rewrite <- Hcfg. apply (IH _ now); try assumption.
    rewrite Hcfg. exact Hb'.
Qed.

(** C1, as amended: a call of [is_allowed] that passes both window checks
    sets the token count to [min(burst_allowance, tokens + int(elapsed *
    requests_per_minute / 60))], [elapsed] being [now - last_refill], before
    the cost is taken from it when the call is allowed, and sets
    [last_refill] to [now]. The credit is a whole number of tokens: [int]
    drops the fractional part, so for a non-negative amount the credit is
    its floor, and an amount below one token credits nothing. *)
Theorem C1_refill_credits_whole_tokens (self : t) (now : Q) (cost : Z) :
  let pruned := _cleanup_old_requests self now in
  len (minute_requests pruned) < requests_per_minute (config self) ->
  len (hour_requests pruned) < requests_per_hour (config self) ->
  let amount := ((now - last_refill self) * inject_Z (requests_per_minute (config self)) / 60)%Q in
  let refilled := Z.min (burst_allowance (config self)) (tokens self + py_int amount) in
  let self' := snd (is_allowed self now cost) in
  last_refill self' = now
  /\ tokens self' = (if refilled <? cost then refilled else refilled - cost)
  /\ ((0 <= amount)%Q ->
      (inject_Z (py_int amount) <= amount)%Q /\ (amount < inject_Z (py_int amount + 1))%Q)
  /\ ((0 <= amount)%Q -> (amount < 1)%Q -> py_int amount = 0).
Proof.
  intros pruned Hm Hh amount refilled self'. subst self'.
  assert (Hfloor : (0 <= amount)%Q ->
      (inject_Z (py_int amount) <= amount)%Q /\ (amount < inject_Z (py_int amount + 1))%Q)
    by apply py_int_floor.
  split; [|split; [|split; [exact Hfloor|]]].
  - destruct (is_allowed_cases self now cost) as [(_ & Hor & _)|[(_ & _ & _ & E)|(_ & _ & _ & i & E)]].
    + fold pruned in Hor. lia.
    + rewrite E. reflexivity.
    + rewrite E. reflexivity.
  - destruct (is_allowed_cases self now cost) as [(_ & Hor & _)|[(_ & _ & Hlt & E)|(_ & _ & Hge & i & E)]].
    + fold pruned in Hor. lia.
    + rewrite E. cbn [snd]. change (tokens (_refill_tokens (_cleanup_old_requests self now) now))
        with refilled in *.
      destruct (Z.ltb_spec refilled cost); [reflexivity|lia].
    + rewrite E. cbn [snd tokens]. change (tokens (_refill_tokens (_cleanup_old_requests self now) now))
        with refilled in *.
      destruct (Z.ltb_spec refilled cost); [lia|reflexivity].
  - intros H0 H1. destruct (Hfloor H0) as [Hlo Hhi].
    pose proof (py_int_nonneg amount H0) as Hnn.
    assert (Hlt : (inject_Z (py_int amount) < 1)%Q) by (eapply Qle_lt_trans; eassumption).
    unfold Qlt in Hlt. simpl in Hlt. lia.
Qed.

(** The theorem at the drained [gemini_api] limiter, one second after its
    last refill. *)
Lemma C1_refill_credits_whole_tokens_witness :
  let self' := snd (is_allowed Examples.drained 1 1) in
  last_refill self' = 1%Q /\ tokens self' = 0.
Proof.
  pose proof (C1_refill_credits_whole_tokens Examples.drained 1 1) as H.
  cbv zeta in H.
  destruct H as (H1 & H2 & _).
  - vm_compute. reflexivity.
  - vm_compute. reflexivity.
  - split; [exact H1|]. rewrite H2. vm_compute. reflexivity.
Defined.

(** C1 as stated fails: one second after the drained [gemini_api] limiter's
    last refill the stated formula gives half a token, the code gives none
    and moves [last_refill] on; after one more second the formula has a
    whole token, the code still has none and denies the call. *)
Lemma C1_counterexample :
  let s1 := snd (is_allowed Examples.drained 1 1) in
  len (minute_requests (_cleanup_old_requests Examples.drained 1)) < 30
  /\ len (hour_requests (_cleanup_old_requests Examples.drained 1)) < 500
  /\ ~ (inject_Z (tokens s1) ==
        Qmin (inject_Z 5)
          (inject_Z (tokens Examples.drained)
           + (1 - last_refill Examples.drained) * inject_Z 30 / 60))%Q
  /\ tokens s1 = 0
  /\ last_refill s1 = 1%Q
  /\ is_allowed s1 2 1 =
       (Return (false, burst_limit_exceeded 45 0), snd (is_allowed s1 2 1))
  /\ tokens (snd (is_allowed s1 2 1)) = 0.
Proof.
  cbv zeta. repeat split; try (vm_compute; reflexivity).
  vm_compute. intros H. discriminate H.
Qed.

(** C4, as amended: from a new limiter whose [burst_allowance] is not
    negative, after every call of a sequence of [is_allowed] calls with
    non-negative costs, [0 <= tokens <= burst_allowance], whether the calls
    are allowed, denied or raise, provided the clock readings of successive
    calls, from the construction on, do not go backwards. *)
Theorem C4_tokens_within_bounds (cfg : RateLimitConfig) (t0 : Q) (calls : list (Q * Z)) :
  0 <= burst_allowance cfg ->
  clock_ordered t0 calls ->
  Forall (fun c => 0 <= snd c) calls ->
  Forall (fun self => 0 <= tokens self <= burst_allowance cfg) (trace (init cfg t0) calls).
Proof.
  intros Hb Ho Hc.
  apply (trace_bounds calls (init cfg t0) t0); try assumption.
  - apply Qle_refl.
  - cbn. lia.
Qed.

Lemma C4_tokens_within_bounds_witness :
  Forall (fun self => 0 <= tokens self <= 5)
    (trace (init Examples.gemini_rate 0)
       [(0%Q, 1); (0%Q, 3); (1%Q, 0); (1%Q, 2); (3%Q, 1); (100%Q, 1)]).
Proof.
  apply (C4_tokens_within_bounds Examples.gemini_rate 0).
  - vm_compute. discriminate.
  - cbn. repeat split; unfold Qle; simpl; lia.
  - repeat constructor; simpl; lia.
Defined.

(** C4 as stated fails, for the calls may happen at any time and
    [time.time()] may step back: a new [gemini_api] limiter made at time 100
    serves a call of cost 5 at once; the next call reads the clock at 90,
    the refill credits [int(-10 * 30 / 60) = -5] tokens, and the limiter is
    left with -5. *)
Lemma C4_counterexample :
  let calls := [(100%Q, 5); (90%Q, 1)] in
  0 <= burst_allowance Examples.gemini_rate
  /\ Forall (fun c => 0 <= snd c) calls
  /\ map tokens (trace (init Examples.gemini_rate 100) calls) = [0; -5]
  /\ ~ Forall (fun self => 0 <= tokens self <= burst_allowance Examples.gemini_rate)
        (trace (init Examples.gemini_rate 100) calls).
Proof.
  cbv zeta. split; [vm_compute; discriminate|].
  split; [repeat constructor; cbn; lia|].
  split; [vm_compute; reflexivity|].
  intros H. inversion H as [|? ? _ H2]. inversion H2 as [|? ? [H3 _] _].
  vm_compute in H3. apply H3. reflexivity.
Qed.

(** C10: a call of [is_allowed] that returns a denial leaves both windows as
    pruning made them (no timestamp is appended) and takes no cost from the
    bucket; a denial by the minute or the hour window leaves [tokens] and
    [last_refill] as they were, and a denial for lack of tokens leaves the
    limiter exactly as the refill made it. *)
Theorem C10_denial_frame (self : t) (now : Q) (cost : Z) (info : Info) (self' : t) :
  is_allowed self now cost = (Return (false, info), self') ->
  let pruned := _cleanup_old_requests self now in
  minute_requests self' = List.filter (fun x => Qgtb x (now - 60)%Q) (minute_requests self)
  /\ hour_requests self' = List.filter (fun x => Qgtb x (now - 3600)%Q) (hour_requests self)
  /\ config self' = config self
  /\ match info with
     | minute_limit_exceeded _ | hour_limit_exceeded _ =>
         self' = pruned
         /\ tokens self' = tokens self
         /\ last_refill self' = last_refill self
     | burst_limit_exceeded _ available =>
         self' = _refill_tokens pruned now
         /\ available = tokens self'
         /\ tokens self' =
              Z.min (burst_allowance (config self))
                (tokens self
                 + py_int ((now - last_refill self)
                           * inject_Z (requests_per_minute (config self)) / 60)%Q)
         /\ last_refill self' = now
     | allowed_info _ _ _ => False
     end.
Proof.
  intros E pruned.
  destruct (is_allowed_cases self now cost)
    as [(Es & _ & Hna & Hnb)|[(_ & _ & _ & E2)|(_ & _ & _ & i & E2)]].
  - rewrite E in Es, Hna, Hnb. cbn [fst snd] in *. subst self'.
    repeat split.
    destruct info; try (repeat split; reflexivity).
    + exfalso. eapply Hnb. reflexivity.
    + unfold is_allowed in E.
      repeat match type of E with
      | context [if ?c then _ else _] => destruct c
      | context [match ?c with _ => _ end] => destruct c
      end; inversion E.
  - rewrite E in E2. inversion E2; subst. repeat split.
  - rewrite E in E2. inversion E2.
Qed.

Lemma C10_denial_frame_witness :
  let self' := snd (is_allowed Examples.drained 1 1) in
  minute_requests self' = [0%Q; 0%Q; 0%Q; 0%Q; 0%Q]
  /\ tokens self' = 0.
Proof.
  pose proof (C10_denial_frame Examples.drained 1 1 (burst_limit_exceeded 45 0)
                (snd (is_allowed Examples.drained 1 1))) as H.
  cbv zeta in H. destruct H as (Hm & _ & _ & _ & _ & Ht & _).
  - vm_compute. reflexivity.
  - split; [rewrite Hm|rewrite Ht]; vm_compute; reflexivity.
Defined.

End RateLimiterClaims.


(** ** The circuit breaker *)

Section CircuitBreakerFacts.

Import CircuitBreaker.

Lemma call_guard_closed (self : t) (now : Q) :
  state self = CLOSED -> call_guard self now = (Return tt, self).
Proof. intros H. unfold call_guard. rewrite H. cbn. rewrite H. reflexivity. Qed.

Lemma call_guard_half_open (self : t) (now : Q) :
  state self = HALF_OPEN ->
  call_guard self now =
    if half_open_calls self >=? half_open_max_calls (config self)
    then (Raise (CircuitBreakerOpenError TooManyHalfOpenCalls), self)
    else (Return tt, half_opened self (half_open_calls self + 1)).
Proof.
  intros H. unfold call_guard. rewrite H. cbn. rewrite H.
  destruct (half_open_calls self >=? half_open_max_calls (config self)); [reflexivity|].
  reflexivity.
Qed.

Lemma call_guard_open_wait (self : t) (now : Q) :
  state self = OPEN -> _should_attempt_reset self now = false ->
  call_guard self now = (Raise (CircuitBreakerOpenError IsOpen), self).
Proof. intros H Hr. unfold call_guard. rewrite H, Hr. reflexivity. Qed.

Lemma call_guard_open_reset (self : t) (now : Q) :
  state self = OPEN -> _should_attempt_reset self now = true ->
  call_guard self now =
    if 0 >=? half_open_max_calls (config self)
    then (Raise (CircuitBreakerOpenError TooManyHalfOpenCalls), half_opened self 0)
    else (Return tt, half_opened self 1).
Proof.
  intros H Hr. unfold call_guard. rewrite H, Hr. cbn.
  destruct (0 >=? half_open_max_calls (config self)); reflexivity.
Qed.

Lemma should_attempt_reset_elapsed (self : t) (now last : Q) :
  last_failure_time self = Some last ->
  (inject_Z (recovery_timeout (config self)) <= now - last)%Q ->
  _should_attempt_reset self now = true.
Proof.
  intros Hl Hle. unfold _should_attempt_reset. rewrite Hl.
  destruct (negb (truthy_time (Some last))); [reflexivity|].
  apply Qgeb_le. exact Hle.
Qed.

Lemma should_attempt_reset_early (self : t) (now last : Q) :
  last_failure_time self = Some last ->
  ~ (last == 0)%Q ->
  (now - last < inject_Z (recovery_timeout (config self)))%Q ->
  _should_attempt_reset self now = false.
Proof.
  intros Hl Hnz Hlt. unfold _should_attempt_reset. rewrite Hl. cbn.
  destruct (Qeq_bool last 0) eqn:E.
  - apply Qeq_bool_iff in E. contradiction.
  - cbn. destruct (Qgeb (now - last) (inject_Z (recovery_timeout (config self)))) eqn:G;
      [|reflexivity].
    apply Qgeb_le in G. exfalso. exact (Qlt_not_le _ _ Hlt G).
Qed.

Lemma should_attempt_reset_at_reset_time (self : t) (T : Q) :
  _should_attempt_reset self (reset_time self T) = true.
Proof.
  unfold reset_time. destruct (last_failure_time self) as [last|] eqn:Hl.
  - apply (should_attempt_reset_elapsed self _ last Hl).
    pose proof (Q.le_max_r T (last + inject_Z (recovery_timeout (config self)))) as Hm.
    apply (Qplus_le_l _ _ last). 
    eapply Qle_trans; [|eapply Qle_trans; [exact Hm|]].
    + rewrite Qplus_comm. apply Qle_refl.
    + unfold Qminus. rewrite <- Qplus_assoc. rewrite (Qplus_comm (- last) last).
      rewrite Qplus_opp_r. rewrite Qplus_0_r. apply Qle_refl.
  - unfold _should_attempt_reset. rewrite Hl. reflexivity.
Qed.

Lemma reset_time_not_before (self : t) (T : Q) : (T <= reset_time self T)%Q.
Proof.
  unfold reset_time. destruct (last_failure_time self).
  - apply Q.le_max_l.
  - apply Qle_refl.
Qed.

(** The breaker a call leaves behind depends on the wrapped function only
    through whether it returned or raised, and what. *)
Lemma call_as_event {W R : Type} (self : t) (now : Q)
    (func : W -> Result R * W) (w : W) (t_fail : Q) :
  after (call self now func w t_fail) =
  apply_event self
    {| ev_now := now;
       ev_outcome := match fst (func w) with Return _ => Return tt | Raise e => Raise e end;
       ev_t_fail := t_fail |}.
Proof.
  unfold apply_event, call, after. cbn [ev_now ev_outcome ev_t_fail].
  destruct (call_guard self now) as [[u|e] g]; [|reflexivity].
  destruct (func w) as [[r|e] w']; cbn [fst]; [reflexivity|].
  destruct (is_Exception e); reflexivity.
Qed.

Lemma run_app (self : t) (xs ys : list Event) : run self (xs ++ ys) = run (run self xs) ys.
Proof. unfold run. apply fold_left_app. Qed.

Lemma run_cons (self : t) (ev : Event) (evs : list Event) :
  run self (ev :: evs) = run (apply_event self ev) evs.
Proof. reflexivity. Qed.

Lemma apply_event_failure (self gated : t) (ev : Event) (e : PyExc) :
  call_guard self (ev_now ev) = (Return tt, gated) ->
  ev_outcome ev = Raise e ->
  is_Exception e = true ->
  apply_event self ev = _on_failure gated (ev_t_fail ev).
Proof.
  intros Hg He Hx. unfold apply_event, call, after. rewrite Hg, He, Hx. reflexivity.
Qed.

Lemma apply_event_passed (self gated : t) (ev : Event) (e : PyExc) :
  call_guard self (ev_now ev) = (Return tt, gated) ->
  ev_outcome ev = Raise e ->
  is_Exception e = false ->
  apply_event self ev = gated.
Proof.
  intros Hg He Hx. unfold apply_event, call, after. rewrite Hg, He, Hx. reflexivity.
Qed.

Lemma apply_event_success (self gated : t) (ev : Event) :
  call_guard self (ev_now ev) = (Return tt, gated) ->
  ev_outcome ev = Return tt ->
  apply_event self ev = _on_success gated.
Proof.
  intros Hg He. unfold apply_event, call, after. rewrite Hg, He. reflexivity.
Qed.

Lemma apply_event_rejected (self left : t) (ev : Event) (e : PyExc) :
  call_guard self (ev_now ev) = (Raise e, left) ->
  apply_event self ev = left.
Proof.
  intros Hg. unfold apply_event, call, after. rewrite Hg. reflexivity.
Qed.

Lemma on_failure_fields (self : t) (now : Q) :
  config (_on_failure self now) = config self
  /\ name (_on_failure self now) = name self
  /\ failure_count (_on_failure self now) = failure_count self + 1
  /\ success_count (_on_failure self now) = success_count self
  /\ half_open_calls (_on_failure self now) = half_open_calls self
  /\ last_failure_time (_on_failure self now) = Some now
  /\ (failure_threshold (config self) <= failure_count self + 1 ->
      state (_on_failure self now) = OPEN)
  /\ (failure_count self + 1 < failure_threshold (config self) ->
      state (_on_failure self now) = state self).
Proof.
  unfold _on_failure. cbn.
  destruct (Z.geb_spec (failure_count self + 1) (failure_threshold (config self)));
    cbn; repeat split; intros; try reflexivity; lia.
Qed.

Lemma on_success_half_open (self : t) :
  state self = HALF_OPEN ->
  (success_threshold (config self) <= success_count self + 1 ->
     _on_success self =
       {| name := name self; config := config self; state := CLOSED;
          failure_count := 0; success_count := 0;
          last_failure_time := last_failure_time self; half_open_calls := 0 |})
  /\ (success_count self + 1 < success_threshold (config self) ->
     _on_success self =
       {| name := name self; config := config self; state := HALF_OPEN;
          failure_count := failure_count self;
          success_count := success_count self + 1;
          last_failure_time := last_failure_time self;
          half_open_calls := half_open_calls self |}).
Proof.
  intros H. unfold _on_success. rewrite H. cbn.
  destruct (Z.geb_spec (success_count self + 1) (success_threshold (config self)));
    split; intros; try lia; reflexivity.
Qed.

(** The guard lets a call through in HALF_OPEN in two ways: the breaker was
    HALF_OPEN below its call limit, or it was OPEN and due for a reset under
    a policy that allows a call in HALF_OPEN. *)
Lemma call_guard_admits_half_open (self gated : t) (now : Q) :
  call_guard self now = (Return tt, gated) ->
  state gated = HALF_OPEN ->
  (state self = HALF_OPEN
   /\ half_open_calls self < half_open_max_calls (config self)
   /\ gated = half_opened self (half_open_calls self + 1))
  \/ (state self = OPEN
      /\ _should_attempt_reset self now = true
      /\ 0 < half_open_max_calls (config self)
      /\ gated = half_opened self 1).
Proof.
  intros Hg Hst. destruct (state self) eqn:Hs.
  - rewrite (call_guard_closed self now Hs) in Hg. inversion Hg; subst. congruence.
  - right. destruct (_should_attempt_reset self now) eqn:Hr.
    + rewrite (call_guard_open_reset self now Hs Hr) in Hg.
      destruct (Z.geb_spec 0 (half_open_max_calls (config self))); [discriminate|].
      inversion Hg; subst. repeat split; [lia].
    + rewrite (call_guard_open_wait self now Hs Hr) in Hg. discriminate.
  - left. rewrite (call_guard_half_open self now Hs) in Hg.
    destruct (Z.geb_spec (half_open_calls self) (half_open_max_calls (config self)));
      [discriminate|].
    inversion Hg; subst. repeat split; [lia].
Qed.

End CircuitBreakerFacts.

Section CircuitBreakerInvariant.

Import CircuitBreaker.

Lemma invariant_init (nm : string) (cfg : CircuitBreakerConfig) : invariant (init nm cfg).
Proof.
  unfold invariant, init. cbn. repeat split; try lia; try (left; reflexivity);
    intros; congruence.
Qed.

Lemma apply_event_config (self : t) (ev : Event) :
  config (apply_event self ev) = config self /\ name (apply_event self ev) = name self.
Proof.
  unfold apply_event, call, after, call_guard.
  destruct self as [nm cfg st fc sc lft hoc]. cbn.
  destruct st; cbn;
    repeat match goal with
    | |- context [if ?c then _ else _] => destruct c; cbn
    | |- context [match ev_outcome ev with _ => _ end] => destruct (ev_outcome ev); cbn
    end; unfold _on_success, _on_failure, _reset_circuit; cbn;
    repeat match goal with
    | |- context [if ?c then _ else _] => destruct c; cbn
    end; split; reflexivity.
Qed.

(** A call the guard lets through in HALF_OPEN, by what its action does. *)
Lemma invariant_probe (self gated : t) (ev : Event) (calls : Z) :
  invariant self ->
  state self <> CLOSED ->
  gated = half_opened self calls ->
  0 <= calls ->
  call_guard self (ev_now ev) = (Return tt, gated) ->
  invariant (apply_event self ev).
Proof.
  intros (Hsc & Hhoc & Hfc & Hsb & Hlft) Hst -> Hcalls Hg.
  assert (Hthr : failure_threshold (config self) <= failure_count self) by (apply Hfc; exact Hst).
  destruct (ev_outcome ev) as [[]|e] eqn:Ho; [|destruct (is_Exception e) eqn:Hx].
  - rewrite (apply_event_success self _ ev Hg Ho).
    destruct (on_success_half_open (half_opened self calls) eq_refl) as [Hclose Hstay].
    destruct (Z_le_gt_dec (success_threshold (config self)) (success_count self + 1)) as [Hle|Hgt].
    + rewrite (Hclose Hle). unfold invariant. cbn.
      repeat split; try lia; try (left; reflexivity); intros; congruence.
    + rewrite (Hstay ltac:(cbn; lia)). unfold invariant. cbn.
      repeat split; try lia; try (right; lia); intros; congruence.
  - rewrite (apply_event_failure self _ ev e Hg Ho Hx).
    destruct (on_failure_fields (half_opened self calls) (ev_t_fail ev))
      as (Hc & _ & Hf & Hs & Hh & Hl & Hop & _).
    cbn in Hc, Hf, Hs, Hh, Hop.
    unfold invariant. rewrite Hc, Hf, Hs, Hh, Hl, (Hop ltac:(lia)).
    repeat split; try lia; try assumption; intros; congruence.
  - rewrite (apply_event_passed self _ ev e Hg Ho Hx).
    unfold invariant, half_opened. cbn.
    repeat split; try lia; try assumption; intros; congruence.
Qed.

Lemma invariant_step (self : t) (ev : Event) :
  invariant self -> invariant (apply_event self ev).
Proof.
  intros Hi. pose proof Hi as (Hsc & Hhoc & Hfc & Hsb & Hlft).
  destruct (state self) eqn:Hst.
  - (* CLOSED *)
    pose proof (call_guard_closed self (ev_now ev) Hst) as Hg.
    destruct (ev_outcome ev) as [[]|e] eqn:Ho; [|destruct (is_Exception e) eqn:Hx].
    + rewrite (apply_event_success self self ev Hg Ho).
      unfold invariant, _on_success. rewrite Hst. cbn. rewrite ?Hst.
      repeat split; try assumption; intros; congruence.
    + rewrite (apply_event_failure self self ev e Hg Ho Hx).
      destruct (on_failure_fields self (ev_t_fail ev))
        as (Hc & _ & Hf & Hs & Hh & Hl & Hop & Hcl).
      unfold invariant. rewrite Hc, Hf, Hs, Hh, Hl.
      destruct (Z_le_gt_dec (failure_threshold (config self)) (failure_count self + 1)) as [Hle|Hgt].
      * rewrite (Hop Hle). repeat split; try assumption; intros; try congruence; lia.
      * rewrite (Hcl ltac:(lia)), Hst. repeat split; try assumption; intros; congruence.
    + rewrite (apply_event_passed self self ev e Hg Ho Hx). exact Hi.
  - (* OPEN *)
    destruct (_should_attempt_reset self (ev_now ev)) eqn:Hr.
    + pose proof (call_guard_open_reset self (ev_now ev) Hst Hr) as Hg.
      destruct (Z.geb_spec 0 (half_open_max_calls (config self))) as [Hmax|Hmax].
      * rewrite (apply_event_rejected self _ ev _ Hg).
        assert (Hthr : failure_threshold (config self) <= failure_count self)
          by (apply Hfc; congruence).
        unfold invariant, half_opened. cbn.
        repeat split; try assumption; try lia; intros; congruence.
      * apply (invariant_probe self (half_opened self 1) ev 1 Hi);
          [congruence|reflexivity|lia|exact Hg].
    + rewrite (apply_event_rejected self _ ev _ (call_guard_open_wait self _ Hst Hr)).
      exact Hi.
  - (* HALF_OPEN *)
    pose proof (call_guard_half_open self (ev_now ev) Hst) as Hg.
    destruct (Z.geb_spec (half_open_calls self) (half_open_max_calls (config self))) as [Hmax|Hmax].
    + rewrite (apply_event_rejected self _ ev _ Hg). exact Hi.
    + apply (invariant_probe self (half_opened self (half_open_calls self + 1)) ev
               (half_open_calls self + 1) Hi);
        [congruence|reflexivity|lia|exact Hg].
Qed.

(** While every action returns or fails, each call counted in HALF_OPEN has
    been a success. *)
Lemma probes_counted_step (self : t) (ev : Event) :
  invariant self -> probes_counted self -> settled ev ->
  probes_counted (apply_event self ev).
Proof.
  intros (Hsc & Hhoc & Hfc & Hsb & Hlft) Hpc Hs.
  assert (Hprobe : forall calls : Z,
            state self <> CLOSED ->
            calls = 1 \/ (calls = half_open_calls self + 1 /\ state self = HALF_OPEN) ->
            call_guard self (ev_now ev) = (Return tt, half_opened self calls) ->
            probes_counted (apply_event self ev)).
  { intros calls Hst Hcalls Hg.
    assert (Hthr : failure_threshold (config self) <= failure_count self)
      by (apply Hfc; exact Hst).
    assert (Hle : calls <= success_count self + 1).
    { destruct Hcalls as [->|[-> Hho]]; [lia|].
      destruct (Hpc Hho) as [H0|[Ha _]]; lia. }
    unfold settled in Hs.
    destruct (ev_outcome ev) as [[]|e] eqn:Ho.
    - rewrite (apply_event_success self _ ev Hg Ho).
      destruct (on_success_half_open (half_opened self calls) eq_refl) as [Hclose Hstay].
      destruct (Z_le_gt_dec (success_threshold (config self)) (success_count self + 1))
        as [Hc|Hc].
      + rewrite (Hclose Hc). unfold probes_counted. cbn. intros; congruence.
      + rewrite (Hstay ltac:(cbn; lia)). unfold probes_counted. cbn. intros _. right. lia.
    - rewrite (apply_event_failure self _ ev e Hg Ho Hs).
      destruct (on_failure_fields (half_opened self calls) (ev_t_fail ev))
        as (_ & _ & _ & _ & _ & _ & Hop & _).
      cbn in Hop. unfold probes_counted. rewrite (Hop ltac:(lia)). intros; congruence. }
  destruct (state self) eqn:Hst.
  - (* CLOSED *)
    pose proof (call_guard_closed self (ev_now ev) Hst) as Hg.
    unfold settled in Hs.
    destruct (ev_outcome ev) as [[]|e] eqn:Ho.
    + rewrite (apply_event_success self self ev Hg Ho).
      unfold probes_counted, _on_success. rewrite Hst. cbn. rewrite ?Hst. intros; congruence.
    + rewrite (apply_event_failure self self ev e Hg Ho Hs).
      destruct (on_failure_fields self (ev_t_fail ev))
        as (_ & _ & _ & _ & _ & _ & Hop & Hcl).
      unfold probes_counted.
      destruct (Z_le_gt_dec (failure_threshold (config self)) (failure_count self + 1)) as [Hle|Hgt].
      * rewrite (Hop Hle). intros; congruence.
      * rewrite (Hcl ltac:(lia)), Hst. intros; congruence.
  - (* OPEN *)
    destruct (_should_attempt_reset self (ev_now ev)) eqn:Hr.
    + pose proof (call_guard_open_reset self (ev_now ev) Hst Hr) as Hg.
      destruct (Z.geb_spec 0 (half_open_max_calls (config self))) as [Hmax|Hmax].
      * rewrite (apply_event_rejected self _ ev _ Hg).
        unfold probes_counted, half_opened. cbn. intros _. left. reflexivity.
      * apply (Hprobe 1); [congruence|left; reflexivity|exact Hg].
    + rewrite (apply_event_rejected self _ ev _ (call_guard_open_wait self _ Hst Hr)).
      unfold probes_counted. rewrite Hst. intros; congruence.
  - (* HALF_OPEN *)
    pose proof (call_guard_half_open self (ev_now ev) Hst) as Hg.
    destruct (Z.geb_spec (half_open_calls self) (half_open_max_calls (config self))) as [Hmax|Hmax].
    + rewrite (apply_event_rejected self _ ev _ Hg). exact Hpc.
    + apply (Hprobe (half_open_calls self + 1));
        [congruence|right; split; reflexivity|exact Hg].
Qed.

Lemma run_invariant (evs : list Event) : forall self : t,
  invariant self ->
  invariant (run self evs) /\ config (run self evs) = config self
  /\ name (run self evs) = name self.
Proof.
  induction evs as [|ev evs IH]; intros self Hi.
  - cbn. auto.
  - rewrite run_cons.
    destruct (IH _ (invariant_step self ev Hi)) as (Hi' & Hc & Hn).
    destruct (apply_event_config self ev) as [Hc1 Hn1].
    split; [exact Hi'|]. split; congruence.
Qed.

Lemma run_probes_counted (evs : list Event) : forall self : t,
  invariant self -> probes_counted self -> Forall settled evs ->
  probes_counted (run self evs).
Proof.
  induction evs as [|ev evs IH]; intros self Hi Hpc Hs.
  - exact Hpc.
  - inversion Hs as [|? ? Hs0 Hs']; subst. rewrite run_cons.
    apply IH; [apply invariant_step; exact Hi| |exact Hs'].
    apply probes_counted_step; assumption.
Qed.

Lemma reachable_invariant (nm : string) (cfg : CircuitBreakerConfig) (self : t) :
  reachable nm cfg self -> invariant self /\ config self = cfg /\ name self = nm.
Proof.
  intros [evs ->].
  destruct (run_invariant evs (init nm cfg) (invariant_init nm cfg)) as (Hi & Hc & Hn).
  auto.
Qed.

Lemma reachable_run (nm : string) (cfg : CircuitBreakerConfig) (self : t) (evs : list Event) :
  reachable nm cfg self -> reachable nm cfg (run self evs).
Proof.
  intros [pre ->]. exists (pre ++ evs). symmetry. apply run_app.
Qed.

Lemma reachable_settled_probes_counted (nm : string) (cfg : CircuitBreakerConfig) (self : t) :
  reachable_settled nm cfg self -> reachable nm cfg self /\ probes_counted self.
Proof.
  intros (evs & Hs & ->). split; [exists evs; reflexivity|].
  apply run_probes_counted; [apply invariant_init| |exact Hs].
  unfold probes_counted, init. cbn. intros; congruence.
Qed.

End CircuitBreakerInvariant.

Section CircuitBreakerClaims.

Import CircuitBreaker.

Lemma call_admitted {W R : Type} (self gated : t) (now : Q)
    (func : W -> Result R * W) (w : W) (t_fail : Q) :
  call_guard self now = (Return tt, gated) ->
  call self now func w t_fail =
    (fst (func w),
     match fst (func w) with
     | Return _ => _on_success gated
     | Raise e => if is_Exception e then _on_failure gated t_fail else gated
     end,
     snd (func w)).
Proof.
  intros Hg. unfold call. rewrite Hg. destruct (func w) as [[r|e] w']; [reflexivity|].
  cbn [fst snd]. destruct (is_Exception e); reflexivity.
Qed.

Lemma call_rejected {W R : Type} (self left : t) (now : Q) (e : PyExc)
    (func : W -> Result R * W) (w : W) (t_fail : Q) :
  call_guard self now = (Raise e, left) ->
  call self now func w t_fail = (Raise e, left, w).
Proof. intros Hg. unfold call. rewrite Hg. reflexivity. Qed.

Lemma call_guard_result (self : t) (now : Q) :
  (exists gated, call_guard self now = (Return tt, gated))
  \/ (exists why left, call_guard self now = (Raise (CircuitBreakerOpenError why), left)).
Proof.
  unfold call_guard. destruct (state self) eqn:Hst; cbn; rewrite ?Hst.
  - left. eexists. reflexivity.
  - destruct (_should_attempt_reset self now); cbn.
    + destruct (0 >=? half_open_max_calls (config self)).
      * right. do 2 eexists. reflexivity.
      * left. eexists. reflexivity.
    + right. do 2 eexists. reflexivity.
  - destruct (half_open_calls self >=? half_open_max_calls (config self)).
    + right. do 2 eexists. reflexivity.
    + left. eexists. reflexivity.
Qed.

(** Failures in CLOSED below the threshold are counted and leave the
    breaker CLOSED. *)
Lemma closed_failures (evs : list Event) : forall self : t,
  state self = CLOSED ->
  Forall failing evs ->
  failure_count self + Z.of_nat (length evs) < failure_threshold (config self) ->
  state (run self evs) = CLOSED
  /\ failure_count (run self evs) = failure_count self + Z.of_nat (length evs)
  /\ config (run self evs) = config self.
Proof.
  induction evs as [|ev evs IH]; intros self Hst Hf Hlt.
  - cbn. repeat split; [assumption|lia].
  - inversion Hf as [|? ? (e & He & Hx) Hf']; subst. rewrite run_cons.
    cbn [length] in Hlt.
    pose proof (apply_event_failure self self ev e (call_guard_closed self _ Hst) He Hx) as Ha.
    destruct (on_failure_fields self (ev_t_fail ev)) as (Hc & _ & Hfc & _ & _ & _ & _ & Hcl).
    rewrite <- Ha in Hc, Hfc, Hcl.
    destruct (IH (apply_event self ev)) as (H1 & H2 & H3).
    + rewrite Hcl by lia. exact Hst.
    + exact Hf'.
    + rewrite Hc, Hfc. lia.
    + repeat split; [exact H1|rewrite H2, Hfc; cbn [length]; lia|congruence].
Qed.

(** C5, as amended: (a) from CLOSED with no failure counted,
    [failure_threshold] consecutive calls whose action raises an [Exception]
    leave the breaker OPEN, and it is CLOSED until the last of them;
    (b) while OPEN, a call made less than [recovery_timeout] seconds after
    the last failure (recorded at a clock reading other than 0.0) raises
    [CircuitBreakerOpenError], runs no action and changes nothing; (c) a
    call made [recovery_timeout] seconds or more after the last failure
    moves the breaker to HALF_OPEN first; if the policy allows at least one
    call in HALF_OPEN it then runs the action once, the breaker recording
    its success or failure from HALF_OPEN; if [half_open_max_calls] is not
    positive the call raises [CircuitBreakerOpenError] without running the
    action and leaves the breaker HALF_OPEN with no call counted; (d) a
    [last_failure_time] of 0.0 counts as none: the reset is attempted
    whatever the time. *)
Theorem C5_open_fast_fail_and_recovery (self : t) :
  (state self = CLOSED -> failure_count self = 0 ->
   forall (pre : list Event) (ev : Event),
     Forall failing pre -> failing ev ->
     Z.of_nat (length pre) + 1 = failure_threshold (config self) ->
     state (run self pre) = CLOSED /\ state (run self (pre ++ [ev])) = OPEN)
  /\ (forall (now last : Q),
        state self = OPEN -> last_failure_time self = Some last -> ~ (last == 0)%Q ->
        (now - last < inject_Z (recovery_timeout (config self)))%Q ->
        forall (W R : Type) (func : W -> Result R * W) (w : W) (t_fail : Q),
          call self now func w t_fail = (Raise (CircuitBreakerOpenError IsOpen), self, w))
  /\ (forall (now last : Q),
        state self = OPEN -> last_failure_time self = Some last ->
        (inject_Z (recovery_timeout (config self)) <= now - last)%Q ->
        state (snd (call_guard self now)) = HALF_OPEN
        /\ (1 <= half_open_max_calls (config self) ->
            call_guard self now = (Return tt, half_opened self 1)
            /\ forall (W R : Type) (func : W -> Result R * W) (w : W) (t_fail : Q),
             call self now func w t_fail =
               (fst (func w),
                match fst (func w) with
                | Return _ => _on_success (half_opened self 1)
                | Raise e =>
                    if is_Exception e then _on_failure (half_opened self 1) t_fail
                    else half_opened self 1
                end,
                snd (func w)))
        /\ (half_open_max_calls (config self) <= 0 ->
            forall (W R : Type) (func : W -> Result R * W) (w : W) (t_fail : Q),
              call self now func w t_fail =
                (Raise (CircuitBreakerOpenError TooManyHalfOpenCalls), half_opened self 0, w)))
  /\ (forall (now last : Q),
        state self = OPEN -> last_failure_time self = Some last -> (last == 0)%Q ->
        state (snd (call_guard self now)) = HALF_OPEN).
Proof.
  split; [|split; [|split]].
  - intros Hst Hfc pre ev Hpre (e & He & Hx) Hlen.
    destruct (closed_failures pre self Hst Hpre ltac:(lia)) as (H1 & H2 & H3).
    split; [exact H1|].
    rewrite run_app. cbn [run fold_left]. fold (run self pre).
    rewrite (apply_event_failure (run self pre) (run self pre) ev e
               (call_guard_closed _ _ H1) He Hx).
    destruct (on_failure_fields (run self pre) (ev_t_fail ev)) as (_ & _ & _ & _ & _ & _ & Hop & _).
    apply Hop. rewrite H2, H3. lia.
  - intros now last Hst Hl Hnz Hlt W R func w t_fail.
    apply call_rejected. apply call_guard_open_wait; [exact Hst|].
    exact (should_attempt_reset_early self now last Hl Hnz Hlt).
  - intros now last Hst Hl Hle.
    pose proof (call_guard_open_reset self now Hst
                  (should_attempt_reset_elapsed self now last Hl Hle)) as Hreset.
    split; [|split].
    + rewrite Hreset.
      destruct (0 >=? half_open_max_calls (config self)); reflexivity.
    + intros Hmax.
      assert (Hg : call_guard self now = (Return tt, half_opened self 1)).
      { rewrite Hreset.
        destruct (Z.geb_spec 0 (half_open_max_calls (config self))); [lia|reflexivity]. }
      split; [exact Hg|].
      intros W R func w t_fail. apply call_admitted. exact Hg.
    + intros Hmax W R func w t_fail. apply call_rejected. rewrite Hreset.
      destruct (Z.geb_spec 0 (half_open_max_calls (config self))); [reflexivity|lia].
  - intros now last Hst Hl Hz.
    assert (Hr : _should_attempt_reset self now = true).
    { unfold _should_attempt_reset. rewrite Hl. cbn.
      apply Qeq_bool_iff in Hz. rewrite Hz. reflexivity. }
    rewrite (call_guard_open_reset self now Hst Hr).
    destruct (0 >=? half_open_max_calls (config self)); reflexivity.
Qed.

(** The theorem on the [gemini_api] breaker (2 failures open the circuit,
    120 seconds to recover, 1 call in HALF_OPEN), with a call counter as
    the action's world. *)
Lemma C5_open_fast_fail_and_recovery_witness :
  let cfg := ProductionAPIManager._get_circuit_config ProductionAPIManager.init "gemini_api" in
  let fresh := init "gemini_api" cfg in
  let opened := run fresh [err_at 1; err_at 2] in
  let count := fun n : nat => (@Return string "text"%string, S n) in
  state opened = OPEN
  /\ call opened 100 count 0%nat 100 = (Raise (CircuitBreakerOpenError IsOpen), opened, 0%nat)
  /\ snd (call opened 122 count 0%nat 122) = 1%nat.
Proof.
  cbv zeta.
  set (cfg := ProductionAPIManager._get_circuit_config ProductionAPIManager.init "gemini_api").
  set (fresh := init "gemini_api" cfg).
  set (opened := run fresh [err_at 1; err_at 2]).
  split; [|split].
  - destruct (C5_open_fast_fail_and_recovery fresh) as (Ha & _ & _).
    apply (Ha eq_refl eq_refl [err_at 1] (err_at 2)).
    + repeat constructor. eexists. split; reflexivity.
    + eexists. split; reflexivity.
    + vm_compute. reflexivity.
  - destruct (C5_open_fast_fail_and_recovery opened) as (_ & Hb & _).
    apply (Hb 100%Q 2%Q).
    + vm_compute. reflexivity.
    + vm_compute. reflexivity.
    + vm_compute. discriminate.
    + vm_compute. reflexivity.
  - destruct (C5_open_fast_fail_and_recovery opened) as (_ & _ & Hc & _).
    destruct (Hc 122%Q 2%Q) as (_ & Hrun & _).
    + vm_compute. reflexivity.
    + vm_compute. reflexivity.
    + vm_compute. discriminate.
    + destruct Hrun as [_ Hcall]; [vm_compute; discriminate|].
      rewrite Hcall. reflexivity.
Defined.

(** C5 as stated fails in its last part: under [Examples.no_probe_circuit],
    whose [half_open_max_calls] is 0, the breaker that opened at time 1 is
    called at time 100, after the recovery time of 60 seconds; the call
    moves the breaker to HALF_OPEN and raises [CircuitBreakerOpenError]
    there, the action is not run (the call counter stays at 0), and so is
    every later call. *)
Lemma C5_counterexample :
  let opened := Examples.no_probe_opened in
  let count := fun n : nat => (@Return string "text"%string, S n) in
  state opened = OPEN
  /\ last_failure_time opened = Some 1%Q
  /\ (inject_Z (recovery_timeout (config opened)) <= 100 - 1)%Q
  /\ call opened 100 count 0%nat 100
     = (Raise (CircuitBreakerOpenError TooManyHalfOpenCalls), half_opened opened 0, 0%nat)
  /\ state (half_opened opened 0) = HALF_OPEN
  /\ forall now : Q,
       call (half_opened opened 0) now count 0%nat now
       = (Raise (CircuitBreakerOpenError TooManyHalfOpenCalls), half_opened opened 0, 0%nat).
Proof.
  cbv zeta. repeat split; try (vm_compute; reflexivity).
  vm_compute. discriminate.
Qed.

(** C6, as amended: a call that the breaker runs in HALF_OPEN (one that
    arrives at a HALF_OPEN breaker below its call limit, or the one that
    moves an OPEN breaker to HALF_OPEN once the recovery time has passed)
    and whose action raises an [Exception] moves the breaker to OPEN (never
    to CLOSED), stores the time of the failure in [last_failure_time] and
    adds one to [failure_count]. It resets neither counter of HALF_OPEN:
    [success_count] stays as it was and [half_open_calls] keeps counting
    that call; [half_open_calls] is reset when the breaker next leaves OPEN
    for HALF_OPEN, where the call that makes the transition is counted as
    the first. *)
Theorem C6_half_open_failure_reopens (nm : string) (cfg : CircuitBreakerConfig)
    (self gated : t) (now t_fail : Q) (W R : Type) (func : W -> Result R * W) (w : W)
    (e : PyExc) :
  reachable nm cfg self ->
  call_guard self now = (Return tt, gated) ->
  state gated = HALF_OPEN ->
  fst (func w) = Raise e ->
  is_Exception e = true ->
  let self' := after (call self now func w t_fail) in
  fst (fst (call self now func w t_fail)) = Raise e
  /\ state self' = OPEN
  /\ last_failure_time self' = Some t_fail
  /\ failure_count self' = failure_count self + 1
  /\ success_count self' = success_count self
  /\ half_open_calls self' = half_open_calls gated
  /\ (state self = HALF_OPEN -> half_open_calls self' = half_open_calls self + 1)
  /\ (state self = OPEN -> half_open_calls self' = 1)
  /\ forall now' : Q,
       _should_attempt_reset self' now' = true ->
       call_guard self' now' = (Return tt, half_opened self' 1).
Proof.
  intros Hr Hg Hgs He Hx self'.
  destruct (reachable_invariant nm cfg self Hr) as ((_ & Hhoc & Hfc & _) & _ & _).
  assert (Hshape : exists calls, gated = half_opened self calls /\ 1 <= calls
                                 /\ 0 < half_open_max_calls (config self)
                                 /\ state self <> CLOSED
                                 /\ (state self = HALF_OPEN -> calls = half_open_calls self + 1)
                                 /\ (state self = OPEN -> calls = 1)).
  { destruct (call_guard_admits_half_open self gated now Hg Hgs)
      as [(Hs & Hroom & ->)|(Hs & _ & Hmax & ->)].
    - exists (half_open_calls self + 1). repeat split; try lia; try congruence.
    - exists 1. repeat split; try lia; congruence. }
  destruct Hshape as (calls & -> & Hcalls & Hmax & Hnc & Hho & Hop1).
  assert (Hs' : self' = _on_failure (half_opened self calls) t_fail).
  { subst self'. rewrite (call_admitted self _ now func w t_fail Hg). unfold after.
    cbn [fst snd]. rewrite He, Hx. reflexivity. }
  destruct (on_failure_fields (half_opened self calls) t_fail)
    as (Hc & _ & Hf & Hs & Hh & Hl & Hop & _).
  rewrite <- Hs' in Hc, Hf, Hs, Hh, Hl, Hop. cbn in Hc, Hf, Hs, Hh, Hop.
  assert (Hopen : state self' = OPEN).
  { apply Hop. assert (failure_threshold (config self) <= failure_count self)
      by (apply Hfc; exact Hnc). lia. }
  split; [rewrite (call_admitted self _ now func w t_fail Hg); exact He|].
  repeat split; try assumption.
  - intros Hst. rewrite Hh. apply Hho. exact Hst.
  - intros Hst. rewrite Hh. apply Hop1. exact Hst.
  - intros now' Hreset.
    rewrite (call_guard_open_reset self' now' Hopen Hreset).
    destruct (Z.geb_spec 0 (half_open_max_calls (config self'))) as [Hle|Hgt]; [|reflexivity].
    rewrite Hc in Hle. lia.
Qed.

(** The theorem on the [gemini_api] breaker that opened at time 2: the call
    made at time 130 moves it to HALF_OPEN, its action fails at time 131 and
    the breaker is OPEN again. *)
Lemma C6_half_open_failure_reopens_witness :
  let self' := after (call Examples.gemini_opened 130
                        (fun n : nat => (@Raise string (OtherException "error"), S n)) 0%nat 131) in
  state Examples.gemini_opened = OPEN
  /\ state self' = OPEN /\ last_failure_time self' = Some 131%Q /\ half_open_calls self' = 1.
Proof.
  pose proof (C6_half_open_failure_reopens "gemini_api" Examples.gemini_circuit
                Examples.gemini_opened (half_opened Examples.gemini_opened 1) 130 131 nat string
                (fun n : nat => (@Raise string (OtherException "error"), S n)) 0%nat
                (OtherException "error")) as H.
  cbv zeta in H. destruct H as (_ & H1 & H2 & _ & _ & _ & _ & H3 & _).
  - eexists. reflexivity.
  - vm_compute. reflexivity.
  - reflexivity.
  - reflexivity.
  - reflexivity.
  - split; [vm_compute; reflexivity|]. split; [exact H1|]. split; [exact H2|].
    apply H3. vm_compute. reflexivity.
Defined.

(** C6 as stated fails: the breaker [Examples.probing] is HALF_OPEN with one
    success and one call counted; a second call that fails reopens it, and
    neither counter is reset: [success_count] is still 1 and
    [half_open_calls] is 2. *)
Lemma C6_counterexample :
  let self' := after (call Examples.probing 51
                        (fun n : nat => (@Raise string (OtherException "error"), S n)) 0%nat 52) in
  reachable "other_service" Examples.manager_circuit Examples.probing
  /\ state Examples.probing = HALF_OPEN
  /\ state self' = OPEN
  /\ success_count self' = 1
  /\ half_open_calls self' = 2
  /\ ~ (success_count self' = 0 /\ half_open_calls self' = 0).
Proof.
  cbv zeta. split; [eexists; reflexivity|].
  repeat split; try (vm_compute; reflexivity).
  vm_compute. intros [H _]. discriminate H.
Qed.

End CircuitBreakerClaims.

Section CircuitBreakerLiveness.

Import CircuitBreaker.

Lemma continues_err_at (T : Q) : continues T (err_at T).
Proof. split; [split; apply Qle_refl|reflexivity]. Qed.

Lemma continues_ok_at (T : Q) : continues T (ok_at T).
Proof. split; [split; apply Qle_refl|exact I]. Qed.

Lemma continues_weaken (T T' : Q) (evs : list Event) :
  (T <= T')%Q -> Forall (continues T') evs -> Forall (continues T) evs.
Proof.
  intros Hle H. induction H as [|ev evs [[H1 H2] H3] _ IH]; constructor; [|exact IH].
  split; [|exact H3]. split; [|exact H2]. eapply Qle_trans; eassumption.
Qed.

(** A breaker that is HALF_OPEN with its call limit used up refuses every
    call and stays as it is. *)
Lemma stuck_forever (self : t) : stuck self -> forall evs : list Event, run self evs = self.
Proof.
  intros [Hst Hfull] evs. induction evs as [|ev evs IH]; [reflexivity|].
  rewrite run_cons.
  assert (Hg : call_guard self (ev_now ev) =
               (Raise (CircuitBreakerOpenError TooManyHalfOpenCalls), self)).
  { rewrite (call_guard_half_open self (ev_now ev) Hst).
    destruct (Z.geb_spec (half_open_calls self) (half_open_max_calls (config self)));
      [reflexivity|lia]. }
  rewrite (apply_event_rejected _ _ ev _ Hg). exact IH.
Qed.

(** From CLOSED, enough failures open the circuit. *)
Lemma closed_can_open (T : Q) (k : nat) : forall self : t,
  state self = CLOSED ->
  failure_threshold (config self) - failure_count self <= 1 + Z.of_nat k ->
  exists evs, Forall (continues T) evs /\ state (run self evs) = OPEN.
Proof.
  induction k as [|k IH]; intros self Hst Hk;
    pose proof (apply_event_failure self self (err_at T) _
                  (call_guard_closed self _ Hst) eq_refl eq_refl) as Ha;
    destruct (on_failure_fields self (ev_t_fail (err_at T)))
      as (Hc & _ & Hf & _ & _ & _ & Hop & Hcl);
    rewrite <- Ha in Hc, Hf, Hop, Hcl.
  - exists [err_at T]. split; [repeat constructor; apply continues_err_at|].
    cbn [run fold_left]. apply Hop. lia.
  - destruct (Z_le_gt_dec (failure_threshold (config self)) (failure_count self + 1)) as [Hle|Hgt].
    + exists [err_at T]. split; [repeat constructor; apply continues_err_at|].
      cbn [run fold_left]. apply Hop. exact Hle.
    + destruct (IH (apply_event self (err_at T))) as (evs & Hnb & Hopen).
      * rewrite Hcl by lia. exact Hst.
      * rewrite Hc, Hf. lia.
      * exists (err_at T :: evs). split; [constructor; [apply continues_err_at|exact Hnb]|].
        rewrite run_cons. exact Hopen.
Qed.

(** In HALF_OPEN, when every action has returned or failed, under a policy
    that allows as many calls as it needs successes, the call limit has not
    been reached. *)
Lemma half_open_has_room (self : t) :
  probes_counted self -> state self = HALF_OPEN ->
  1 <= half_open_max_calls (config self) ->
  success_threshold (config self) <= half_open_max_calls (config self) ->
  half_open_calls self < half_open_max_calls (config self).
Proof.
  intros Hpc Hst H1 H2.
  destruct (Hpc Hst) as [H0|[Ha Hb]]; lia.
Qed.

(** In HALF_OPEN below the call limit, a failure opens the circuit. *)
Lemma half_open_can_open (T : Q) (self : t) :
  invariant self -> state self = HALF_OPEN ->
  half_open_calls self < half_open_max_calls (config self) ->
  state (apply_event self (err_at T)) = OPEN
  /\ invariant (apply_event self (err_at T))
  /\ config (apply_event self (err_at T)) = config self.
Proof.
  intros Hi Hst Hroom.
  assert (Hg : call_guard self (ev_now (err_at T)) =
               (Return tt, half_opened self (half_open_calls self + 1))).
  { rewrite (call_guard_half_open self _ Hst).
    destruct (Z.geb_spec (half_open_calls self) (half_open_max_calls (config self)));
      [lia|reflexivity]. }
  split; [|split; [apply invariant_step; exact Hi|apply apply_event_config]].
  rewrite (apply_event_failure self _ (err_at T) _ Hg eq_refl eq_refl).
  destruct (on_failure_fields (half_opened self (half_open_calls self + 1))
              (ev_t_fail (err_at T))) as (_ & _ & _ & _ & _ & _ & Hop & _).
  apply Hop. cbn. destruct Hi as (_ & _ & Hfc & _).
  assert (failure_threshold (config self) <= failure_count self)
    by (apply Hfc; congruence). lia.
Qed.

(** From HALF_OPEN with every counted call a success, enough successes
    close the circuit. *)
Lemma half_open_can_close (T : Q) (k : nat) : forall self : t,
  state self = HALF_OPEN ->
  half_open_calls self <= success_count self ->
  success_count self < success_threshold (config self) ->
  success_threshold (config self) <= half_open_max_calls (config self) ->
  success_threshold (config self) - success_count self <= 1 + Z.of_nat k ->
  exists evs, Forall (continues T) evs /\ state (run self evs) = CLOSED.
Proof.
  induction k as [|k IH]; intros self Hst Hle Hlt H2 Hk;
    assert (Hg : call_guard self (ev_now (ok_at T)) =
                 (Return tt, half_opened self (half_open_calls self + 1)))
      by (rewrite (call_guard_half_open self _ Hst);
          destruct (Z.geb_spec (half_open_calls self) (half_open_max_calls (config self)));
          [lia|reflexivity]);
    pose proof (apply_event_success self _ (ok_at T) Hg eq_refl) as Ha;
    destruct (on_success_half_open (half_opened self (half_open_calls self + 1)) eq_refl)
      as [Hclose Hstay].
  - exists [ok_at T]. split; [repeat constructor; apply continues_ok_at|].
    cbn [run fold_left]. rewrite Ha, Hclose by (cbn; lia). reflexivity.
  - destruct (Z_le_gt_dec (success_threshold (config self)) (success_count self + 1)) as [Hc|Hc].
    + exists [ok_at T]. split; [repeat constructor; apply continues_ok_at|].
      cbn [run fold_left]. rewrite Ha, Hclose by (cbn; lia). reflexivity.
    + destruct (IH (apply_event self (ok_at T))) as (evs & Hnb & Hcl).
      * rewrite Ha, Hstay by (cbn; lia). reflexivity.
      * rewrite Ha, Hstay by (cbn; lia). cbn. lia.
      * rewrite Ha, Hstay by (cbn; lia). cbn. lia.
      * rewrite Ha, Hstay by (cbn; lia). exact H2.
      * rewrite Ha, Hstay by (cbn; lia). cbn. lia.
      * exists (ok_at T :: evs). split; [constructor; [apply continues_ok_at|exact Hnb]|].
        rewrite run_cons. exact Hcl.
Qed.

(** From OPEN, a call at a time the reset is attempted moves the breaker
    out of OPEN when its action returns. *)
Lemma open_can_leave (T : Q) (self : t) :
  state self = OPEN ->
  state (apply_event self (ok_at (reset_time self T))) <> OPEN.
Proof.
  intros Hst.
  pose proof (call_guard_open_reset self _ Hst (should_attempt_reset_at_reset_time self T)) as Hg.
  destruct (Z.geb_spec 0 (half_open_max_calls (config self))) as [Hmax|Hmax].
  - rewrite (apply_event_rejected self _ (ok_at (reset_time self T)) _ Hg). cbn. discriminate.
  - rewrite (apply_event_success self _ (ok_at (reset_time self T)) Hg eq_refl).
    destruct (on_success_half_open (half_opened self 1) eq_refl) as [Hclose Hstay].
    destruct (Z_le_gt_dec (success_threshold (config self)) (success_count self + 1)) as [Hle|Hgt].
    + rewrite (Hclose Hle). cbn. discriminate.
    + rewrite (Hstay ltac:(cbn; lia)). cbn. discriminate.
Qed.

(** From OPEN, a call after the recovery time that succeeds leads on to
    CLOSED. *)
Lemma open_can_close (T : Q) (self : t) :
  invariant self -> state self = OPEN ->
  1 <= half_open_max_calls (config self) ->
  success_threshold (config self) <= half_open_max_calls (config self) ->
  exists evs, Forall (continues T) evs /\ state (run self evs) = CLOSED.
Proof.
  intros (Hsc & _ & _ & Hsb & _) Hst H1 H2.
  set (T' := reset_time self T).
  assert (Hg : call_guard self (reset_time self T) = (Return tt, half_opened self 1)).
  { rewrite (call_guard_open_reset self _ Hst (should_attempt_reset_at_reset_time self T)).
    destruct (Z.geb_spec 0 (half_open_max_calls (config self))); [lia|reflexivity]. }
  pose proof (apply_event_success self _ (ok_at T') Hg eq_refl) as Ha.
  destruct (on_success_half_open (half_opened self 1) eq_refl) as [Hclose Hstay].
  assert (HT : (T <= T')%Q) by apply reset_time_not_before.
  assert (Hfirst : continues T (ok_at T')).
  { split; [split; [exact HT|apply Qle_refl]|exact I]. }
  destruct (Z_le_gt_dec (success_threshold (config self)) (success_count self + 1)) as [Hle|Hgt].
  - exists [ok_at T']. split; [constructor; [exact Hfirst|constructor]|].
    cbn [run fold_left]. rewrite Ha, Hclose by (cbn; lia). reflexivity.
  - destruct (half_open_can_close T'
                (Z.to_nat (success_threshold (config self) - success_count self))
                (apply_event self (ok_at T'))) as (evs & Hnb & Hcl).
    + rewrite Ha, Hstay by (cbn; lia). reflexivity.
    + rewrite Ha, Hstay by (cbn; lia). cbn. lia.
    + rewrite Ha, Hstay by (cbn; lia). cbn. lia.
    + rewrite Ha, Hstay by (cbn; lia). exact H2.
    + rewrite Ha, Hstay by (cbn; lia). cbn. lia.
    + exists (ok_at T' :: evs). split.
      * constructor; [exact Hfirst|]. exact (continues_weaken T T' evs HT Hnb).
      * rewrite run_cons. exact Hcl.
Qed.

(** C8, as amended. The breaker has one kind of terminal state: HALF_OPEN
    with [half_open_calls] at [half_open_max_calls] or above. Such a breaker
    refuses every call and no call changes it; from every other breaker that
    a sequence of calls produces, and from any time [T] on, some sequence of
    calls changes the state. Under a policy whose [half_open_max_calls] is
    at least 1 and at least [success_threshold], the terminal state is not
    reached as long as every action returns or raises an [Exception], and
    from every breaker short of it some sequence of calls leads to OPEN and
    some sequence leads to CLOSED. *)
Theorem C8_no_terminal_state (nm : string) (cfg : CircuitBreakerConfig) (self : t) (T : Q) :
  reachable nm cfg self ->
  (stuck self -> forall evs : list Event, run self evs = self)
  /\ (~ stuck self ->
      exists evs, Forall (continues T) evs /\ state (run self evs) <> state self)
  /\ (1 <= half_open_max_calls cfg ->
      success_threshold cfg <= half_open_max_calls cfg ->
      (reachable_settled nm cfg self -> ~ stuck self)
      /\ (~ stuck self ->
          (exists evs, Forall (continues T) evs /\ state (run self evs) = OPEN)
          /\ (exists evs, Forall (continues T) evs /\ state (run self evs) = CLOSED))).
Proof.
  intros Hr.
  destruct (reachable_invariant nm cfg self Hr) as (Hi & Hc & _). subst cfg.
  assert (Hroom : ~ stuck self -> state self = HALF_OPEN ->
                  half_open_calls self < half_open_max_calls (config self)).
  { intros Hns Hst.
    destruct (Z_lt_le_dec (half_open_calls self) (half_open_max_calls (config self)))
      as [Hlt|Hge]; [exact Hlt|].
    exfalso. apply Hns. split; assumption. }
  assert (Hopen : ~ stuck self ->
                  exists evs, Forall (continues T) evs /\ state (run self evs) = OPEN).
  { intros Hns. destruct (state self) eqn:Hst.
    - apply (closed_can_open T
               (Z.to_nat (failure_threshold (config self) - failure_count self)) self Hst).
      lia.
    - exists []. split; [constructor|exact Hst].
    - exists [err_at T]. split; [repeat constructor; apply continues_err_at|].
      cbn [run fold_left]. apply (half_open_can_open T self Hi Hst). apply Hroom; trivial. }
  split; [apply stuck_forever|]. split.
  - intros Hns. destruct (state self) eqn:Hst.
    + destruct (Hopen Hns) as (evs & Hnb & Ho). exists evs. split; [exact Hnb|]. congruence.
    + exists [ok_at (reset_time self T)]. split.
      * constructor; [|constructor].
        split; [split; [apply reset_time_not_before|apply Qle_refl]|exact I].
      * cbn [run fold_left]. apply open_can_leave. exact Hst.
    + destruct (Hopen Hns) as (evs & Hnb & Ho). exists evs. split; [exact Hnb|]. congruence.
  - intros H1 H2. split.
    + intros Hrs [Hst Hfull].
      destruct (reachable_settled_probes_counted nm (config self) self Hrs) as [_ Hpc].
      pose proof (half_open_has_room self Hpc Hst H1 H2). lia.
    + intros Hns. split; [exact (Hopen Hns)|].
      destruct (state self) eqn:Hst.
      * exists []. split; [constructor|exact Hst].
      * apply (open_can_close T self Hi Hst H1 H2).
      * destruct (half_open_can_open T self Hi Hst (Hroom Hns eq_refl)) as (Ho & Hi' & Hc').
        destruct (open_can_close T (apply_event self (err_at T)) Hi' Ho) as (evs & Hnb & Hcl).
        -- rewrite Hc'. exact H1.
        -- rewrite Hc'. exact H2.
        -- exists (err_at T :: evs). split; [constructor; [apply continues_err_at|exact Hnb]|].
           rewrite run_cons. exact Hcl.
Qed.

Lemma C8_no_terminal_state_witness :
  exists evs, Forall (continues 60) evs /\ state (run Examples.probing evs) = CLOSED.
Proof.
  destruct (C8_no_terminal_state "other_service" Examples.manager_circuit
              Examples.probing 60) as (_ & _ & H).
  - eexists. reflexivity.
  - destruct H as [_ H].
    + vm_compute. discriminate.
    + vm_compute. discriminate.
    + destruct H as [_ H]; [|exact H].
      intros [_ Hfull]. vm_compute in Hfull. apply Hfull. reflexivity.
Defined.

(** C8 as stated fails. Under [Examples.tight_circuit] (one call allowed in
    HALF_OPEN, two successes needed) the breaker [Examples.stuck], produced
    by one failure and one successful call after the recovery time, is
    HALF_OPEN with its call limit used up; every later call is refused
    without running its action, and no sequence of calls changes the
    breaker at all. The same happens under the [gemini_api] policy (one
    call allowed, one success needed) when the call that probes the opened
    breaker is cancelled: the call has been counted, nothing is recorded,
    and the breaker [Examples.gemini_cancelled] never changes again. *)
Lemma C8_counterexample :
  (reachable "svc" Examples.tight_circuit Examples.stuck
   /\ state Examples.stuck = HALF_OPEN
   /\ forall evs : list Event, run Examples.stuck evs = Examples.stuck)
  /\ (reachable "gemini_api" Examples.gemini_circuit Examples.gemini_cancelled
      /\ 1 <= half_open_max_calls Examples.gemini_circuit
      /\ success_threshold Examples.gemini_circuit <= half_open_max_calls Examples.gemini_circuit
      /\ state Examples.gemini_cancelled = HALF_OPEN
      /\ forall evs : list Event, run Examples.gemini_cancelled evs = Examples.gemini_cancelled).
Proof.
  split.
  - split; [eexists; reflexivity|]. split; [vm_compute; reflexivity|].
    apply stuck_forever. split; [vm_compute; reflexivity|]. vm_compute. discriminate.
  - split; [eexists; reflexivity|].
    split; [vm_compute; discriminate|]. split; [vm_compute; discriminate|].
    split; [vm_compute; reflexivity|].
    apply stuck_forever. split; [vm_compute; reflexivity|]. vm_compute. discriminate.
Qed.

End CircuitBreakerLiveness.

(** ** The response cache *)

Section CacheClaims.

Import PerformanceCache.

Variable api_key : string -> string.

Lemma is_expired_false (self : t) (now timestamp : Q) :
  _is_expired self now timestamp = false <-> (now - timestamp <= inject_Z (ttl self))%Q.
Proof.
  unfold _is_expired, Qgtb. rewrite negb_false_iff. apply Qle_bool_iff.
Qed.

(** C7, as amended: [get_api_response] looks in the memory tier first and
    returns a fresh entry from there, leaving the cache as it is; otherwise
    (no entry in memory, or an expired one, which it removes) it looks at
    the cache file: a fresh file entry is copied into the memory tier and
    returned, an expired one is deleted from disk and the result is a miss,
    and with no readable file the result is a miss. An entry is fresh while
    [now - timestamp <= ttl], where [ttl] is the one lifetime of the cache
    object, fixed when it is constructed: [set_api_response] takes no
    lifetime, and writes the response with the timestamp [now] into both
    tiers. *)
Theorem C7_two_tier_cache (self : t) (now_mem now_file : Q) (prompt_hash : string) :
  let k := api_key prompt_hash in
  (forall data ts,
     memory_cache self !! k = Some (data, ts) ->
     (now_mem - ts <= inject_Z (ttl self))%Q ->
     get_api_response api_key self now_mem now_file prompt_hash = (Some data, self))
  /\ ((forall data ts, memory_cache self !! k = Some (data, ts) ->
         ~ (now_mem - ts <= inject_Z (ttl self))%Q) ->
      (forall data ts,
         files self !! k = Some (Pickled data ts) ->
         (now_file - ts <= inject_Z (ttl self))%Q ->
         get_api_response api_key self now_mem now_file prompt_hash =
           (Some data,
            {| ttl := ttl self;
               memory_cache := <[k := (data, ts)]> (memory_cache self);
               files := files self |}))
      /\ (forall data ts,
            files self !! k = Some (Pickled data ts) ->
            ~ (now_file - ts <= inject_Z (ttl self))%Q ->
            get_api_response api_key self now_mem now_file prompt_hash =
              (None,
               {| ttl := ttl self;
                  memory_cache := delete k (memory_cache self);
                  files := delete k (files self) |}))
      /\ (files self !! k = None \/ files self !! k = Some Unreadable ->
          get_api_response api_key self now_mem now_file prompt_hash =
            (None,
             {| ttl := ttl self;
                memory_cache := delete k (memory_cache self);
                files := files self |})))
  /\ (forall (now : Q) (response : string),
        let written := set_api_response api_key self now prompt_hash response in
        ttl written = ttl self
        /\ memory_cache written !! k = Some (response, now)
        /\ files written !! k = Some (Pickled response now)
        /\ forall now_mem' now_file' : Q,
             (now_mem' - now <= inject_Z (ttl self))%Q ->
             get_api_response api_key written now_mem' now_file' prompt_hash =
               (Some response, written)).
Proof.
  intros k. split; [|split].
  - intros data ts Hm Hfresh. unfold get_api_response. fold k. rewrite Hm.
    apply is_expired_false in Hfresh. rewrite Hfresh. reflexivity.
  - intros Hmiss.
    assert (Hmem : exists self1,
        (let '(hit, s) :=
           match memory_cache self !! k with
           | Some (data, timestamp) =>
               if negb (_is_expired self now_mem timestamp) then (Some data, self)
               else (None, {| ttl := ttl self;
                              memory_cache := delete k (memory_cache self);
                              files := files self |})
           | None => (None, self)
           end in (hit, s)) = (None, self1)
        /\ ttl self1 = ttl self /\ files self1 = files self
        /\ memory_cache self1 = delete k (memory_cache self)).
    { destruct (memory_cache self !! k) as [[d ts]|] eqn:Hm.
      - destruct (_is_expired self now_mem ts) eqn:He.
        + cbn. eexists. split; [reflexivity|]. cbn. auto.
        + exfalso. apply (Hmiss d ts eq_refl). apply is_expired_false. exact He.
      - exists self. split; [reflexivity|]. repeat split.
        symmetry. apply delete_id. exact Hm. }
    destruct Hmem as (self1 & E & Ht & Hf & Hmc).
    assert (Hget : get_api_response api_key self now_mem now_file prompt_hash =
        match files self1 !! k with
        | Some (Pickled data timestamp) =>
            if negb (_is_expired self1 now_file timestamp) then
              (Some data, {| ttl := ttl self1;
                             memory_cache := <[k := (data, timestamp)]> (memory_cache self1);
                             files := files self1 |})
            else (None, {| ttl := ttl self1; memory_cache := memory_cache self1;
                           files := delete k (files self1) |})
        | Some Unreadable => (None, self1)
        | None => (None, self1)
        end).
    { unfold get_api_response. fold k.
      destruct (match memory_cache self !! k with
                | Some (data, timestamp) =>
                    if negb (_is_expired self now_mem timestamp) then (Some data, self)
                    else (None, {| ttl := ttl self;
                                   memory_cache := delete k (memory_cache self);
                                   files := files self |})
                | None => (None, self)
                end) as [hit s].
      inversion E; subst. reflexivity. }
    destruct self1 as [t1 m1 f1]. cbn in Ht, Hf, Hmc. subst t1 f1 m1.
    cbn [ttl memory_cache files] in Hget. unfold _is_expired in Hget.
    cbn [ttl] in Hget. fold (_is_expired self now_file) in Hget.
    split; [|split].
    + intros data ts Hfile Hfresh. rewrite Hget, Hfile.
      apply is_expired_false in Hfresh. unfold _is_expired in Hfresh. rewrite Hfresh. cbn.
      rewrite insert_delete_eq. reflexivity.
    + intros data ts Hfile Hold. rewrite Hget, Hfile.
      destruct (Qgtb (now_file - ts) (inject_Z (ttl self))) eqn:He.
      * reflexivity.
      * exfalso. apply Hold. apply is_expired_false. exact He.
    + intros [Hfile|Hfile]; rewrite Hget, Hfile; reflexivity.
  - intros now response written. subst written. unfold set_api_response. fold k. cbn.
    split; [reflexivity|]. split; [apply lookup_insert_eq|]. split; [apply lookup_insert_eq|].
    intros now_mem' now_file' Hfresh. unfold get_api_response. fold k. cbn.
    rewrite lookup_insert_eq.
    assert (He : _is_expired
                   {| ttl := ttl self;
                      memory_cache := <[k := (response, now)]> (memory_cache self);
                      files := <[k := Pickled response now]> (files self) |}
                   now_mem' now = false) by (apply is_expired_false; exact Hfresh).
    rewrite He. reflexivity.
Qed.

End CacheClaims.

(** The cache with the default lifetime of 3600 seconds, written at time 0
    and read two seconds later. *)
Lemma C7_two_tier_cache_witness :
  PerformanceCache.get_api_response Examples.same_key
    (PerformanceCache.set_api_response Examples.same_key (PerformanceCache.init 3600) 0 "h" "v")
    2 2 "h"
  = (Some "v"%string,
     PerformanceCache.set_api_response Examples.same_key (PerformanceCache.init 3600) 0 "h" "v").
Proof.
  destruct (C7_two_tier_cache Examples.same_key (PerformanceCache.init 3600) 0 0 "h")
    as (_ & _ & Hset).
  destruct (Hset 0%Q "v"%string) as (_ & _ & _ & Hget).
  apply Hget. vm_compute. discriminate.
Defined.

(** C7 as stated fails: an entry written with a time-to-live of one second,
    as the specification's [Set] takes it, is a miss two seconds later; the
    code has nowhere to take that lifetime, judges the entry by the cache's
    own [ttl] (3600 seconds by default) and returns it. *)
Lemma C7_counterexample :
  fst (PerformanceCache.get_api_response Examples.same_key
         (PerformanceCache.set_api_response Examples.same_key
            (PerformanceCache.init 3600) 0 "h" "v")
         2 2 "h") = Some "v"%string
  /\ fst (ResponseCacheSpec.Get
            (ResponseCacheSpec.Set_ ResponseCacheSpec.empty 0 "h" "v" 1) 2 "h") = None.
Proof.
  split; vm_compute; reflexivity.
Qed.

(** ** [generate_response] *)


Lemma get_rate_limiter_breakers (m : ProductionAPIManager.t) (service : string) (now : Q) :
  ProductionAPIManager.circuit_breakers
    (snd (ProductionAPIManager.get_rate_limiter m service now))
  = ProductionAPIManager.circuit_breakers m.
Proof.
  unfold ProductionAPIManager.get_rate_limiter.
  destruct (ProductionAPIManager.rate_limiters m !! service); reflexivity.
Qed.


Section GeminiClaims.

Import GeminiClient.

Context {W : Type}.
Variable prompt_hash_of : string -> Q -> Z -> Result string.
Variable api_key : string -> string.
Variable format_num : PyNum -> string.
Variable str : PyExc -> string.
Variable generate_content : string -> Q -> Z -> W -> Result string * W.

Local Abbreviation run_generate_response :=
  (generate_response prompt_hash_of api_key format_num str generate_content).

Local Abbreviation run_call_model := (call_model api_key str generate_content).

Local Abbreviation unavailable :=
  "Service temporarily unavailable. Using fallback response."%string.


Lemma report_error_passes (e : PyExc) (env : Env W) :
  is_Exception e = false -> report_error str e env = (Raise e, env).
Proof. intros H. unfold report_error. rewrite H. reflexivity. Qed.

Lemma report_error_env (e : PyExc) (env : Env W) : snd (report_error str e env) = env.
Proof. unfold report_error. destruct (is_Exception e); reflexivity. Qed.

Lemma store_response_fields (env : Env W) (clk : Clock) (cache_hash : option string)
    (text : string) :
  api_manager (store_response api_key env clk cache_hash text) = api_manager env
  /\ remote (store_response api_key env clk cache_hash text) = remote env
  /\ (cache_hash = None ->
      performance_cache (store_response api_key env clk cache_hash text)
      = performance_cache env).
Proof. destruct cache_hash; cbn; repeat split; intros; congruence. Qed.

(** What a denial by the limiter makes of the call. *)
Lemma generate_response_denied (env : Env W) (clk : Clock) (prompt : string)
    (temperature : Q) (max_tokens : Z) (system_prompt : option string)
    (use_cache : bool) (info : RateLimiter.Info) :
  decision_of env clk = Return (false, info) ->
  let message := rate_limit_message format_num info in
  let env1 := with_manager env (manager_after_limiter env clk) in
  run_generate_response env clk prompt temperature max_tokens system_prompt use_cache =
    if use_cache then
      match prompt_hash_of prompt temperature max_tokens with
      | Raise e => if is_ImportError e then (Return message, env1) else (Raise e, env1)
      | Return prompt_hash =>
          let lookup :=
            PerformanceCache.get_api_response api_key (performance_cache env)
              (at_lookup_mem clk) (at_lookup_file clk) prompt_hash in
          (Return match fst lookup with
                  | Some cached => if truthy_str cached then cached else message
                  | None => message
                  end,
           with_cache env1 (snd lookup))
      end
    else (Return message, env1).
Proof.
  intros Hd message env1. subst message env1.
  unfold generate_response, decision_of, manager_after_limiter,
    rate_limit_message, limiter_of in *.
  destruct (ProductionAPIManager.get_rate_limiter (api_manager env) "gemini_api"
              (at_limiter_init clk)) as [rl mgr].
  cbn [fst snd] in *.
  destruct (RateLimiter.is_allowed rl (at_is_allowed clk) 1) as [dec rl'].
  cbn [fst snd] in *. subst dec.
  destruct use_cache; [|reflexivity].
  destruct (prompt_hash_of prompt temperature max_tokens) as [h|e]; [|reflexivity].
  cbn [performance_cache with_manager].
  destruct (PerformanceCache.get_api_response api_key (performance_cache env)
              (at_lookup_mem clk) (at_lookup_file clk) h) as [o cache].
  cbn [fst snd].
  destruct o as [cached|]; [destruct (truthy_str cached)|]; reflexivity.
Qed.

(** An allowed call, up to the cache check. *)
Lemma generate_response_allowed (env : Env W) (clk : Clock) (prompt : string)
    (temperature : Q) (max_tokens : Z) (system_prompt : option string)
    (use_cache : bool) (info : RateLimiter.Info) :
  decision_of env clk = Return (true, info) ->
  let full := full_prompt_of prompt system_prompt in
  let env1 := with_manager env (manager_after_limiter env clk) in
  let cache_hash := cache_hash_of prompt_hash_of full temperature max_tokens use_cache in
  let env2 :=
    match cache_hash with
    | Some h =>
        with_cache env1
          (snd (PerformanceCache.get_api_response api_key (performance_cache env)
                  (at_lookup_mem clk) (at_lookup_file clk) h))
    | None => env1
    end in
  run_generate_response env clk prompt temperature max_tokens system_prompt use_cache =
    match cached_before_call prompt_hash_of api_key env clk full temperature max_tokens
            use_cache with
    | Raise e => report_error str e env1
    | Return (Some cached) => (Return cached, env2)
    | Return None => run_call_model env2 clk full temperature max_tokens cache_hash
    end.
Proof.
  intros Hd. cbv zeta.
  unfold generate_response, cached_call.
  unfold decision_of, manager_after_limiter, cached_before_call, cache_hash_of, limiter_of in *.
  fold (full_prompt_of prompt system_prompt).
  destruct (ProductionAPIManager.get_rate_limiter (api_manager env) "gemini_api"
              (at_limiter_init clk)) as [rl mgr].
  cbn [fst snd] in *.
  destruct (RateLimiter.is_allowed rl (at_is_allowed clk) 1) as [dec rl'].
  cbn [fst snd] in *. subst dec.
  destruct use_cache; [|reflexivity].
  destruct (prompt_hash_of (full_prompt_of prompt system_prompt) temperature max_tokens)
    as [h|e]; [|reflexivity].
  cbn [performance_cache with_manager].
  destruct (PerformanceCache.get_api_response api_key (performance_cache env)
              (at_lookup_mem clk) (at_lookup_file clk) h) as [o cache].
  cbn [fst snd].
  destruct o as [cached|]; [destruct (truthy_str cached)|]; reflexivity.
Qed.

(** The call through the breaker and what follows, by the outcome of
    [CircuitBreaker.call]. *)
Lemma call_model_steps (env : Env W) (clk : Clock) (full : string)
    (temperature : Q) (max_tokens : Z) (cache_hash : option string) :
  let called :=
    CircuitBreaker.call
      (fst (ProductionAPIManager.get_circuit_breaker (api_manager env) "gemini_api"))
      (at_breaker clk) (generate_content full temperature max_tokens)
      (remote env) (at_failure clk) in
  let env3 :=
    with_remote
      (with_manager env
         (ProductionAPIManager.put_circuit_breaker
            (snd (ProductionAPIManager.get_circuit_breaker (api_manager env) "gemini_api"))
            "gemini_api" (CircuitBreaker.after called)))
      (snd called) in
  run_call_model env clk full temperature max_tokens cache_hash =
    match fst (fst called) with
    | Return text => (Return text, store_response api_key env3 clk cache_hash text)
    | Raise (CircuitBreakerOpenError _) =>
        match cache_hash with
        | Some h =>
            let fallback :=
              PerformanceCache.get_api_response api_key (performance_cache env3)
                (at_fallback_mem clk) (at_fallback_file clk) h in
            (Return match fst fallback with
                    | Some cached => if truthy_str cached then cached else unavailable
                    | None => unavailable
                    end,
             with_cache env3 (snd fallback))
        | None => (Return unavailable, env3)
        end
    | Raise (ImportError _) =>
        let again := generate_content full temperature max_tokens (remote env3) in
        match fst again with
        | Return text =>
            (Return text,
             store_response api_key (with_remote env3 (snd again)) clk cache_hash text)
        | Raise e => report_error str e (with_remote env3 (snd again))
        end
    | Raise e => report_error str e env3
    end.
Proof.
  cbv zeta. unfold call_model.
  destruct (ProductionAPIManager.get_circuit_breaker (api_manager env) "gemini_api")
    as [br mgr].
  cbn [fst snd].
  destruct (CircuitBreaker.call br (at_breaker clk)
              (generate_content full temperature max_tokens)
              (remote env) (at_failure clk)) as [[r br'] w'].
  cbn [fst snd CircuitBreaker.after]. destruct r as [text|[]]; try reflexivity.
  - cbn [remote with_remote].
    destruct (generate_content full temperature max_tokens w') as [[text|e2] w2]; reflexivity.
  - destruct cache_hash as [h|]; [|reflexivity].
    cbn [performance_cache with_remote with_manager].
    destruct (PerformanceCache.get_api_response api_key (performance_cache env)
                (at_fallback_mem clk) (at_fallback_file clk) h) as [o cache].
    cbn [fst snd]. destruct o as [c|]; [destruct (truthy_str c)|]; reflexivity.
Qed.

(** The cache check before the call, by what it yields. *)
Lemma cached_before_call_inv (env : Env W) (clk : Clock) (text : string)
    (temperature : Q) (max_tokens : Z) (use_cache : bool) (x : option string) :
  cached_before_call prompt_hash_of api_key env clk text temperature max_tokens use_cache
    = Return x ->
  (use_cache = false /\ x = None
   /\ cache_hash_of prompt_hash_of text temperature max_tokens use_cache = None)
  \/ (use_cache = true
      /\ exists h,
           prompt_hash_of text temperature max_tokens = Return h
           /\ cache_hash_of prompt_hash_of text temperature max_tokens use_cache = Some h
           /\ x = match fst (PerformanceCache.get_api_response api_key (performance_cache env)
                               (at_lookup_mem clk) (at_lookup_file clk) h) with
                  | Some cached => if truthy_str cached then Some cached else None
                  | None => None
                  end).
Proof.
  unfold cached_before_call, cache_hash_of. destruct use_cache.
  - destruct (prompt_hash_of text temperature max_tokens) as [h|e]; [|discriminate].
    intros E. inversion E. right. split; [reflexivity|]. exists h. repeat split.
  - intros E. inversion E. left. repeat split.
Qed.


(** An allowed call that reaches the breaker and is let through, by what
    the model does. The breaker held by the manager afterwards is the one
    [call] left. *)
Lemma generate_response_model (env : Env W) (clk : Clock) (prompt : string)
    (temperature : Q) (max_tokens : Z) (system_prompt : option string)
    (use_cache : bool) (info : RateLimiter.Info) (gated : CircuitBreaker.t)
    (r : Result string) (w' : W) :
  decision_of env clk = Return (true, info) ->
  cached_before_call prompt_hash_of api_key env clk (full_prompt_of prompt system_prompt)
    temperature max_tokens use_cache = Return None ->
  CircuitBreaker.call_guard (breaker_of env clk) (at_breaker clk) = (Return tt, gated) ->
  generate_content (full_prompt_of prompt system_prompt) temperature max_tokens (remote env)
    = (r, w') ->
  let full := full_prompt_of prompt system_prompt in
  let cache_hash := cache_hash_of prompt_hash_of full temperature max_tokens use_cache in
  let out := run_generate_response env clk prompt temperature max_tokens system_prompt use_cache in
  exists env3 : Env W,
    remote env3 = w'
    /\ ProductionAPIManager.circuit_breakers (api_manager env3) !! "gemini_api"%string
       = Some match r with
              | Return _ => CircuitBreaker._on_success gated
              | Raise e =>
                  if is_Exception e then CircuitBreaker._on_failure gated (at_failure clk)
                  else gated
              end
    /\ (use_cache = false -> performance_cache env3 = performance_cache env)
    /\ (forall h, cache_hash = Some h ->
        performance_cache env3
        = snd (PerformanceCache.get_api_response api_key (performance_cache env)
                 (at_lookup_mem clk) (at_lookup_file clk) h))
    /\ out =
       match r with
       | Return text => (Return text, store_response api_key env3 clk cache_hash text)
       | Raise (CircuitBreakerOpenError _) =>
           match cache_hash with
           | Some h =>
               let fallback :=
                 PerformanceCache.get_api_response api_key (performance_cache env3)
                   (at_fallback_mem clk) (at_fallback_file clk) h in
               (Return match fst fallback with
                       | Some cached => if truthy_str cached then cached else unavailable
                       | None => unavailable
                       end,
                with_cache env3 (snd fallback))
           | None => (Return unavailable, env3)
           end
       | Raise (ImportError _) =>
           let again := generate_content full temperature max_tokens w' in
           match fst again with
           | Return text =>
               (Return text,
                store_response api_key (with_remote env3 (snd again)) clk cache_hash text)
           | Raise e => report_error str e (with_remote env3 (snd again))
           end
       | Raise e => report_error str e env3
       end.
Proof.
  intros Hd Hc Hg Hm full cache_hash out. subst out.
  rewrite (generate_response_allowed env clk prompt temperature max_tokens system_prompt
             use_cache info Hd).
  cbv zeta. rewrite Hc. fold full. fold cache_hash.
  rewrite call_model_steps. cbv zeta.
  set (env2 := match cache_hash with
               | Some h =>
                   with_cache (with_manager env (manager_after_limiter env clk))
                     (snd (PerformanceCache.get_api_response api_key (performance_cache env)
                             (at_lookup_mem clk) (at_lookup_file clk) h))
               | None => with_manager env (manager_after_limiter env clk)
               end).
  assert (Hmgr : api_manager env2 = manager_after_limiter env clk)
    by (subst env2; destruct cache_hash; reflexivity).
  assert (Hrem : remote env2 = remote env)
    by (subst env2; destruct cache_hash; reflexivity).
  rewrite Hmgr, Hrem. fold (breaker_of env clk).
  rewrite (call_admitted (breaker_of env clk) gated (at_breaker clk) _ (remote env)
             (at_failure clk) Hg).
  fold full in Hm. rewrite Hm. cbn [fst snd CircuitBreaker.after].
  eexists. split; [|split; [|split; [|split; [|reflexivity]]]].
  - reflexivity.
  - cbn. rewrite lookup_insert_eq. reflexivity.
  - intros Hoff. cbn [performance_cache with_remote with_manager].
    subst env2 cache_hash. unfold cache_hash_of. rewrite Hoff. reflexivity.
  - intros h Hh. cbn [performance_cache with_remote with_manager].
    subst env2. rewrite Hh. reflexivity.
Qed.


End GeminiClaims.

Section GeminiTheorems.

Import GeminiClient.

Context {W : Type}.
Variable prompt_hash_of : string -> Q -> Z -> Result string.
Variable api_key : string -> string.
Variable format_num : PyNum -> string.
Variable str : PyExc -> string.
Variable generate_content : string -> Q -> Z -> W -> Result string * W.

Local Abbreviation run_generate_response :=
  (generate_response prompt_hash_of api_key format_num str generate_content).



End GeminiTheorems.





(** * Further properties of the code *)

(** ** The rate limiter: windows, denials and edge cases *)

Section RateLimiterWindows.

Import RateLimiter.

Lemma py_min_in (xs : list Q) (m : Q) : py_min xs = Some m -> In m xs.
Proof.
  destruct xs as [|x rest]; [discriminate|]. cbn [py_min]. intros E.
  inversion E as [Em]. clear E Em.
  revert x. induction rest as [|y rest IH]; intros x; cbn [fold_left].
  - left. reflexivity.
  - destruct (Qgtb x y).
    + destruct (IH y) as [H|H]; [right; left; exact H|right; right; exact H].
    + destruct (IH x) as [H|H]; [left; exact H|right; right; exact H].
Qed.

Lemma filter_recent (bound : Q) (xs : list Q) :
  Forall (fun x => (bound < x)%Q) (List.filter (fun x => Qgtb x bound) xs).
Proof.
  apply List.Forall_forall. intros x Hin. apply List.filter_In in Hin.
  destruct Hin as [_ H]. apply Qgtb_lt. exact H.
Qed.

Lemma len_filter_le (f : Q -> bool) (xs : list Q) : len (List.filter f xs) <= len xs.
Proof.
  unfold len. induction xs as [|x xs IH]; cbn [List.filter]; [lia|].
  destruct (f x); cbn [List.length]; lia.
Qed.

Lemma len_app_one (xs : list Q) (x : Q) : len (xs ++ [x]) = len xs + 1.
Proof. unfold len. rewrite List.length_app. cbn. lia. Qed.

(** After every call, each timestamp a window holds lies within the
    window's trailing interval of that call's clock reading. *)
Theorem X_windows_hold_recent_timestamps (self : t) (now : Q) (cost : Z) :
  let self' := snd (is_allowed self now cost) in
  Forall (fun x => (now - 60 < x)%Q) (minute_requests self')
  /\ Forall (fun x => (now - 3600 < x)%Q) (hour_requests self').
Proof.
  cbv zeta.
  pose proof (filter_recent (now - 60) (minute_requests self)) as Hm.
  pose proof (filter_recent (now - 3600) (hour_requests self)) as Hh.
  destruct (is_allowed_cases self now cost) as [(E & _)|[(_ & _ & _ & E)|(_ & _ & _ & i & E)]];
    rewrite E; cbn [snd minute_requests hour_requests _cleanup_old_requests _refill_tokens].
  - split; assumption.
  - split; assumption.
  - split; apply List.Forall_app; (split; [assumption|]);
      constructor; try constructor; lra.
Qed.

Lemma is_allowed_window_sizes (self : t) (now : Q) (cost : Z) :
  len (minute_requests self) <= Z.max 0 (requests_per_minute (config self)) ->
  len (hour_requests self) <= Z.max 0 (requests_per_hour (config self)) ->
  let self' := snd (is_allowed self now cost) in
  config self' = config self
  /\ len (minute_requests self') <= Z.max 0 (requests_per_minute (config self))
  /\ len (hour_requests self') <= Z.max 0 (requests_per_hour (config self)).
Proof.
  intros Hm Hh. cbv zeta.
  pose proof (len_filter_le (fun x => Qgtb x (now - 60)%Q) (minute_requests self)) as Fm.
  pose proof (len_filter_le (fun x => Qgtb x (now - 3600)%Q) (hour_requests self)) as Fh.
  destruct (is_allowed_cases self now cost)
    as [(E & _)|[(_ & _ & _ & E)|(Lm & Lh & _ & i & E)]];
    rewrite E; cbn [snd config minute_requests hour_requests
                    _cleanup_old_requests _refill_tokens] in *.
  - repeat split; lia.
  - repeat split; lia.
  - rewrite !len_app_one. repeat split; lia.
Qed.

(** From a new limiter, after every call of any sequence, the minute window
    holds at most [requests_per_minute] timestamps and the hour window at
    most [requests_per_hour] (none when the limit is negative). *)
Theorem X_windows_never_exceed_limits (cfg : RateLimitConfig) (t0 : Q) (calls : list (Q * Z)) :
  Forall (fun self =>
            len (minute_requests self) <= Z.max 0 (requests_per_minute cfg)
            /\ len (hour_requests self) <= Z.max 0 (requests_per_hour cfg))
    (trace (init cfg t0) calls).
Proof.
  assert (H : forall (calls : list (Q * Z)) (self : t),
    config self = cfg ->
    len (minute_requests self) <= Z.max 0 (requests_per_minute cfg) ->
    len (hour_requests self) <= Z.max 0 (requests_per_hour cfg) ->
    Forall (fun self =>
              len (minute_requests self) <= Z.max 0 (requests_per_minute cfg)
              /\ len (hour_requests self) <= Z.max 0 (requests_per_hour cfg))
      (trace self calls)).
  { clear calls. induction calls as [|[now cost] rest IH]; intros self Hc Hm Hh.
    - constructor.
    - cbn [trace]. rewrite <- Hc in Hm, Hh.
      destruct (is_allowed_window_sizes self now cost Hm Hh) as (Hc' & Hm' & Hh').
      rewrite Hc in Hm', Hh'.
      constructor; [split; assumption|].
      apply IH; [congruence|assumption|assumption]. }
  apply H; [reflexivity| |]; unfold len; cbn; lia.
Qed.

(** What a denial tells the caller: a denial by the minute window reports a
    positive [retry_after], at most 60 when no timestamp of the window is
    ahead of the clock; likewise for the hour window with 3600; a denial for
    lack of tokens reports [cooldown_seconds] and the tokens the bucket
    holds. *)
Theorem X_denial_retry_after (self : t) (now : Q) (cost : Z) (info : Info) :
  fst (is_allowed self now cost) = Return (false, info) ->
  match info with
  | minute_limit_exceeded r =>
      (0 < r)%Q
      /\ (Forall (fun x => (x <= now)%Q) (minute_requests self) -> (r <= 60)%Q)
  | hour_limit_exceeded r =>
      (0 < r)%Q
      /\ (Forall (fun x => (x <= now)%Q) (hour_requests self) -> (r <= 3600)%Q)
  | burst_limit_exceeded r available =>
      r = cooldown_seconds (config self)
      /\ available = tokens (snd (is_allowed self now cost))
  | allowed_info _ _ _ => False
  end.
Proof.
  unfold is_allowed.
  set (pruned := _cleanup_old_requests self now).
  destruct (len (minute_requests pruned) >=? requests_per_minute (config pruned)).
  { destruct (py_min (minute_requests pruned)) as [m|] eqn:Em; cbn [fst]; [|discriminate].
    intros E. inversion E; subst info. apply py_min_in in Em.
    cbn [pruned minute_requests _cleanup_old_requests] in Em.
    apply List.filter_In in Em. destruct Em as [Hin Hgt]. apply Qgtb_lt in Hgt.
    split; [lra|]. intros Hall.
    assert (m <= now)%Q by (eapply (proj1 (List.Forall_forall _ _) Hall); exact Hin).
    lra. }
  destruct (len (hour_requests pruned) >=? requests_per_hour (config pruned)).
  { destruct (py_min (hour_requests pruned)) as [m|] eqn:Em; cbn [fst]; [|discriminate].
    intros E. inversion E; subst info. apply py_min_in in Em.
    cbn [pruned hour_requests _cleanup_old_requests] in Em.
    apply List.filter_In in Em. destruct Em as [Hin Hgt]. apply Qgtb_lt in Hgt.
    split; [lra|]. intros Hall.
    assert (m <= now)%Q by (eapply (proj1 (List.Forall_forall _ _) Hall); exact Hin).
    lra. }
  destruct (tokens (_refill_tokens pruned now) <? cost); cbn [fst snd].
  - intros E. inversion E; subst info. split; reflexivity.
  - discriminate.
Qed.

End RateLimiterWindows.

Lemma X_denial_retry_after_witness :
  let cfg := {| RateLimiter.requests_per_minute := 2; RateLimiter.requests_per_hour := 10;
                RateLimiter.burst_allowance := 5; RateLimiter.cooldown_seconds := 1 |} in
  let self := RateLimiter.after_calls (RateLimiter.init cfg 0) [(0%Q, 1); (0%Q, 1)] in
  fst (RateLimiter.is_allowed self 30 1)
    = Return (false, RateLimiter.minute_limit_exceeded (60 - (30 - 0))%Q)
  /\ (0 < 60 - (30 - 0))%Q.
Proof.
  cbv zeta.
  assert (E : fst (RateLimiter.is_allowed
                     (RateLimiter.after_calls
                        (RateLimiter.init
                           {| RateLimiter.requests_per_minute := 2;
                              RateLimiter.requests_per_hour := 10;
                              RateLimiter.burst_allowance := 5;
                              RateLimiter.cooldown_seconds := 1 |} 0)
                        [(0%Q, 1); (0%Q, 1)]) 30 1)
              = Return (false, RateLimiter.minute_limit_exceeded (60 - (30 - 0))%Q))
    by reflexivity.
  split; [exact E|].
  exact (proj1 (X_denial_retry_after _ _ _ _ E)).
Defined.

Section RateLimiterEdges.

Import RateLimiter.

Lemma py_int_zero (x : Q) : (0 <= x)%Q -> (x < 1)%Q -> py_int x = 0.
Proof.
  intros H0 H1. destruct (py_int_floor x H0) as [Hlo Hhi].
  pose proof (py_int_nonneg x H0) as Hnn.
  assert (Hlt : (inject_Z (py_int x) < 1)%Q) by (eapply Qle_lt_trans; eassumption).
  unfold Qlt in Hlt. simpl in Hlt. lia.
Qed.

(** With a per-minute or per-hour limit that is not positive, a new limiter
    never returns a decision: every call raises [ValueError] (the [min] of
    an empty window) and leaves the limiter as it was constructed. *)
Theorem X_nonpositive_limit_raises (cfg : RateLimitConfig) (t0 : Q) (calls : list (Q * Z)) :
  requests_per_minute cfg <= 0 \/ requests_per_hour cfg <= 0 ->
  Forall (fun r => r = Raise (ValueError "min() arg is an empty sequence"))
    (results (init cfg t0) calls)
  /\ after_calls (init cfg t0) calls = init cfg t0.
Proof.
  intros Hlim.
  assert (Hstep : forall now cost,
    is_allowed (init cfg t0) now cost
    = (Raise (ValueError "min() arg is an empty sequence"), init cfg t0)).
  { intros now cost. unfold is_allowed, _cleanup_old_requests, init, len. cbn.
    change (Z.of_nat 0) with 0.
    destruct (Z.geb_spec 0 (requests_per_minute cfg)); [reflexivity|].
    destruct (Z.geb_spec 0 (requests_per_hour cfg)); [reflexivity|]. lia. }
  induction calls as [|[now cost] rest [IH1 IH2]].
  - split; [constructor|reflexivity].
  - cbn [results after_calls fold_left fst snd]. rewrite Hstep. cbn [fst snd].
    split; [constructor; [reflexivity|exact IH1]|exact IH2].
Qed.

Lemma X_nonpositive_limit_raises_witness :
  Forall (fun r => r = Raise (ValueError "min() arg is an empty sequence"))
    (results (init {| requests_per_minute := 0; requests_per_hour := 100;
                      burst_allowance := 5; cooldown_seconds := 1 |} 0)
       [(1%Q, 1); (100%Q, 1)]).
Proof.
  apply (X_nonpositive_limit_raises
           {| requests_per_minute := 0; requests_per_hour := 100;
              burst_allowance := 5; cooldown_seconds := 1 |} 0 [(1%Q, 1); (100%Q, 1)]).
  left. cbn. lia.
Defined.

End RateLimiterEdges.

Section RateLimiterBurst.

Import RateLimiter.

Local Abbreviation served cfg t0 k :=
  {| config := cfg;
     tokens := burst_allowance cfg - Z.of_nat k;
     last_refill := t0;
     minute_requests := repeat t0%Q k;
     hour_requests := repeat t0%Q k |}.

Lemma filter_repeat_kept (f : Q -> bool) (x : Q) (k : nat) :
  f x = true -> List.filter f (repeat x k) = repeat x k.
Proof.
  intros H. induction k as [|k IH]; [reflexivity|].
  cbn [repeat List.filter]. rewrite H, IH. reflexivity.
Qed.

Lemma no_time_no_credit (t0 : Q) (rpm : Z) :
  py_int ((t0 - t0) * inject_Z rpm / 60)%Q = 0.
Proof.
  assert (E : ((t0 - t0) * inject_Z rpm / 60 == 0)%Q) by field.
  apply py_int_zero; rewrite E; [apply Qle_refl|reflexivity].
Qed.

Lemma served_pruned (cfg : RateLimitConfig) (t0 : Q) (k : nat) :
  _cleanup_old_requests (served cfg t0 k) t0 = served cfg t0 k.
Proof.
  unfold _cleanup_old_requests. cbn.
  rewrite !filter_repeat_kept by (apply Qgtb_lt; lra). reflexivity.
Qed.

Lemma served_refilled (cfg : RateLimitConfig) (t0 : Q) (k : nat) :
  _refill_tokens (served cfg t0 k) t0 = served cfg t0 k.
Proof.
  unfold _refill_tokens. cbn. rewrite no_time_no_credit.
  replace (Z.min (burst_allowance cfg) (burst_allowance cfg - Z.of_nat k + 0))
    with (burst_allowance cfg - Z.of_nat k) by lia.
  reflexivity.
Qed.

Lemma len_repeat (x : Q) (k : nat) : len (repeat x k) = Z.of_nat k.
Proof. unfold len. rewrite repeat_length. reflexivity. Qed.

Lemma served_next (cfg : RateLimitConfig) (t0 : Q) (k : nat) :
  Z.of_nat k < burst_allowance cfg ->
  Z.of_nat k < requests_per_minute cfg ->
  Z.of_nat k < requests_per_hour cfg ->
  exists i, is_allowed (served cfg t0 k) t0 1 = (Return (true, i), served cfg t0 (S k)).
Proof.
  intros Hb Hm Hh.
  destruct (is_allowed_cases (served cfg t0 k) t0 1)
    as [(_ & Hor & _)|[(_ & _ & Hlt & _)|(_ & _ & _ & i & E)]].
  - rewrite served_pruned in Hor. cbn in Hor. rewrite !len_repeat in Hor. lia.
  - rewrite served_pruned, served_refilled in Hlt. cbn in Hlt. lia.
  - exists i. rewrite E. rewrite served_pruned, served_refilled. cbn.
    rewrite <- !repeat_cons.
    replace (burst_allowance cfg - Z.of_nat k - 1)
      with (burst_allowance cfg - Z.pos (Pos.of_succ_nat k)) by lia.
    reflexivity.
Qed.

Lemma served_full (cfg : RateLimitConfig) (t0 : Q) (k : nat) :
  Z.of_nat k = burst_allowance cfg
  \/ Z.of_nat k = requests_per_minute cfg
  \/ Z.of_nat k = requests_per_hour cfg ->
  allowed (fst (is_allowed (served cfg t0 k) t0 1)) = false.
Proof.
  intros Hfull.
  destruct (is_allowed_cases (served cfg t0 k) t0 1)
    as [(_ & _ & Hna & _)|[(_ & _ & _ & E)|(Hm & Hh & Hge & _)]].
  - destruct (fst (is_allowed (served cfg t0 k) t0 1)) as [[[|] i]|e]; try reflexivity.
    exfalso. exact (Hna i eq_refl).
  - rewrite E. reflexivity.
  - rewrite served_pruned in Hm, Hh, Hge. rewrite served_refilled in Hge.
    cbn in Hm, Hh, Hge. rewrite !len_repeat in *. lia.
Qed.

(** A burst at the instant of construction: of unit-cost calls made at the
    clock reading at which the limiter was created, the first [n] are all
    allowed as long as [n] exceeds none of [burst_allowance],
    [requests_per_minute] and [requests_per_hour], each taking one token and
    one slot in both windows; once [n] has reached one of the three, the
    next call is not allowed. *)
Theorem X_burst_at_one_instant (cfg : RateLimitConfig) (t0 : Q) (n : nat) :
  Z.of_nat n <= burst_allowance cfg ->
  Z.of_nat n <= requests_per_minute cfg ->
  Z.of_nat n <= requests_per_hour cfg ->
  Forall (fun r => allowed r = true) (results (init cfg t0) (repeat (t0, 1) n))
  /\ after_calls (init cfg t0) (repeat (t0, 1) n) = served cfg t0 n
  /\ (Z.of_nat n = burst_allowance cfg
      \/ Z.of_nat n = requests_per_minute cfg
      \/ Z.of_nat n = requests_per_hour cfg ->
      allowed (fst (is_allowed (after_calls (init cfg t0) (repeat (t0, 1) n)) t0 1)) = false).
Proof.
  intros Hb Hm Hh.
  assert (Hgen : forall (m k : nat),
    Z.of_nat (k + m) <= burst_allowance cfg ->
    Z.of_nat (k + m) <= requests_per_minute cfg ->
    Z.of_nat (k + m) <= requests_per_hour cfg ->
    Forall (fun r => allowed r = true) (results (served cfg t0 k) (repeat (t0, 1) m))
    /\ after_calls (served cfg t0 k) (repeat (t0, 1) m) = served cfg t0 (k + m)).
  { induction m as [|m IH]; intros k Kb Km Kh.
    - cbn. rewrite Nat.add_0_r. split; [constructor|reflexivity].
    - destruct (served_next cfg t0 k) as [i E]; try lia.
      cbn [repeat results after_calls fold_left fst snd]. rewrite E. cbn [fst snd].
      destruct (IH (S k)) as [IH1 IH2]; try lia.
      replace (k + S m)%nat with (S k + m)%nat by lia.
      split; [constructor; [reflexivity|exact IH1]|exact IH2]. }
  assert (Hinit : init cfg t0 = served cfg t0 0).
  { unfold init. cbn. f_equal. lia. }
  destruct (Hgen n 0%nat) as [H1 H2]; try (cbn; lia).
  rewrite Hinit. cbn [Nat.add] in H2.
  split; [exact H1|]. split; [exact H2|].
  intros Hfull. rewrite H2. apply served_full. exact Hfull.
Qed.

(** The [gemini_api] policy: five calls at once, the sixth is denied. *)
Lemma X_burst_at_one_instant_witness :
  Forall (fun r => allowed r = true)
    (results (init Examples.gemini_rate 0) (repeat (0%Q, 1) 5))
  /\ allowed (fst (is_allowed (after_calls (init Examples.gemini_rate 0) (repeat (0%Q, 1) 5))
                     0 1)) = false.
Proof.
  destruct (X_burst_at_one_instant Examples.gemini_rate 0 5) as (H1 & _ & H3).
  - vm_compute. discriminate.
  - vm_compute. discriminate.
  - vm_compute. discriminate.
  - split; [exact H1|]. apply H3. left. reflexivity.
Defined.

End RateLimiterBurst.

(** ** The circuit breaker: retry hint, invariants and cycles *)

Section CircuitBreakerExtras.

Import CircuitBreaker.

(** The retry hint agrees with the gate: [_seconds_until_retry] is never
    negative, and it is zero exactly when [_should_attempt_reset] lets an
    OPEN breaker try a call. *)
Theorem X_seconds_until_retry_agrees (self : t) (now : Q) :
  (0 <= _seconds_until_retry self now)%Q
  /\ ((_seconds_until_retry self now == 0)%Q <-> _should_attempt_reset self now = true).
Proof.
  unfold _seconds_until_retry, _should_attempt_reset.
  destruct (negb (truthy_time (last_failure_time self))).
  - split; [apply Qle_refl|]. split; reflexivity.
  - destruct (last_failure_time self) as [last|].
    + cbv zeta.
      destruct (Qgtb (inject_Z (recovery_timeout (config self)) - (now - last)) 0) eqn:G.
      * apply Qgtb_lt in G. split; [lra|]. split.
        -- intros E. exfalso. lra.
        -- intros E. apply Qgeb_le in E. exfalso. lra.
      * split; [apply Qle_refl|]. split; [|reflexivity].
        intros _. apply Qgeb_le.
        destruct (Qlt_le_dec (now - last) (inject_Z (recovery_timeout (config self))))
          as [Hlt|Hle]; [|exact Hle].
        exfalso. assert (Qgtb (inject_Z (recovery_timeout (config self)) - (now - last)) 0 = true)
          by (apply Qgtb_lt; lra). congruence.
    + split; [apply Qle_refl|]. split; reflexivity.
Qed.

Ltac break_step :=
  match goal with
  | |- context [?a >=? ?b] => destruct (Z.geb_spec a b)
  | |- context [if ?c then _ else _] => destruct c eqn:?
  | |- context [match ev_outcome ?ev with _ => _ end] => destruct (ev_outcome ev) as [[]|?]
  end; cbn.

Lemma bounded_init (nm : string) (cfg : CircuitBreakerConfig) : bounded (init nm cfg).
Proof. unfold bounded, init. cbn. repeat split; intros; lia. Qed.

Lemma bounded_step (self : t) (ev : Event) : bounded self -> bounded (apply_event self ev).
Proof.
  unfold bounded, apply_event, call, after, call_guard, _on_success, _on_failure,
    _reset_circuit.
  destruct self as [nm cfg st fc sc lft hoc]. cbn. intros (B1 & B2 & B3 & B4).
  destruct st; cbn; repeat break_step;
    repeat split; intros; try congruence; try lia;
    try (specialize (B2 eq_refl); lia).
Qed.

Lemma bounded_run (evs : list Event) : forall self : t, bounded self -> bounded (run self evs).
Proof.
  induction evs as [|ev evs IH]; intros self Hb; [exact Hb|].
  rewrite run_cons. apply IH. apply bounded_step. exact Hb.
Qed.

(** What every breaker produced by a sequence of calls satisfies:
    [half_open_calls] lies between 0 and [half_open_max_calls] (0 when that
    is negative); the counters are not negative; an OPEN breaker has a
    [last_failure_time]; outside CLOSED the failure count has reached the
    threshold, and in CLOSED it is below it (or zero); [success_count] is
    below [success_threshold] (or zero). *)
Theorem X_breaker_invariants (nm : string) (cfg : CircuitBreakerConfig) (self : t) :
  reachable nm cfg self ->
  0 <= half_open_calls self <= Z.max 0 (half_open_max_calls cfg)
  /\ 0 <= failure_count self
  /\ 0 <= success_count self
  /\ (success_count self = 0 \/ success_count self < success_threshold cfg)
  /\ (state self = OPEN -> last_failure_time self <> None)
  /\ (state self <> CLOSED -> failure_threshold cfg <= failure_count self)
  /\ (state self = CLOSED -> failure_count self = 0 \/ failure_count self < failure_threshold cfg).
Proof.
  intros Hr.
  destruct (reachable_invariant nm cfg self Hr) as ((I1 & I2 & I3 & _ & I5) & Hc & _).
  destruct Hr as [evs ->].
  destruct (bounded_run evs (init nm cfg) (bounded_init nm cfg)) as (B1 & B2 & B3 & B4).
  rewrite Hc in *. repeat split; assumption.
Qed.

Lemma X_breaker_invariants_witness :
  0 <= half_open_calls Examples.probing <= 2
  /\ 3 <= failure_count Examples.probing.
Proof.
  destruct (X_breaker_invariants "other_service" Examples.manager_circuit Examples.probing)
    as (H1 & _ & _ & _ & _ & H6 & _).
  - eexists. reflexivity.
  - split; [exact H1|]. apply H6. vm_compute. discriminate.
Defined.

(** A call the breaker refuses does nothing else: when the guard raises,
    [call] raises that [CircuitBreakerOpenError] without running the action,
    and the failure count, the success count and [last_failure_time] are
    what they were; the state is unchanged too, unless the breaker was OPEN
    and due for a reset, in which case it is left HALF_OPEN with no call
    counted. *)
Theorem X_refused_call_frame {W R : Type} (self left : t) (now t_fail : Q) (e : PyExc)
    (func : W -> Result R * W) (w : W) :
  call_guard self now = (Raise e, left) ->
  call self now func w t_fail = (Raise e, left, w)
  /\ (exists why, e = CircuitBreakerOpenError why)
  /\ failure_count left = failure_count self
  /\ success_count left = success_count self
  /\ last_failure_time left = last_failure_time self
  /\ (left = self
      \/ (state self = OPEN /\ _should_attempt_reset self now = true
          /\ half_open_max_calls (config self) <= 0
          /\ left = half_opened self 0)).
Proof.
  intros Hg. split; [exact (call_rejected self left now e func w t_fail Hg)|].
  destruct (state self) eqn:Hst.
  - rewrite (call_guard_closed self now Hst) in Hg. discriminate.
  - destruct (_should_attempt_reset self now) eqn:Hr.
    + rewrite (call_guard_open_reset self now Hst Hr) in Hg.
      destruct (Z.geb_spec 0 (half_open_max_calls (config self))); [|discriminate].
      inversion Hg; subst. split; [eexists; reflexivity|].
      repeat split. right. repeat split; [lia].
    + rewrite (call_guard_open_wait self now Hst Hr) in Hg. inversion Hg; subst.
      split; [eexists; reflexivity|]. repeat split. left. reflexivity.
  - rewrite (call_guard_half_open self now Hst) in Hg.
    destruct (half_open_calls self >=? half_open_max_calls (config self)); [|discriminate].
    inversion Hg; subst. split; [eexists; reflexivity|]. repeat split. left. reflexivity.
Qed.

Lemma X_refused_call_frame_witness :
  call Examples.stuck 500 (fun n : nat => (@Return string "text"%string, S n)) 0%nat 500
  = (Raise (CircuitBreakerOpenError TooManyHalfOpenCalls), Examples.stuck, 0%nat).
Proof.
  apply (X_refused_call_frame Examples.stuck Examples.stuck 500 500).
  vm_compute. reflexivity.
Defined.

End CircuitBreakerExtras.

Section CircuitBreakerCycles.

Import CircuitBreaker.

Lemma apply_err_at_closed (self : t) (x : Q) :
  state self = CLOSED -> apply_event self (err_at x) = _on_failure self x.
Proof.
  intros Hst.
  exact (apply_event_failure self self (err_at x) _ (call_guard_closed self _ Hst)
           eq_refl eq_refl).
Qed.

(** Failures below the threshold, as a record. *)
Lemma run_failures_closed (ts : list Q) : forall self : t,
  state self = CLOSED ->
  failure_count self + Z.of_nat (length ts) < failure_threshold (config self) ->
  run self (map err_at ts) =
    {| name := name self; config := config self; state := CLOSED;
       failure_count := failure_count self + Z.of_nat (length ts);
       success_count := success_count self;
       last_failure_time := fold_left (fun _ x => Some x) ts (last_failure_time self);
       half_open_calls := half_open_calls self |}.
Proof.
  induction ts as [|x ts IH]; intros self Hst Hlt.
  - cbn. destruct self; cbn in *. subst. f_equal. lia.
  - cbn [map length] in *. rewrite run_cons, (apply_err_at_closed self x Hst).
    assert (E : _on_failure self x =
              {| name := name self; config := config self; state := CLOSED;
                 failure_count := failure_count self + 1;
                 success_count := success_count self;
                 last_failure_time := Some x;
                 half_open_calls := half_open_calls self |}).
    { unfold _on_failure. cbn.
      destruct (Z.geb_spec (failure_count self + 1) (failure_threshold (config self)));
        [lia|]. rewrite Hst. reflexivity. }
    rewrite E. rewrite IH; [|reflexivity|cbn; lia]. cbn. f_equal. lia.
Qed.

(** Successful calls in HALF_OPEN up to the one that closes the circuit. *)
Lemma run_probes_close (rest : list Q) : forall (p : Q) (self : t),
  state self = HALF_OPEN ->
  success_count self + Z.of_nat (length (p :: rest)) = success_threshold (config self) ->
  half_open_calls self + Z.of_nat (length (p :: rest)) <= half_open_max_calls (config self) ->
  run self (map ok_at (p :: rest)) =
    {| name := name self; config := config self; state := CLOSED;
       failure_count := 0; success_count := 0;
       last_failure_time := last_failure_time self; half_open_calls := 0 |}.
Proof.
  induction rest as [|p' rest IH]; intros p self Hst Hsc Hhoc;
    cbn [length map] in *; rewrite run_cons;
    assert (Hg : call_guard self (ev_now (ok_at p)) =
                 (Return tt, half_opened self (half_open_calls self + 1)))
      by (rewrite (call_guard_half_open self _ Hst);
          destruct (Z.geb_spec (half_open_calls self) (half_open_max_calls (config self)));
          [lia|reflexivity]);
    rewrite (apply_event_success self _ (ok_at p) Hg eq_refl);
    destruct (on_success_half_open (half_opened self (half_open_calls self + 1)) eq_refl)
      as [Hclose Hstay].
  - rewrite Hclose by (cbn; lia). reflexivity.
  - rewrite Hstay by (cbn; lia). rewrite IH; cbn; try reflexivity; lia.
Qed.

(** The whole cycle of a new breaker, for a policy with
    [1 <= success_threshold <= half_open_max_calls]: [failure_threshold]
    consecutive failures leave it OPEN with the time of the last one
    recorded; [success_threshold] consecutive successful calls, the first
    made [recovery_timeout] seconds or more after that failure, leave it
    CLOSED with all three counters at zero. *)
Theorem X_open_and_recover (nm : string) (cfg : CircuitBreakerConfig)
    (fails : list Q) (tlast p0 : Q) (probes : list Q) :
  Z.of_nat (length fails) + 1 = failure_threshold cfg ->
  Z.of_nat (length probes) + 1 = success_threshold cfg ->
  success_threshold cfg <= half_open_max_calls cfg ->
  (inject_Z (recovery_timeout cfg) <= p0 - tlast)%Q ->
  let opened := run (init nm cfg) (map err_at (fails ++ [tlast])) in
  opened =
    {| name := nm; config := cfg; state := OPEN;
       failure_count := failure_threshold cfg; success_count := 0;
       last_failure_time := Some tlast; half_open_calls := 0 |}
  /\ run opened (map ok_at (p0 :: probes)) =
       {| name := nm; config := cfg; state := CLOSED;
          failure_count := 0; success_count := 0;
          last_failure_time := Some tlast; half_open_calls := 0 |}.
Proof.
  intros Hf Hp Hmax Hwait opened.
  assert (Hopened : opened =
    {| name := nm; config := cfg; state := OPEN;
       failure_count := failure_threshold cfg; success_count := 0;
       last_failure_time := Some tlast; half_open_calls := 0 |}).
  { subst opened. rewrite map_app, run_app.
    rewrite (run_failures_closed fails (init nm cfg) eq_refl) by (cbn; lia).
    cbn [map run fold_left init name config failure_count success_count half_open_calls].
    rewrite apply_err_at_closed by reflexivity.
    unfold _on_failure. cbn.
    destruct (Z.geb_spec (0 + Z.of_nat (length fails) + 1) (failure_threshold cfg)); [|lia].
    f_equal. lia. }
  split; [exact Hopened|]. rewrite Hopened. clear opened Hopened.
  set (opened := {| name := nm; config := cfg; state := OPEN;
                    failure_count := failure_threshold cfg; success_count := 0;
                    last_failure_time := Some tlast; half_open_calls := 0 |}).
  cbn [map]. rewrite run_cons.
  assert (Hg : call_guard opened p0 = (Return tt, half_opened opened 1)).
  { rewrite (call_guard_open_reset opened _ eq_refl
               (should_attempt_reset_elapsed opened p0 tlast eq_refl Hwait)).
    cbn. destruct (Z.geb_spec 0 (half_open_max_calls cfg)); [lia|reflexivity]. }
  rewrite (apply_event_success opened _ (ok_at p0) Hg eq_refl).
  destruct (on_success_half_open (half_opened opened 1) eq_refl) as [Hclose Hstay].
  destruct probes as [|p probes].
  - rewrite Hclose by (cbn in *; lia). reflexivity.
  - rewrite Hstay by (cbn [length] in *; cbn; lia).
    rewrite run_probes_close; cbn [length] in *; cbn; try reflexivity; lia.
Qed.

(** The [gemini_api] breaker: two failures open it; one successful call 120
    seconds after the second closes it. *)
Lemma X_open_and_recover_witness :
  let cfg := ProductionAPIManager._get_circuit_config ProductionAPIManager.init "gemini_api" in
  state (run (init "gemini_api" cfg) (map err_at [1%Q; 2%Q])) = OPEN
  /\ state (run (run (init "gemini_api" cfg) (map err_at [1%Q; 2%Q])) (map ok_at [122%Q]))
     = CLOSED.
Proof.
  cbv zeta.
  destruct (X_open_and_recover "gemini_api"
              (ProductionAPIManager._get_circuit_config ProductionAPIManager.init "gemini_api")
              [1%Q] 2 122 []) as [H1 H2].
  - vm_compute. reflexivity.
  - vm_compute. reflexivity.
  - vm_compute. discriminate.
  - vm_compute. discriminate.
  - cbn [app] in H1, H2. split; [rewrite H1|rewrite H2]; reflexivity.
Defined.

(** Only consecutive failures count: in CLOSED, a successful call followed
    by fewer failures than the threshold leaves the breaker CLOSED, however
    many failures came before the success, and the failure count is the
    number of failures since. *)
Theorem X_success_forgives_failures (self : t) (ok : Event) (fails : list Event) :
  state self = CLOSED ->
  ev_outcome ok = Return tt ->
  Forall failing fails ->
  Z.of_nat (length fails) < failure_threshold (config self) ->
  state (run self (ok :: fails)) = CLOSED
  /\ failure_count (run self (ok :: fails)) = Z.of_nat (length fails).
Proof.
  intros Hst Hok Hf Hlen. rewrite run_cons.
  rewrite (apply_event_success self self ok (call_guard_closed self _ Hst) Hok).
  assert (E : _on_success self =
            {| name := name self; config := config self; state := CLOSED;
               failure_count := 0; success_count := success_count self;
               last_failure_time := last_failure_time self;
               half_open_calls := half_open_calls self |}).
  { unfold _on_success. rewrite Hst. reflexivity. }
  rewrite E.
  destruct (closed_failures fails
              {| name := name self; config := config self; state := CLOSED;
                 failure_count := 0; success_count := success_count self;
                 last_failure_time := last_failure_time self;
                 half_open_calls := half_open_calls self |} eq_refl Hf)
    as (H1 & H2 & _); [cbn; lia|].
  split; [exact H1|]. rewrite H2. cbn. lia.
Qed.

Lemma X_success_forgives_failures_witness :
  let self := run (init "other_service" Examples.manager_circuit) [err_at 1; err_at 2] in
  state (run self [ok_at 3; err_at 4; err_at 5]) = CLOSED.
Proof.
  apply (X_success_forgives_failures
           (run (init "other_service" Examples.manager_circuit) [err_at 1; err_at 2])
           (ok_at 3) [err_at 4; err_at 5]).
  - vm_compute. reflexivity.
  - reflexivity.
  - repeat (constructor; [eexists; split; reflexivity|]). constructor.
  - vm_compute. reflexivity.
Defined.

(** Successes outlive a reopening: when a call that the breaker runs in
    HALF_OPEN fails (a call that arrived at a HALF_OPEN breaker below its
    limit, or the call that moved an OPEN breaker to HALF_OPEN), the breaker
    reopens with its [success_count] as it was; so if that count was one
    short of [success_threshold], a single successful call made
    [recovery_timeout] seconds or more after the failure closes the
    circuit. *)
Theorem X_successes_survive_reopening (nm : string) (cfg : CircuitBreakerConfig)
    (self gated : t) (failure probe : Event) :
  reachable nm cfg self ->
  call_guard self (ev_now failure) = (Return tt, gated) ->
  state gated = HALF_OPEN ->
  failing failure ->
  let reopened := apply_event self failure in
  state reopened = OPEN
  /\ success_count reopened = success_count self
  /\ (ev_outcome probe = Return tt ->
      (inject_Z (recovery_timeout (config self)) <= ev_now probe - ev_t_fail failure)%Q ->
      success_threshold (config self) <= success_count self + 1 ->
      state (apply_event reopened probe) = CLOSED).
Proof.
  intros Hr Hg Hgs (e & He & Hx) reopened.
  destruct (reachable_invariant nm cfg self Hr) as ((_ & Hhoc & Hfc & _) & _ & _).
  assert (Hshape : exists calls, gated = half_opened self calls
                                 /\ 0 < half_open_max_calls (config self)
                                 /\ state self <> CLOSED).
  { destruct (call_guard_admits_half_open self gated _ Hg Hgs)
      as [(Hs & Hroom & ->)|(Hs & _ & Hmax & ->)].
    - eexists. repeat split; [lia|congruence].
    - eexists. repeat split; [lia|congruence]. }
  destruct Hshape as (calls & -> & Hmax & Hnc).
  assert (Hre : reopened = _on_failure (half_opened self calls) (ev_t_fail failure))
    by exact (apply_event_failure self _ failure e Hg He Hx).
  destruct (on_failure_fields (half_opened self calls) (ev_t_fail failure))
    as (Hc & _ & _ & Hs & _ & Hl & Hop & _).
  rewrite <- Hre in Hc, Hs, Hl, Hop. cbn in Hc, Hs, Hop.
  assert (Hopen : state reopened = OPEN).
  { apply Hop. assert (failure_threshold (config self) <= failure_count self)
      by (apply Hfc; exact Hnc). lia. }
  split; [exact Hopen|]. split; [exact Hs|].
  intros Hok Hwait Hsc.
  assert (Hreset : _should_attempt_reset reopened (ev_now probe) = true).
  { apply (should_attempt_reset_elapsed reopened _ (ev_t_fail failure) Hl).
    rewrite Hc. exact Hwait. }
  assert (Hg2 : call_guard reopened (ev_now probe) = (Return tt, half_opened reopened 1)).
  { rewrite (call_guard_open_reset reopened _ Hopen Hreset). rewrite Hc.
    destruct (Z.geb_spec 0 (half_open_max_calls (config self))); [lia|reflexivity]. }
  rewrite (apply_event_success reopened _ probe Hg2 Hok).
  destruct (on_success_half_open (half_opened reopened 1) eq_refl) as [Hclose _].
  rewrite Hclose by (cbn; rewrite Hc, Hs; exact Hsc). reflexivity.
Qed.

(** The [gemini_api] breaker that opened at time 2: the probe made at time
    130 fails, and the successful call made 120 seconds later closes the
    circuit. *)
Lemma X_successes_survive_reopening_witness :
  state (apply_event Examples.gemini_opened (err_at 130)) = OPEN
  /\ state (apply_event (apply_event Examples.gemini_opened (err_at 130)) (ok_at 250)) = CLOSED.
Proof.
  destruct (X_successes_survive_reopening "gemini_api" Examples.gemini_circuit
              Examples.gemini_opened (half_opened Examples.gemini_opened 1)
              (err_at 130) (ok_at 250)) as (H1 & _ & H).
  - eexists. reflexivity.
  - vm_compute. reflexivity.
  - reflexivity.
  - eexists. split; reflexivity.
  - split; [exact H1|]. apply H.
    + reflexivity.
    + vm_compute. discriminate.
    + vm_compute. discriminate.
Defined.

End CircuitBreakerCycles.

(** ** The manager: one object per service *)

Section ManagerExtras.

Import ProductionAPIManager.

Lemma get_rate_limiter_others (self : t) (service : string) (now : Q) :
  (forall other, other <> service ->
     rate_limiters (snd (get_rate_limiter self service now)) !! other
     = rate_limiters self !! other)
  /\ circuit_breakers (snd (get_rate_limiter self service now)) = circuit_breakers self.
Proof.
  unfold get_rate_limiter.
  destruct (rate_limiters self !! service); cbn [snd rate_limiters circuit_breakers].
  - split; reflexivity.
  - split; [|reflexivity]. intros other Hne. apply lookup_insert_ne. congruence.
Qed.

Lemma get_circuit_breaker_others (self : t) (service : string) :
  (forall other, other <> service ->
     circuit_breakers (snd (get_circuit_breaker self service)) !! other
     = circuit_breakers self !! other)
  /\ rate_limiters (snd (get_circuit_breaker self service)) = rate_limiters self.
Proof.
  unfold get_circuit_breaker.
  destruct (circuit_breakers self !! service); cbn [snd rate_limiters circuit_breakers].
  - split; reflexivity.
  - split; [|reflexivity]. intros other Hne. apply lookup_insert_ne. congruence.
Qed.

(** The registry memoizes: [get_rate_limiter] stores the limiter it returns
    under the service's name, a second request returns that same limiter and
    changes nothing, a limiter that had to be created is a new one with the
    service's policy, and neither the limiters of other services nor any
    breaker is touched. *)
Theorem X_get_rate_limiter_memoizes (self : t) (service : string) (t1 t2 : Q) :
  let limiter := fst (get_rate_limiter self service t1) in
  let manager := snd (get_rate_limiter self service t1) in
  rate_limiters manager !! service = Some limiter
  /\ get_rate_limiter manager service t2 = (limiter, manager)
  /\ (rate_limiters self !! service = None ->
      limiter = RateLimiter.init (_get_rate_config self service) t1)
  /\ (forall held, rate_limiters self !! service = Some held ->
      limiter = held /\ manager = self)
  /\ (forall other, other <> service ->
      rate_limiters manager !! other = rate_limiters self !! other)
  /\ circuit_breakers manager = circuit_breakers self.
Proof.
  cbv zeta. unfold get_rate_limiter.
  destruct (rate_limiters self !! service) as [held|] eqn:E; cbn [fst snd].
  - rewrite E. repeat split; intros; try assumption; try congruence.
  - cbn [rate_limiters circuit_breakers]. rewrite lookup_insert_eq.
    repeat split; try discriminate.
    intros other Hne. apply lookup_insert_ne. congruence.
Qed.

(** The same for breakers: [get_circuit_breaker] stores the breaker it
    returns, a second request returns it again, a breaker that had to be
    created is a new CLOSED one with the service's policy, and no other
    breaker and no limiter is touched. *)
Theorem X_get_circuit_breaker_memoizes (self : t) (service : string) :
  let breaker := fst (get_circuit_breaker self service) in
  let manager := snd (get_circuit_breaker self service) in
  circuit_breakers manager !! service = Some breaker
  /\ get_circuit_breaker manager service = (breaker, manager)
  /\ (circuit_breakers self !! service = None ->
      breaker = CircuitBreaker.init service (_get_circuit_config self service))
  /\ (forall held, circuit_breakers self !! service = Some held ->
      breaker = held /\ manager = self)
  /\ (forall other, other <> service ->
      circuit_breakers manager !! other = circuit_breakers self !! other)
  /\ rate_limiters manager = rate_limiters self.
Proof.
  cbv zeta. unfold get_circuit_breaker.
  destruct (circuit_breakers self !! service) as [held|] eqn:E; cbn [fst snd].
  - rewrite E. repeat split; intros; try assumption; try congruence.
  - cbn [rate_limiters circuit_breakers]. rewrite lookup_insert_eq.
    repeat split; try discriminate.
    intros other Hne. apply lookup_insert_ne. congruence.
Qed.

(** A service without an entry in the policy tables gets the manager's
    default policy: the limiter policy for every name other than
    [gemini_api], [web_scraping] and [vector_store], the breaker policy for
    every name other than [gemini_api] and [web_scraping] (so also for
    [vector_store]). *)
Theorem X_unknown_service_gets_defaults (self : t) (service : string) :
  (service <> "gemini_api"%string -> service <> "web_scraping"%string ->
   service <> "vector_store"%string ->
   _get_rate_config self service = default_rate_config self)
  /\ (service <> "gemini_api"%string -> service <> "web_scraping"%string ->
      _get_circuit_config self service = default_circuit_config self)
  /\ _get_circuit_config self "vector_store" = default_circuit_config self.
Proof.
  split; [|split].
  - intros H1 H2 H3. unfold _get_rate_config, rate_service_configs.
    rewrite !lookup_insert_ne by congruence. rewrite lookup_empty. reflexivity.
  - intros H1 H2. unfold _get_circuit_config, circuit_service_configs.
    rewrite !lookup_insert_ne by congruence. rewrite lookup_empty. reflexivity.
  - unfold _get_circuit_config, circuit_service_configs.
    rewrite !lookup_insert_ne by discriminate. rewrite lookup_empty. reflexivity.
Qed.

Lemma X_unknown_service_gets_defaults_witness :
  _get_rate_config init "translation_api" = default_rate_config init
  /\ _get_circuit_config init "translation_api" = default_circuit_config init.
Proof.
  destruct (X_unknown_service_gets_defaults init "translation_api") as (H1 & H2 & _).
  split; [apply H1|apply H2]; discriminate.
Defined.

(** The [rate_limited] decorator: when the service's limiter allows the
    call, the wrapped function runs once and its result is the result; when
    the limiter denies or raises, the function does not run and the call
    raises. Either way the manager holds the limiter as [is_allowed] left
    it, and no other limiter and no breaker is touched. *)
Theorem X_rate_limited_decorator {W R : Type} (service : string)
    (func : W -> Result R * W) (self : t) (t_init now : Q) (w : W) :
  let limiter := fst (get_rate_limiter self service t_init) in
  let decision := fst (RateLimiter.is_allowed limiter now 1) in
  let out := rate_limited service func self t_init now w in
  (RateLimiter.allowed decision = true ->
   fst (fst out) = fst (func w) /\ snd out = snd (func w))
  /\ (RateLimiter.allowed decision = false ->
      snd out = w /\ exists e, fst (fst out) = Raise e)
  /\ rate_limiters (snd (fst out)) !! service
     = Some (snd (RateLimiter.is_allowed limiter now 1))
  /\ (forall other, other <> service ->
      rate_limiters (snd (fst out)) !! other = rate_limiters self !! other)
  /\ circuit_breakers (snd (fst out)) = circuit_breakers self.
Proof.
  cbv zeta.
  destruct (get_rate_limiter_others self service t_init) as (Hother & Hcb).
  unfold rate_limited.
  destruct (get_rate_limiter self service t_init) as [limiter manager].
  cbn [fst snd] in *.
  destruct (RateLimiter.is_allowed limiter now 1) as [decision limiter'].
  cbn [fst snd].
  assert (Hput : rate_limiters (put_rate_limiter manager service limiter') !! service
                 = Some limiter') by (cbn; apply lookup_insert_eq).
  assert (Hput' : forall other, other <> service ->
            rate_limiters (put_rate_limiter manager service limiter') !! other
            = rate_limiters self !! other).
  { intros other Hne. cbn. rewrite lookup_insert_ne by congruence. apply Hother. exact Hne. }
  destruct decision as [[[|] info]|e]; cbn [RateLimiter.allowed negb fst snd].
  - destruct (func w) as [r w']. cbn [fst snd].
    repeat split; try assumption; discriminate.
  - repeat split; try assumption; try discriminate. eexists. reflexivity.
  - repeat split; try assumption; try discriminate. eexists. reflexivity.
Qed.

Lemma X_rate_limited_decorator_witness :
  let out :=
    rate_limited "gemini_api" (fun n : nat => (@Return string "text"%string, S n))
      init 0 0 0%nat in
  fst (fst out) = Return "text"%string /\ snd out = 1%nat.
Proof.
  destruct (X_rate_limited_decorator "gemini_api"
              (fun n : nat => (@Return string "text"%string, S n)) init 0 0 0%nat)
    as (H & _).
  apply H. vm_compute. reflexivity.
Defined.

(** The [circuit_protected] decorator is [CircuitBreaker.call] on the
    service's breaker: the result and the function's world are those of
    [call], the manager holds the breaker as [call] left it, and no other
    breaker and no limiter is touched. *)
Lemma circuit_protected_is_call {W R : Type} (service : string)
    (func : W -> Result R * W) (self : t) (now t_fail : Q) (w : W) :
  let breaker := fst (get_circuit_breaker self service) in
  let called := CircuitBreaker.call breaker now func w t_fail in
  let out := circuit_protected service func self now w t_fail in
  fst (fst out) = fst (fst called)
  /\ snd out = snd called
  /\ circuit_breakers (snd (fst out)) !! service = Some (CircuitBreaker.after called)
  /\ (forall other, other <> service ->
      circuit_breakers (snd (fst out)) !! other = circuit_breakers self !! other)
  /\ rate_limiters (snd (fst out)) = rate_limiters self.
Proof.
  cbv zeta.
  destruct (get_circuit_breaker_others self service) as (Hother & Hrl).
  unfold circuit_protected.
  destruct (get_circuit_breaker self service) as [breaker manager].
  cbn [fst snd] in *.
  destruct (CircuitBreaker.call breaker now func w t_fail) as [[r breaker'] w'].
  cbn [fst snd CircuitBreaker.after].
  repeat split; try assumption.
  - cbn. apply lookup_insert_eq.
  - intros other Hne. cbn. rewrite lookup_insert_ne by congruence. apply Hother. exact Hne.
Qed.

End ManagerExtras.

(** ** The response cache: hits, misses, other keys and the sweep *)

Section CacheExtras.

Import PerformanceCache.

Variable api_key : string -> string.

Lemma is_expired_true (self : t) (now timestamp : Q) :
  _is_expired self now timestamp = true <-> (inject_Z (ttl self) < now - timestamp)%Q.
Proof. unfold _is_expired. apply Qgtb_lt. Qed.

Lemma is_expired_same_ttl (self : t) (m : gmap string (string * Q))
    (f : gmap string FileContent) (now timestamp : Q) :
  _is_expired {| ttl := ttl self; memory_cache := m; files := f |} now timestamp
  = _is_expired self now timestamp.
Proof. reflexivity. Qed.

(** What a lookup returns and leaves behind. A value it returns is the data
    of an entry that was fresh at the clock reading, in memory or on disk,
    and afterwards the memory tier holds that entry. After a miss the memory
    tier has no entry for the key and the directory has no readable file
    for it. Entries and files of other keys are never touched, nor is the
    lifetime. *)
Theorem X_lookup_outcomes (self : t) (now_mem now_file : Q) (prompt_hash : string) :
  let k := api_key prompt_hash in
  let out := get_api_response api_key self now_mem now_file prompt_hash in
  ttl (snd out) = ttl self
  /\ (forall data, fst out = Some data ->
      exists ts,
        memory_cache (snd out) !! k = Some (data, ts)
        /\ ((memory_cache self !! k = Some (data, ts)
             /\ (now_mem - ts <= inject_Z (ttl self))%Q)
            \/ (files self !! k = Some (Pickled data ts)
                /\ (now_file - ts <= inject_Z (ttl self))%Q)))
  /\ (fst out = None ->
      memory_cache (snd out) !! k = None
      /\ (files (snd out) !! k = None \/ files (snd out) !! k = Some Unreadable))
  /\ (forall other, other <> k ->
      memory_cache (snd out) !! other = memory_cache self !! other
      /\ files (snd out) !! other = files self !! other).
Proof.
  cbv zeta. unfold get_api_response.
  set (k := api_key prompt_hash).
  destruct (memory_cache self !! k) as [[d ts]|] eqn:Em.
  - destruct (_is_expired self now_mem ts) eqn:Ex; cbn [negb].
    + (* expired in memory *)
      cbn [files memory_cache ttl].
      destruct (files self !! k) as [[fd fts|]|] eqn:Ef.
      * rewrite !is_expired_same_ttl.
        destruct (_is_expired self now_file fts) eqn:Ey; cbn [negb fst snd ttl memory_cache files].
        -- split; [reflexivity|]. split; [intros; congruence|]. split.
           ++ intros _. rewrite !lookup_delete_eq. auto.
           ++ intros other Hne. rewrite !lookup_delete_ne by congruence. auto.
        -- split; [reflexivity|]. split.
           ++ intros data E. inversion E; subst data. exists fts.
              rewrite lookup_insert_eq. split; [reflexivity|]. right.
              split; [reflexivity|]. apply is_expired_false. exact Ey.
           ++ split; [intros; congruence|].
              intros other Hne. rewrite lookup_insert_ne, lookup_delete_ne by congruence. auto.
      * cbn [fst snd ttl memory_cache files]. split; [reflexivity|]. split; [intros; congruence|].
        split.
        -- intros _. rewrite lookup_delete_eq. auto.
        -- intros other Hne. rewrite lookup_delete_ne by congruence. auto.
      * cbn [fst snd ttl memory_cache files]. split; [reflexivity|]. split; [intros; congruence|].
        split.
        -- intros _. rewrite lookup_delete_eq. auto.
        -- intros other Hne. rewrite lookup_delete_ne by congruence. auto.
    + cbn [fst snd]. split; [reflexivity|]. split.
      * intros data E. inversion E; subst data. exists ts.
        split; [first [exact Em|reflexivity]|]. left.
        split; [first [exact Em|reflexivity]|]. apply is_expired_false. exact Ex.
      * split; [intros; congruence|]. auto.
  - destruct (files self !! k) as [[fd fts|]|] eqn:Ef.
    + destruct (_is_expired self now_file fts) eqn:Ey; cbn [negb fst snd ttl memory_cache files].
      * split; [reflexivity|]. split; [intros; congruence|]. split.
        -- intros _. rewrite lookup_delete_eq. auto.
        -- intros other Hne. rewrite lookup_delete_ne by congruence. auto.
      * split; [reflexivity|]. split.
        -- intros data E. inversion E; subst data. exists fts.
           rewrite lookup_insert_eq. split; [reflexivity|]. right.
           split; [reflexivity|]. apply is_expired_false. exact Ey.
        -- split; [intros; congruence|].
           intros other Hne. rewrite lookup_insert_ne by congruence. auto.
    + cbn [fst snd]. split; [reflexivity|]. split; [intros; congruence|]. auto.
    + cbn [fst snd]. split; [reflexivity|]. split; [intros; congruence|]. auto.
Qed.

(** Writing touches one key: after [set_api_response] the entries of every
    other key, in memory and on disk, are what they were, and so is the
    lifetime. *)
Lemma set_api_response_frame (self : t) (now : Q) (prompt_hash response : string) :
  let written := set_api_response api_key self now prompt_hash response in
  ttl written = ttl self
  /\ forall other, other <> api_key prompt_hash ->
       memory_cache written !! other = memory_cache self !! other
       /\ files written !! other = files self !! other.
Proof.
  cbv zeta. unfold set_api_response. cbn. split; [reflexivity|].
  intros other Hne. rewrite !lookup_insert_ne by congruence. auto.
Qed.

(** An entry read after its lifetime is dropped: a lookup made more than
    [ttl] seconds after [set_api_response] wrote the entry is a miss, and
    it leaves the cache as it was before the write but for the key's own
    entry and file, which are gone. An entry exactly [ttl] seconds old is
    still served. *)
Theorem X_expired_entry_is_dropped (self : t) (now now_mem now_file : Q)
    (prompt_hash response : string) :
  let k := api_key prompt_hash in
  let written := set_api_response api_key self now prompt_hash response in
  ((inject_Z (ttl self) < now_mem - now)%Q ->
   (inject_Z (ttl self) < now_file - now)%Q ->
   get_api_response api_key written now_mem now_file prompt_hash =
     (None,
      {| ttl := ttl self;
         memory_cache := delete k (memory_cache self);
         files := delete k (files self) |}))
  /\ ((now_mem - now == inject_Z (ttl self))%Q ->
      fst (get_api_response api_key written now_mem now_file prompt_hash) = Some response).
Proof.
  cbv zeta. split.
  - intros Hm Hf. unfold get_api_response, set_api_response.
    cbn [memory_cache files ttl]. rewrite lookup_insert_eq.
    assert (E1 : forall m f, _is_expired {| ttl := ttl self; memory_cache := m; files := f |}
                               now_mem now = true)
      by (intros; apply is_expired_true; exact Hm).
    assert (E2 : forall m f, _is_expired {| ttl := ttl self; memory_cache := m; files := f |}
                               now_file now = true)
      by (intros; apply is_expired_true; exact Hf).
    rewrite E1. cbn [negb files memory_cache ttl]. rewrite lookup_insert_eq, E2.
    cbn [negb]. rewrite !delete_insert_eq. reflexivity.
  - intros He. unfold get_api_response, set_api_response.
    cbn [memory_cache files ttl]. rewrite lookup_insert_eq.
    assert (E1 : forall m f, _is_expired {| ttl := ttl self; memory_cache := m; files := f |}
                               now_mem now = false).
    { intros. apply is_expired_false. cbn. rewrite He. apply Qle_refl. }
    rewrite E1. reflexivity.
Qed.

Lemma size_filter_split {A : Type} (f : string * A -> bool) (m : gmap string A) :
  size m =
  (size (filter (fun kv => f kv = true) m) + size (filter (fun kv => f kv <> true) m))%nat.
Proof.
  rewrite <- (map_filter_union_complement (fun kv => f kv = true) m) at 1.
  rewrite map_size_disj_union by apply map_disjoint_filter_complement.
  reflexivity.
Qed.

(** The sweep removes exactly what has expired. After
    [clear_expired_cache] the memory tier holds the entries that were fresh
    when examined and no others, the directory holds the files that were
    fresh when examined and the unreadable ones, the count returned is the
    number of memory entries plus the number of files that are gone, and
    the lifetime is unchanged. *)
Theorem X_sweep_removes_the_expired (self : t) (at_mem at_file : string -> Q) :
  let count := fst (clear_expired_cache self at_mem at_file) in
  let swept := snd (clear_expired_cache self at_mem at_file) in
  ttl swept = ttl self
  /\ (forall k data ts,
        memory_cache swept !! k = Some (data, ts) <->
        memory_cache self !! k = Some (data, ts)
        /\ (at_mem k - ts <= inject_Z (ttl self))%Q)
  /\ (forall k data ts,
        files swept !! k = Some (Pickled data ts) <->
        files self !! k = Some (Pickled data ts)
        /\ (at_file k - ts <= inject_Z (ttl self))%Q)
  /\ (forall k, files swept !! k = Some Unreadable <-> files self !! k = Some Unreadable)
  /\ count + Z.of_nat (size (memory_cache swept)) + Z.of_nat (size (files swept))
     = Z.of_nat (size (memory_cache self)) + Z.of_nat (size (files self)).
Proof.
  cbv zeta. unfold clear_expired_cache. cbn [fst snd ttl memory_cache files].
  split; [reflexivity|]. split; [|split; [|split]].
  - intros k data ts. rewrite map_lookup_filter_Some. unfold mem_expired. cbn [fst snd].
    rewrite <- is_expired_false. split; intros [H1 H2]; (split; [exact H1|]).
    + destruct (_is_expired self (at_mem k) ts); [contradiction|reflexivity].
    + rewrite H2. discriminate.
  - intros k data ts. rewrite map_lookup_filter_Some. unfold file_expired. cbn [fst snd].
    rewrite <- is_expired_false. split; intros [H1 H2]; (split; [exact H1|]).
    + destruct (_is_expired self (at_file k) ts); [contradiction|reflexivity].
    + rewrite H2. discriminate.
  - intros k. rewrite map_lookup_filter_Some. unfold file_expired. cbn [fst snd].
    split; [intros [H _]; exact H|intros H; split; [exact H|discriminate]].
  - rewrite (size_filter_split (mem_expired self at_mem) (memory_cache self)).
    rewrite (size_filter_split (file_expired self at_file) (files self)).
    lia.
Qed.

End CacheExtras.

(** ** The regulation-search cache: one key per search *)

Section RegulationSearchExtras.

Import RegulationSearch.

Lemma ascii_compare_refl (x : ascii) : Ascii.compare x x = Eq.
Proof. unfold Ascii.compare. apply N.compare_refl. Qed.

Lemma string_leb_trans (a : string) : forall b c : string,
  String.leb a b = true -> String.leb b c = true -> String.leb a c = true.
Proof.
  unfold String.leb.
  induction a as [|x a IH]; intros [|y b] [|z c]; cbn [String.compare];
    try reflexivity; try discriminate.
  destruct (Ascii.compare x y) eqn:Exy; try discriminate;
    destruct (Ascii.compare y z) eqn:Eyz; try discriminate.
  - apply Ascii.compare_eq_iff in Exy, Eyz. subst. rewrite ascii_compare_refl. apply IH.
  - apply Ascii.compare_eq_iff in Exy. subst. rewrite Eyz. reflexivity.
  - apply Ascii.compare_eq_iff in Eyz. subst. rewrite Exy. reflexivity.
  - unfold Ascii.compare in *. rewrite N.compare_lt_iff in Exy, Eyz.
    assert (E : (N_of_ascii x ?= N_of_ascii z)%N = Lt) by (apply N.compare_lt_iff; lia).
    rewrite E. reflexivity.
Qed.

Lemma leb_false_flip (x y : string) : String.leb x y = false -> String.leb y x = true.
Proof. intros H. destruct (String.leb_total x y) as [E|E]; congruence. Qed.

Lemma insert_sorted_comm (x y : string) (xs : list string) :
  insert_sorted x (insert_sorted y xs) = insert_sorted y (insert_sorted x xs).
Proof.
  induction xs as [|z xs IH]; cbn [insert_sorted].
  - destruct (String.leb x y) eqn:Exy, (String.leb y x) eqn:Eyx; try reflexivity.
    + rewrite (String.leb_antisym x y Exy Eyx). reflexivity.
    + apply leb_false_flip in Exy. congruence.
  - destruct (String.leb y z) eqn:Eyz, (String.leb x z) eqn:Exz; cbn [insert_sorted].
    + rewrite Eyz, Exz.
      destruct (String.leb x y) eqn:Exy, (String.leb y x) eqn:Eyx; try reflexivity.
      * rewrite (String.leb_antisym x y Exy Eyx). reflexivity.
      * apply leb_false_flip in Exy. congruence.
    + rewrite Eyz, Exz.
      destruct (String.leb x y) eqn:Exy; [|reflexivity].
      rewrite (string_leb_trans x y z Exy Eyz) in Exz. discriminate.
    + rewrite Eyz, Exz.
      destruct (String.leb y x) eqn:Eyx; [|reflexivity].
      rewrite (string_leb_trans y x z Eyx Exz) in Eyz. discriminate.
    + rewrite Eyz, Exz, IH. reflexivity.
Qed.

Lemma sorted_permutation (xs ys : list string) :
  Permutation xs ys -> sorted xs = sorted ys.
Proof.
  unfold sorted. induction 1 as [|x xs ys _ IH|x y xs|xs ys zs _ IH1 _ IH2];
    cbn [fold_right].
  - reflexivity.
  - rewrite IH. reflexivity.
  - apply insert_sorted_comm.
  - congruence.
Qed.

Context {D : Type}.
Variable lower : string -> string.
Variable search_key : string -> string -> list string -> string.

(** A search has one cache key whatever the letter case of the country, the
    industry and the activities, and whatever the order of the activities:
    two searches whose lower-cased country and industry agree and whose
    lower-cased activities are a rearrangement of one another have the same
    key, so what [set_regulation_search] stores for one,
    [get_regulation_search] returns for the other until the entry is older
    than [ttl]. *)
Theorem X_search_key_ignores_case_and_order
    (country1 industry1 : string) (activities1 : list string)
    (country2 industry2 : string) (activities2 : list string) :
  lower country1 = lower country2 ->
  lower industry1 = lower industry2 ->
  Permutation (map lower activities1) (map lower activities2) ->
  cache_key_of lower search_key country1 industry1 activities1
  = cache_key_of lower search_key country2 industry2 activities2
  /\ forall (self : t D) (now now_mem now_file : Q) (data : D),
       (now_mem - now <= inject_Z (ttl self))%Q ->
       let written :=
         set_regulation_search lower search_key self now country1 industry1 activities1 data in
       get_regulation_search lower search_key written now_mem now_file
         country2 industry2 activities2
       = (Some data, written).
Proof.
  intros Hc Hi Hp.
  assert (Hkey : cache_key_of lower search_key country1 industry1 activities1
                 = cache_key_of lower search_key country2 industry2 activities2).
  { unfold cache_key_of. rewrite Hc, Hi, (sorted_permutation _ _ Hp). reflexivity. }
  split; [exact Hkey|].
  intros self now now_mem now_file data Hfresh written. subst written.
  unfold get_regulation_search, set_regulation_search. rewrite <- Hkey.
  cbn [memory_cache files ttl]. rewrite lookup_insert_eq.
  assert (E : forall (m : gmap string (D * Q)) (f : gmap string (FileContent D)),
            _is_expired {| ttl := ttl self; memory_cache := m; files := f |} now_mem now
            = false).
  { intros m f. unfold _is_expired, Qgtb. cbn [ttl].
    rewrite negb_false_iff. apply Qle_bool_iff. exact Hfresh. }
  rewrite E. reflexivity.
Qed.

End RegulationSearchExtras.

(** Two spellings of one search, with the identity standing in for
    [str.lower] and concatenation for the digest. *)
Lemma X_search_key_ignores_case_and_order_witness :
  let key := fun (c i : string) (acts : list string) => (c +:+ i +:+ String.concat "," acts)%string in
  fst (RegulationSearch.get_regulation_search (fun s => s) key
         (RegulationSearch.set_regulation_search (fun s => s) key
            (RegulationSearch.init nat 3600) 0 "pk" "fintech" ["lending"; "payments"]%string 7%nat)
         10 10 "pk" "fintech" ["payments"; "lending"]%string)
  = Some 7%nat.
Proof.
  cbv zeta.
  destruct (X_search_key_ignores_case_and_order (D := nat) (fun s => s)
              (fun (c i : string) (acts : list string) =>
                 (c +:+ i +:+ String.concat "," acts)%string)
              "pk" "fintech" ["lending"; "payments"]%string
              "pk" "fintech" ["payments"; "lending"]%string) as [_ H].
  - reflexivity.
  - reflexivity.
  - apply perm_swap.
  - rewrite (H (RegulationSearch.init nat 3600) 0%Q 10%Q 10%Q 7%nat).
    + reflexivity.
    + vm_compute. discriminate.
Defined.

(** ** [generate_response]: the paths of an allowed call *)

Section GeminiExtras.

Import GeminiClient.

Context {W : Type}.
Variable prompt_hash_of : string -> Q -> Z -> Result string.
Variable api_key : string -> string.
Variable format_num : PyNum -> string.
Variable str : PyExc -> string.
Variable generate_content : string -> Q -> Z -> W -> Result string * W.

Local Abbreviation run_generate_response :=
  (generate_response prompt_hash_of api_key format_num str generate_content).

Local Abbreviation unavailable :=
  "Service temporarily unavailable. Using fallback response."%string.

Lemma manager_after_limiter_breakers (env : Env W) (clk : Clock) :
  ProductionAPIManager.circuit_breakers (manager_after_limiter env clk)
  = ProductionAPIManager.circuit_breakers (api_manager env).
Proof. unfold manager_after_limiter. cbn. apply get_rate_limiter_breakers. Qed.

Lemma manager_after_limiter_limiter (env : Env W) (clk : Clock) :
  ProductionAPIManager.rate_limiters (manager_after_limiter env clk) !! "gemini_api"%string
  = Some (snd (RateLimiter.is_allowed (limiter_of env clk) (at_is_allowed clk) 1)).
Proof. unfold manager_after_limiter. cbn. apply lookup_insert_eq. Qed.

(** After a miss nothing readable is left under the key. *)
Lemma miss_leaves_nothing (cache : PerformanceCache.t) (n1 n2 : Q) (h : string) :
  fst (PerformanceCache.get_api_response api_key cache n1 n2 h) = None ->
  PerformanceCache.memory_cache
    (snd (PerformanceCache.get_api_response api_key cache n1 n2 h)) !! api_key h = None
  /\ (PerformanceCache.files
        (snd (PerformanceCache.get_api_response api_key cache n1 n2 h)) !! api_key h = None
      \/ PerformanceCache.files
           (snd (PerformanceCache.get_api_response api_key cache n1 n2 h)) !! api_key h
         = Some PerformanceCache.Unreadable).
Proof.
  unfold PerformanceCache.get_api_response.
  destruct (PerformanceCache.memory_cache cache !! api_key h) as [[d ts]|] eqn:Em;
    [destruct (PerformanceCache._is_expired cache n1 ts); cbn [negb]|];
    cbn [PerformanceCache.files PerformanceCache.memory_cache];
    try (cbn [fst]; discriminate);
    (destruct (PerformanceCache.files cache !! api_key h) as [[fd fts|]|] eqn:Ef;
     [rewrite ?is_expired_same_ttl;
      destruct (PerformanceCache._is_expired cache n2 fts); cbn [negb]| |]);
    cbn [fst snd PerformanceCache.files PerformanceCache.memory_cache];
    intros E; try discriminate E;
    rewrite ?lookup_delete_eq, ?Em, ?Ef; auto.
Qed.

Lemma nothing_gives_miss (cache : PerformanceCache.t) (m1 m2 : Q) (h : string) :
  PerformanceCache.memory_cache cache !! api_key h = None ->
  PerformanceCache.files cache !! api_key h = None
  \/ PerformanceCache.files cache !! api_key h = Some PerformanceCache.Unreadable ->
  fst (PerformanceCache.get_api_response api_key cache m1 m2 h) = None.
Proof.
  intros Hm Hf. unfold PerformanceCache.get_api_response. rewrite Hm.
  destruct Hf as [Hf|Hf]; rewrite Hf; reflexivity.
Qed.

(** A lookup that missed misses again. *)
Lemma lookup_miss_again (cache : PerformanceCache.t) (n1 n2 m1 m2 : Q) (h : string) :
  fst (PerformanceCache.get_api_response api_key cache n1 n2 h) = None ->
  fst (PerformanceCache.get_api_response api_key
         (snd (PerformanceCache.get_api_response api_key cache n1 n2 h)) m1 m2 h) = None.
Proof.
  intros Hmiss. destruct (miss_leaves_nothing cache n1 n2 h Hmiss) as [Hm Hf].
  apply nothing_gives_miss; assumption.
Qed.

(** A fresh entry just written is found in memory. *)
Lemma stored_then_found (cache : PerformanceCache.t) (now n1 n2 : Q) (h text : string) :
  (n1 - now <= inject_Z (PerformanceCache.ttl cache))%Q ->
  PerformanceCache.get_api_response api_key
    (PerformanceCache.set_api_response api_key cache now h text) n1 n2 h
  = (Some text, PerformanceCache.set_api_response api_key cache now h text).
Proof.
  intros Hfresh. unfold PerformanceCache.get_api_response, PerformanceCache.set_api_response.
  cbn [PerformanceCache.memory_cache]. rewrite lookup_insert_eq.
  assert (E : forall m f,
            PerformanceCache._is_expired
              {| PerformanceCache.ttl := PerformanceCache.ttl cache;
                 PerformanceCache.memory_cache := m;
                 PerformanceCache.files := f |} n1 now = false)
    by (intros; apply is_expired_false; exact Hfresh).
  rewrite E. reflexivity.
Qed.

Lemma lookup_keeps_ttl (cache : PerformanceCache.t) (n1 n2 : Q) (h : string) :
  PerformanceCache.ttl (snd (PerformanceCache.get_api_response api_key cache n1 n2 h))
  = PerformanceCache.ttl cache.
Proof.
  unfold PerformanceCache.get_api_response.
  destruct (PerformanceCache.memory_cache cache !! api_key h) as [[d ts]|];
    [destruct (PerformanceCache._is_expired cache n1 ts); cbn [negb]|];
    cbn [PerformanceCache.files PerformanceCache.memory_cache];
    try reflexivity;
    (destruct (PerformanceCache.files cache !! api_key h) as [[fd fts|]|];
     [rewrite ?is_expired_same_ttl;
      destruct (PerformanceCache._is_expired cache n2 fts); cbn [negb]| |]);
    reflexivity.
Qed.

(** A cached answer costs a token but no model call: when the limiter allows
    the call and the cache check before the call finds a text, that text is
    returned, the model is not called and no breaker is touched, while the
    limiter held by the manager is the one [is_allowed] left, a token and a
    window slot poorer. *)
Theorem X_cache_hit_skips_model (env : Env W) (clk : Clock) (prompt : string)
    (temperature : Q) (max_tokens : Z) (system_prompt : option string)
    (use_cache : bool) (info : RateLimiter.Info) (cached : string) :
  decision_of env clk = Return (true, info) ->
  cached_before_call prompt_hash_of api_key env clk (full_prompt_of prompt system_prompt)
    temperature max_tokens use_cache = Return (Some cached) ->
  let out := run_generate_response env clk prompt temperature max_tokens system_prompt use_cache in
  fst out = Return cached
  /\ remote (snd out) = remote env
  /\ ProductionAPIManager.circuit_breakers (api_manager (snd out))
     = ProductionAPIManager.circuit_breakers (api_manager env)
  /\ ProductionAPIManager.rate_limiters (api_manager (snd out)) !! "gemini_api"%string
     = Some (snd (RateLimiter.is_allowed (limiter_of env clk) (at_is_allowed clk) 1)).
Proof.
  intros Hd Hc out. subst out.
  rewrite (generate_response_allowed prompt_hash_of api_key format_num str generate_content
             env clk prompt temperature max_tokens system_prompt use_cache info Hd).
  cbv zeta. rewrite Hc. cbn [fst snd].
  destruct (cache_hash_of prompt_hash_of (full_prompt_of prompt system_prompt)
              temperature max_tokens use_cache);
    cbn [remote api_manager with_cache with_manager];
    (split; [reflexivity|]; split; [reflexivity|];
     split; [apply manager_after_limiter_breakers|apply manager_after_limiter_limiter]).
Qed.

(** The path of a fresh answer: when the limiter allows the call, the cache
    check finds nothing, the breaker lets the call through and the model
    returns a text, that text is returned, the model has run once, the
    breaker held by the manager has recorded the success, and with caching
    on both cache tiers hold the text under the key of the full prompt with
    the time of the write, while with caching off the cache is untouched. *)
Theorem X_fresh_answer_is_stored (env : Env W) (clk : Clock) (prompt : string)
    (temperature : Q) (max_tokens : Z) (system_prompt : option string)
    (use_cache : bool) (info : RateLimiter.Info) (gated : CircuitBreaker.t)
    (text : string) (w' : W) :
  decision_of env clk = Return (true, info) ->
  cached_before_call prompt_hash_of api_key env clk (full_prompt_of prompt system_prompt)
    temperature max_tokens use_cache = Return None ->
  CircuitBreaker.call_guard (breaker_of env clk) (at_breaker clk) = (Return tt, gated) ->
  generate_content (full_prompt_of prompt system_prompt) temperature max_tokens (remote env)
    = (Return text, w') ->
  let out := run_generate_response env clk prompt temperature max_tokens system_prompt use_cache in
  fst out = Return text
  /\ remote (snd out) = w'
  /\ ProductionAPIManager.circuit_breakers (api_manager (snd out)) !! "gemini_api"%string
     = Some (CircuitBreaker._on_success gated)
  /\ (use_cache = true ->
      exists prompt_hash,
        prompt_hash_of (full_prompt_of prompt system_prompt) temperature max_tokens
          = Return prompt_hash
        /\ PerformanceCache.memory_cache (performance_cache (snd out)) !! api_key prompt_hash
           = Some (text, at_store clk)
        /\ PerformanceCache.files (performance_cache (snd out)) !! api_key prompt_hash
           = Some (PerformanceCache.Pickled text (at_store clk)))
  /\ (use_cache = false -> performance_cache (snd out) = performance_cache env).
Proof.
  intros Hd Hc Hg Hm out. subst out.
  destruct (generate_response_model prompt_hash_of api_key format_num str generate_content
              env clk prompt temperature max_tokens system_prompt use_cache info gated
              (Return text) w' Hd Hc Hg Hm) as (env3 & Hrem & Hbr & Hoff & _ & Hout).
  cbv zeta in Hout. rewrite Hout. clear Hout. cbn [fst snd].
  destruct (store_response_fields api_key env3 clk
              (cache_hash_of prompt_hash_of (full_prompt_of prompt system_prompt)
                 temperature max_tokens use_cache) text) as (Ha & Hr & Hnone).
  rewrite Ha, Hr.
  split; [reflexivity|]. split; [exact Hrem|]. split; [exact Hbr|]. split.
  - intros Hon.
    destruct (cached_before_call_inv prompt_hash_of api_key env clk _ _ _ _ _ Hc)
      as [(Hoff' & _)|(_ & h & Hh & Hch & _)]; [congruence|].
    exists h. split; [exact Hh|]. rewrite Hch.
    unfold store_response, PerformanceCache.set_api_response.
    cbn [performance_cache with_cache PerformanceCache.memory_cache PerformanceCache.files].
    split; apply lookup_insert_eq.
  - intros Hoff'. rewrite Hnone; [exact (Hoff Hoff')|].
    unfold cache_hash_of. rewrite Hoff'. reflexivity.
Qed.

(** With the circuit open there is nothing to fall back on: when the
    limiter allows the call, the cache check before the call is a miss (or
    caching is off) and the breaker refuses the call, the result is the text
    "Service temporarily unavailable. Using fallback response." and the
    model is not called; the second cache lookup of that branch looks under
    the key that has just missed and cannot find a text. *)
Theorem X_open_circuit_reports_unavailable (env : Env W) (clk : Clock) (prompt : string)
    (temperature : Q) (max_tokens : Z) (system_prompt : option string)
    (use_cache : bool) (info : RateLimiter.Info) (e : PyExc) (left : CircuitBreaker.t) :
  decision_of env clk = Return (true, info) ->
  (use_cache = false
   \/ exists prompt_hash,
        prompt_hash_of (full_prompt_of prompt system_prompt) temperature max_tokens
          = Return prompt_hash
        /\ fst (PerformanceCache.get_api_response api_key (performance_cache env)
                  (at_lookup_mem clk) (at_lookup_file clk) prompt_hash) = None) ->
  CircuitBreaker.call_guard (breaker_of env clk) (at_breaker clk) = (Raise e, left) ->
  let out := run_generate_response env clk prompt temperature max_tokens system_prompt use_cache in
  fst out = Return unavailable
  /\ remote (snd out) = remote env
  /\ ProductionAPIManager.circuit_breakers (api_manager (snd out)) !! "gemini_api"%string
     = Some left.
Proof.
  intros Hd Hmiss Hg out. subst out.
  rewrite (generate_response_allowed prompt_hash_of api_key format_num str generate_content
             env clk prompt temperature max_tokens system_prompt use_cache info Hd).
  cbv zeta.
  assert (Hwhy : exists why, e = CircuitBreakerOpenError why).
  { destruct (call_guard_result (breaker_of env clk) (at_breaker clk))
      as [[g Eg]|(why & l & Eg)]; rewrite Eg in Hg; [discriminate|].
    inversion Hg. eexists. reflexivity. }
  destruct Hwhy as [why ->].
  assert (Hcase :
    (use_cache = false
     /\ cache_hash_of prompt_hash_of (full_prompt_of prompt system_prompt)
          temperature max_tokens use_cache = None)
    \/ (exists h,
          cache_hash_of prompt_hash_of (full_prompt_of prompt system_prompt)
            temperature max_tokens use_cache = Some h
          /\ fst (PerformanceCache.get_api_response api_key (performance_cache env)
                    (at_lookup_mem clk) (at_lookup_file clk) h) = None)).
  { unfold cache_hash_of. destruct use_cache.
    - right. destruct Hmiss as [Hf|(h & Hh & Hn)]; [discriminate|].
      exists h. rewrite Hh. split; [reflexivity|exact Hn].
    - left. split; reflexivity. }
  assert (Hc : cached_before_call prompt_hash_of api_key env clk
                 (full_prompt_of prompt system_prompt) temperature max_tokens use_cache
               = Return None).
  { unfold cached_before_call. destruct use_cache; [|reflexivity].
    destruct Hmiss as [Hf|(h & Hh & Hn)]; [discriminate|]. rewrite Hh, Hn. reflexivity. }
  rewrite Hc, call_model_steps. cbv zeta.
  destruct Hcase as [[Hoff Hch]|(h & Hch & Hn)]; rewrite Hch;
    cbn [api_manager remote with_cache with_manager]; fold (breaker_of env clk);
    rewrite (call_rejected (breaker_of env clk) left (at_breaker clk) _ _ (remote env)
               (at_failure clk) Hg);
    cbn [fst snd CircuitBreaker.after
         remote api_manager performance_cache with_cache with_manager with_remote].
  - split; [reflexivity|]. split; [reflexivity|]. cbn. apply lookup_insert_eq.
  - rewrite (lookup_miss_again (performance_cache env) _ _ _ _ _ Hn).
    split; [reflexivity|]. split; [reflexivity|]. cbn. apply lookup_insert_eq.
Qed.

(** What the first of two calls leaves behind when it fetched a text with
    caching on: the model's world, and the text stored under the digest of
    the full prompt. *)
Lemma fetched_then_stored (env : Env W) (clk : Clock) (prompt : string)
    (temperature : Q) (max_tokens : Z) (system_prompt : option string)
    (info : RateLimiter.Info) (gated : CircuitBreaker.t) (text : string) (w' : W) :
  decision_of env clk = Return (true, info) ->
  cached_before_call prompt_hash_of api_key env clk (full_prompt_of prompt system_prompt)
    temperature max_tokens true = Return None ->
  CircuitBreaker.call_guard (breaker_of env clk) (at_breaker clk) = (Return tt, gated) ->
  generate_content (full_prompt_of prompt system_prompt) temperature max_tokens (remote env)
    = (Return text, w') ->
  let env' :=
    snd (run_generate_response env clk prompt temperature max_tokens system_prompt true) in
  exists h,
    prompt_hash_of (full_prompt_of prompt system_prompt) temperature max_tokens = Return h
    /\ remote env' = w'
    /\ performance_cache env' =
       PerformanceCache.set_api_response api_key
         (snd (PerformanceCache.get_api_response api_key (performance_cache env)
                 (at_lookup_mem clk) (at_lookup_file clk) h))
         (at_store clk) h text.
Proof.
  intros Hd Hc Hg Hm env'. subst env'.
  destruct (generate_response_model prompt_hash_of api_key format_num str generate_content
              env clk prompt temperature max_tokens system_prompt true info gated
              (Return text) w' Hd Hc Hg Hm) as (env3 & Hrem & _ & _ & Hcache & Hout).
  cbv zeta in Hout, Hcache. rewrite Hout. clear Hout. cbn [fst snd].
  destruct (cached_before_call_inv prompt_hash_of api_key env clk _ _ _ _ _ Hc)
    as [(Hoff' & _)|(_ & h & Hh & Hch & _)]; [discriminate|].
  exists h. split; [exact Hh|]. rewrite Hch. cbn [store_response remote with_cache].
  split; [exact Hrem|]. cbn [performance_cache with_cache]. rewrite (Hcache h Hch). reflexivity.
Qed.

(** Asking again is answered from the cache: after a call that fetched a
    non-empty text from the model with caching on, the same request made
    again while the limiter allows it and the entry is not older than [ttl]
    returns that text without calling the model. *)
Theorem X_repeated_request_is_served_from_cache (env : Env W) (clk clk' : Clock)
    (prompt : string) (temperature : Q) (max_tokens : Z) (system_prompt : option string)
    (info info' : RateLimiter.Info) (gated : CircuitBreaker.t) (text : string) (w' : W) :
  decision_of env clk = Return (true, info) ->
  cached_before_call prompt_hash_of api_key env clk (full_prompt_of prompt system_prompt)
    temperature max_tokens true = Return None ->
  CircuitBreaker.call_guard (breaker_of env clk) (at_breaker clk) = (Return tt, gated) ->
  generate_content (full_prompt_of prompt system_prompt) temperature max_tokens (remote env)
    = (Return text, w') ->
  truthy_str text = true ->
  let env' :=
    snd (run_generate_response env clk prompt temperature max_tokens system_prompt true) in
  decision_of env' clk' = Return (true, info') ->
  (at_lookup_mem clk' - at_store clk <= inject_Z (PerformanceCache.ttl (performance_cache env)))%Q ->
  let out := run_generate_response env' clk' prompt temperature max_tokens system_prompt true in
  fst out = Return text /\ remote (snd out) = w'.
Proof.
  intros Hd Hc Hg Hm Htext env' Hd' Hfresh out.
  destruct (fetched_then_stored env clk prompt temperature max_tokens system_prompt info
              gated text w' Hd Hc Hg Hm) as (h & Hh & Hrem & Hcache).
  fold env' in Hrem, Hcache.
  assert (Hhit : cached_before_call prompt_hash_of api_key env' clk'
                   (full_prompt_of prompt system_prompt) temperature max_tokens true
                 = Return (Some text)).
  { unfold cached_before_call. rewrite Hh, Hcache, stored_then_found.
    - cbn [fst]. rewrite Htext. reflexivity.
    - rewrite lookup_keeps_ttl. exact Hfresh. }
  subst out.
  rewrite (generate_response_allowed prompt_hash_of api_key format_num str generate_content
             env' clk' prompt temperature max_tokens system_prompt true info' Hd').
  cbv zeta. rewrite Hhit. unfold cache_hash_of. rewrite Hh.
  cbn [fst snd remote with_cache with_manager].
  split; [reflexivity|exact Hrem].
Qed.

(** Degraded mode: after a call without system prompt that fetched a
    non-empty text from the model with caching on, the same request made
    while the limiter denies it returns that text, as long as the entry is
    not older than [ttl]; the model is not called. (The lookup of a denied
    call uses the key of the bare prompt, which is the key of the stored
    entry when there is no system prompt.) *)
Theorem X_denied_request_is_served_from_cache (env : Env W) (clk clk' : Clock)
    (prompt : string) (temperature : Q) (max_tokens : Z) (system_prompt : option string)
    (info info' : RateLimiter.Info) (gated : CircuitBreaker.t) (text : string) (w' : W) :
  system_prompt = None \/ system_prompt = Some ""%string ->
  decision_of env clk = Return (true, info) ->
  cached_before_call prompt_hash_of api_key env clk prompt temperature max_tokens true
    = Return None ->
  CircuitBreaker.call_guard (breaker_of env clk) (at_breaker clk) = (Return tt, gated) ->
  generate_content prompt temperature max_tokens (remote env) = (Return text, w') ->
  truthy_str text = true ->
  let env' :=
    snd (run_generate_response env clk prompt temperature max_tokens system_prompt true) in
  decision_of env' clk' = Return (false, info') ->
  (at_lookup_mem clk' - at_store clk <= inject_Z (PerformanceCache.ttl (performance_cache env)))%Q ->
  let out := run_generate_response env' clk' prompt temperature max_tokens system_prompt true in
  fst out = Return text /\ remote (snd out) = w'.
Proof.
  intros Hsp Hd Hc Hg Hm Htext env' Hd' Hfresh out.
  assert (Hfull : full_prompt_of prompt system_prompt = prompt)
    by (destruct Hsp as [-> | ->]; reflexivity).
  rewrite <- Hfull in Hc, Hm.
  destruct (fetched_then_stored env clk prompt temperature max_tokens system_prompt info
              gated text w' Hd Hc Hg Hm) as (h & Hh & Hrem & Hcache).
  fold env' in Hrem, Hcache. rewrite Hfull in Hh.
  subst out.
  rewrite (generate_response_denied prompt_hash_of api_key format_num str generate_content
             env' clk' prompt temperature max_tokens system_prompt true info' Hd').
  cbv zeta. rewrite Hh, Hcache, stored_then_found by (rewrite lookup_keeps_ttl; exact Hfresh).
  cbn [fst snd remote with_cache with_manager]. rewrite Htext.
  split; [reflexivity|exact Hrem].
Qed.

Lemma cached_call_off (env : Env W) (clk : Clock) (prompt : string)
    (temperature : Q) (max_tokens : Z) (system_prompt : option string) :
  performance_cache
    (snd (cached_call prompt_hash_of api_key str generate_content env clk prompt
            temperature max_tokens system_prompt false))
  = performance_cache env.
Proof.
  unfold cached_call. rewrite call_model_steps. cbv zeta.
  match goal with
  | |- context [CircuitBreaker.call ?b ?n ?f ?w ?t] =>
      destruct (CircuitBreaker.call b n f w t) as [[r br] w']
  end.
  cbn [fst snd CircuitBreaker.after]. destruct r as [text|[]];
    try reflexivity; try (rewrite report_error_env; reflexivity).
  match goal with
  | |- context [generate_content ?p ?t ?m ?w] =>
      destruct (generate_content p t m w) as [[text|e2] w2]
  end; cbn [fst snd]; [reflexivity|].
  rewrite report_error_env. reflexivity.
Qed.

(** With caching off the cache is never touched: whatever the limiter, the
    breaker and the model do, [generate_response] called with
    [use_cache = False] leaves the cache object as it was. *)
Theorem X_caching_off_leaves_cache_alone (env : Env W) (clk : Clock) (prompt : string)
    (temperature : Q) (max_tokens : Z) (system_prompt : option string) :
  performance_cache
    (snd (run_generate_response env clk prompt temperature max_tokens system_prompt false))
  = performance_cache env.
Proof.
  unfold generate_response.
  destruct (ProductionAPIManager.get_rate_limiter (api_manager env) "gemini_api"
              (at_limiter_init clk)) as [rl mgr].
  destruct (RateLimiter.is_allowed rl (at_is_allowed clk) 1) as [[[[|] info]|e] rl'].
  - rewrite cached_call_off. reflexivity.
  - reflexivity.
  - destruct (is_ImportError e); [rewrite cached_call_off|]; reflexivity.
Qed.

(** The unguarded and the guarded call agree on what they return: when the
    limiter allows the call, caching is off and the breaker lets the call
    through, [generate_response] returns what [generate_response_sync]
    returns for the same model behaviour (the model's text, the same error
    text, or the same exception when the model raises outside [Exception]),
    unless the model raised [CircuitBreakerOpenError] or [ImportError],
    which the guarded call handles in ways of its own. *)
Theorem X_guarded_call_agrees_with_sync (env : Env W) (clk : Clock) (prompt : string)
    (temperature : Q) (max_tokens : Z) (system_prompt : option string)
    (info : RateLimiter.Info) (gated : CircuitBreaker.t) :
  decision_of env clk = Return (true, info) ->
  CircuitBreaker.call_guard (breaker_of env clk) (at_breaker clk) = (Return tt, gated) ->
  (forall why,
     fst (generate_content (full_prompt_of prompt system_prompt) temperature max_tokens
            (remote env)) <> Raise (CircuitBreakerOpenError why)) ->
  (forall msg,
     fst (generate_content (full_prompt_of prompt system_prompt) temperature max_tokens
            (remote env)) <> Raise (ImportError msg)) ->
  let out := run_generate_response env clk prompt temperature max_tokens system_prompt false in
  let sync :=
    generate_response_sync str generate_content (remote env) prompt temperature max_tokens
      system_prompt in
  fst out = fst sync /\ remote (snd out) = snd sync.
Proof.
  intros Hd Hg Hne Hni out sync. subst out sync.
  destruct (generate_content (full_prompt_of prompt system_prompt) temperature max_tokens
              (remote env)) as [r w'] eqn:Em.
  destruct (generate_response_model prompt_hash_of api_key format_num str generate_content
              env clk prompt temperature max_tokens system_prompt false info gated
              r w' Hd eq_refl Hg Em) as (env3 & Hrem & _ & _ & _ & Hout).
  cbv zeta in Hout. rewrite Hout. clear Hout.
  unfold generate_response_sync. fold (full_prompt_of prompt system_prompt). rewrite Em.
  cbn [fst] in Hne, Hni.
  destruct r as [text|e]; [split; [reflexivity|exact Hrem]|].
  destruct e; try (exfalso; eapply Hne; reflexivity); try (exfalso; eapply Hni; reflexivity);
    (unfold report_error; cbn [is_Exception fst snd]; split; [reflexivity|exact Hrem]).
Qed.

End GeminiExtras.

(** The theorems above on concrete processes, with [Examples.digest] and
    [Examples.same_key] standing in for the digests. *)

Lemma X_fresh_answer_is_stored_witness :
  let out :=
    GeminiClient.generate_response Examples.digest Examples.same_key Examples.show_num
      Examples.show_exc Examples.answering_model Examples.env_new (Examples.clock_at 1)
      "prompt" (7 # 10) 2048 None true in
  fst out = Return "answer"%string /\ GeminiClient.remote (snd out) = 1%nat.
Proof.
  destruct (X_fresh_answer_is_stored Examples.digest Examples.same_key Examples.show_num
              Examples.show_exc Examples.answering_model Examples.env_new (Examples.clock_at 1)
              "prompt" (7 # 10) 2048 None true (RateLimiter.allowed_info 29 499 4)
              (GeminiClient.breaker_of Examples.env_new (Examples.clock_at 1))
              "answer" 1%nat) as (H1 & H2 & _).
  - vm_compute. reflexivity.
  - vm_compute. reflexivity.
  - vm_compute. reflexivity.
  - reflexivity.
  - split; [exact H1|exact H2].
Defined.

Lemma X_repeated_request_is_served_from_cache_witness :
  let env' :=
    snd (GeminiClient.generate_response Examples.digest Examples.same_key Examples.show_num
           Examples.show_exc Examples.answering_model Examples.env_new (Examples.clock_at 1)
           "prompt" (7 # 10) 2048 None true) in
  let out :=
    GeminiClient.generate_response Examples.digest Examples.same_key Examples.show_num
      Examples.show_exc Examples.answering_model env' (Examples.clock_at 2)
      "prompt" (7 # 10) 2048 None true in
  fst out = Return "answer"%string /\ GeminiClient.remote (snd out) = 1%nat.
Proof.
  apply (X_repeated_request_is_served_from_cache Examples.digest Examples.same_key
           Examples.show_num Examples.show_exc Examples.answering_model Examples.env_new
           (Examples.clock_at 1) (Examples.clock_at 2) "prompt" (7 # 10) 2048 None
           (RateLimiter.allowed_info 29 499 4) (RateLimiter.allowed_info 28 498 3)
           (GeminiClient.breaker_of Examples.env_new (Examples.clock_at 1))
           "answer" 1%nat).
  - vm_compute. reflexivity.
  - vm_compute. reflexivity.
  - vm_compute. reflexivity.
  - reflexivity.
  - reflexivity.
  - vm_compute. reflexivity.
  - vm_compute. discriminate.
Defined.

Lemma X_cache_hit_skips_model_witness :
  let env' :=
    snd (GeminiClient.generate_response Examples.digest Examples.same_key Examples.show_num
           Examples.show_exc Examples.answering_model Examples.env_new (Examples.clock_at 1)
           "prompt" (7 # 10) 2048 None true) in
  let out :=
    GeminiClient.generate_response Examples.digest Examples.same_key Examples.show_num
      Examples.show_exc Examples.failing_model env' (Examples.clock_at 2)
      "prompt" (7 # 10) 2048 None true in
  fst out = Return "answer"%string /\ GeminiClient.remote (snd out) = 1%nat.
Proof.
  cbv zeta.
  destruct (X_cache_hit_skips_model Examples.digest Examples.same_key Examples.show_num
              Examples.show_exc Examples.failing_model
              (snd (GeminiClient.generate_response Examples.digest Examples.same_key
                      Examples.show_num Examples.show_exc Examples.answering_model
                      Examples.env_new (Examples.clock_at 1) "prompt" (7 # 10) 2048 None true))
              (Examples.clock_at 2) "prompt" (7 # 10) 2048 None true
              (RateLimiter.allowed_info 28 498 3) "answer") as (H1 & H2 & _).
  - vm_compute. reflexivity.
  - vm_compute. reflexivity.
  - split; [exact H1|]. rewrite H2. vm_compute. reflexivity.
Defined.

Lemma X_denied_request_is_served_from_cache_witness :
  let env' :=
    snd (GeminiClient.generate_response Examples.digest Examples.same_key Examples.show_num
           Examples.show_exc Examples.answering_model Examples.env_last_token
           (Examples.clock_at 0) "prompt" (7 # 10) 2048 None true) in
  let out :=
    GeminiClient.generate_response Examples.digest Examples.same_key Examples.show_num
      Examples.show_exc Examples.answering_model env' (Examples.clock_at 1)
      "prompt" (7 # 10) 2048 None true in
  GeminiClient.decision_of env' (Examples.clock_at 1)
    = Return (false, RateLimiter.burst_limit_exceeded 45 0)
  /\ fst out = Return "answer"%string
  /\ GeminiClient.remote (snd out) = 1%nat.
Proof.
  cbv zeta. split; [vm_compute; reflexivity|].
  apply (X_denied_request_is_served_from_cache Examples.digest Examples.same_key
           Examples.show_num Examples.show_exc Examples.answering_model Examples.env_last_token
           (Examples.clock_at 0) (Examples.clock_at 1) "prompt" (7 # 10) 2048 None
           (RateLimiter.allowed_info 25 495 0) (RateLimiter.burst_limit_exceeded 45 0)
           (GeminiClient.breaker_of Examples.env_last_token (Examples.clock_at 0))
           "answer" 1%nat).
  - left. reflexivity.
  - vm_compute. reflexivity.
  - vm_compute. reflexivity.
  - vm_compute. reflexivity.
  - reflexivity.
  - reflexivity.
  - vm_compute. reflexivity.
  - vm_compute. discriminate.
Defined.

Lemma X_open_circuit_reports_unavailable_witness :
  let out :=
    GeminiClient.generate_response Examples.digest Examples.same_key Examples.show_num
      Examples.show_exc Examples.answering_model Examples.env_open (Examples.clock_at 3)
      "prompt" (7 # 10) 2048 None true in
  fst out = Return "Service temporarily unavailable. Using fallback response."%string
  /\ GeminiClient.remote (snd out) = 0%nat.
Proof.
  destruct (X_open_circuit_reports_unavailable Examples.digest Examples.same_key
              Examples.show_num Examples.show_exc Examples.answering_model Examples.env_open
              (Examples.clock_at 3) "prompt" (7 # 10) 2048 None true
              (RateLimiter.allowed_info 29 499 4) (CircuitBreakerOpenError IsOpen)
              (GeminiClient.breaker_of Examples.env_open (Examples.clock_at 3)))
    as (H1 & H2 & _).
  - vm_compute. reflexivity.
  - right. exists "prompt"%string. split; vm_compute; reflexivity.
  - vm_compute. reflexivity.
  - split; [exact H1|exact H2].
Defined.

Lemma X_guarded_call_agrees_with_sync_witness :
  fst (GeminiClient.generate_response Examples.digest Examples.same_key Examples.show_num
         Examples.show_exc Examples.failing_model Examples.env_new (Examples.clock_at 1)
         "prompt" (7 # 10) 2048 (Some "be brief"%string) false)
  = fst (GeminiClient.generate_response_sync Examples.show_exc Examples.failing_model 0%nat
           "prompt" (7 # 10) 2048 (Some "be brief"%string)).
Proof.
  destruct (X_guarded_call_agrees_with_sync Examples.digest Examples.same_key
              Examples.show_num Examples.show_exc Examples.failing_model Examples.env_new
              (Examples.clock_at 1) "prompt" (7 # 10) 2048 (Some "be brief"%string)
              (RateLimiter.allowed_info 29 499 4)
              (GeminiClient.breaker_of Examples.env_new (Examples.clock_at 1))) as [H _].
  - vm_compute. reflexivity.
  - vm_compute. reflexivity.
  - intros why. vm_compute. discriminate.
  - intros msg. vm_compute. discriminate.
  - exact H.
Defined.

(** ** The rate limiter: what a sequence of calls can admit *)

Section RateLimiterAccounting.

Import RateLimiter.

Lemma not_allowed_of_cases (self : t) (now : Q) (cost : Z) :
  (forall i, fst (is_allowed self now cost) <> Return (true, i)) ->
  allowed (fst (is_allowed self now cost)) = false.
Proof.
  intros H. destruct (fst (is_allowed self now cost)) as [[[|] i]|e]; try reflexivity.
  exfalso. exact (H i eq_refl).
Qed.

(** The windows after a call: pruned, with the call's reading appended when
    it was allowed. *)
Lemma is_allowed_windows (self : t) (now : Q) (cost : Z) :
  let r := is_allowed self now cost in
  minute_requests (snd r)
  = List.filter (fun x => Qgtb x (now - 60)%Q) (minute_requests self)
    ++ (if allowed (fst r) then [now] else [])
  /\ hour_requests (snd r)
     = List.filter (fun x => Qgtb x (now - 3600)%Q) (hour_requests self)
       ++ (if allowed (fst r) then [now] else []).
Proof.
  cbv zeta.
  destruct (is_allowed_cases self now cost)
    as [(E & _ & Hna & _)|[(_ & _ & _ & E)|(_ & _ & _ & i & E)]].
  - rewrite (not_allowed_of_cases self now cost Hna), E. cbn. rewrite !app_nil_r.
    split; reflexivity.
  - rewrite E. cbn. rewrite !app_nil_r. split; reflexivity.
  - rewrite E. cbn. split; reflexivity.
Qed.

(** An allowed call reports what is left: the remaining minute and hour
    counts are the limits less the timestamps now in the windows, the tokens
    those now in the bucket, and none of the three is negative. *)
Theorem X_allowed_call_reports_what_is_left (self : t) (now : Q) (cost : Z)
    (remaining_minute remaining_hour available : Z) :
  fst (is_allowed self now cost)
    = Return (true, allowed_info remaining_minute remaining_hour available) ->
  let self' := snd (is_allowed self now cost) in
  remaining_minute = requests_per_minute (config self) - len (minute_requests self')
  /\ remaining_hour = requests_per_hour (config self) - len (hour_requests self')
  /\ available = tokens self'
  /\ 0 <= remaining_minute /\ 0 <= remaining_hour /\ 0 <= available.
Proof.
  intros E. cbv zeta.
  destruct (is_allowed_cases self now cost)
    as [(_ & _ & Hna & _)|[(_ & _ & _ & E2)|(Hm & Hh & Hge & i & E2)]].
  - exfalso. exact (Hna _ E).
  - rewrite E2 in E. discriminate.
  - assert (Hi : is_allowed self now cost =
                 (Return (true,
                          allowed_info
                            (requests_per_minute (config self)
                             - len (minute_requests (_cleanup_old_requests self now) ++ [now]))
                            (requests_per_hour (config self)
                             - len (hour_requests (_cleanup_old_requests self now) ++ [now]))
                            (tokens (_refill_tokens (_cleanup_old_requests self now) now) - cost)),
                  snd (is_allowed self now cost))).
    { unfold is_allowed.
      destruct (Z.geb_spec (len (minute_requests (_cleanup_old_requests self now)))
                  (requests_per_minute (config (_cleanup_old_requests self now))));
        [cbn in *; lia|].
      destruct (Z.geb_spec (len (hour_requests (_cleanup_old_requests self now)))
                  (requests_per_hour (config (_cleanup_old_requests self now))));
        [cbn in *; lia|].
      destruct (Z.ltb_spec (tokens (_refill_tokens (_cleanup_old_requests self now) now)) cost);
        [lia|]. reflexivity. }
    rewrite Hi in E. cbn [fst] in E. injection E as <- <- <-.
    rewrite E2. cbn [snd minute_requests hour_requests tokens].
    rewrite !len_app_one.
    cbn [_refill_tokens _cleanup_old_requests minute_requests hour_requests
         tokens config last_refill] in Hm, Hh, Hge |- *.
    repeat split; try reflexivity; lia.
Qed.

Lemma X_allowed_call_reports_what_is_left_witness :
  fst (is_allowed (init Examples.gemini_rate 0) 0 1) = Return (true, allowed_info 29 499 4)
  /\ 0 <= 29.
Proof.
  assert (E : fst (is_allowed (init Examples.gemini_rate 0) 0 1)
              = Return (true, allowed_info 29 499 4)) by (vm_compute; reflexivity).
  split; [exact E|].
  destruct (X_allowed_call_reports_what_is_left _ _ _ _ _ _ E) as (_ & _ & _ & H & _).
  exact H.
Defined.

Lemma filter_filter_recent (a b : Q) (xs : list Q) :
  (a <= b)%Q ->
  List.filter (fun x => Qgtb x b) (List.filter (fun x => Qgtb x a) xs)
  = List.filter (fun x => Qgtb x b) xs.
Proof.
  intros Hab. induction xs as [|x xs IH]; [reflexivity|].
  cbn [List.filter]. destruct (Qgtb x a) eqn:Ea.
  - cbn [List.filter]. rewrite IH. reflexivity.
  - rewrite IH. destruct (Qgtb x b) eqn:Eb; [|reflexivity].
    apply Qgtb_lt in Eb.
    assert (Hlt : (a < x)%Q) by lra.
    apply Qgtb_lt in Hlt. congruence.
Qed.

Lemma filter_recent_now (now span : Q) :
  (0 < span)%Q ->
  List.filter (fun x => Qgtb x (now - span)%Q) [now] = [now].
Proof.
  intros Hs. cbn [List.filter].
  assert (H : (now - span < now)%Q) by lra.
  apply Qgtb_lt in H. rewrite H. reflexivity.
Qed.

Lemma after_calls_snoc (self : t) (calls : list (Q * Z)) (now : Q) (cost : Z) :
  after_calls self (calls ++ [(now, cost)])
  = snd (is_allowed (after_calls self calls) now cost).
Proof. unfold after_calls. rewrite fold_left_app. reflexivity. Qed.

Lemma last_reading_snoc (start : Q) (calls : list (Q * Z)) (now : Q) (cost : Z) :
  last_reading start (calls ++ [(now, cost)]) = now.
Proof. unfold last_reading. rewrite fold_left_app. reflexivity. Qed.

Lemma admitted_snoc (calls : list (Q * Z)) (now : Q) (cost : Z) : forall self : t,
  admitted self (calls ++ [(now, cost)])
  = admitted self calls
    ++ (if allowed (fst (is_allowed (after_calls self calls) now cost))
        then [now] else []).
Proof.
  induction calls as [|[n c] rest IH]; intros self.
  - cbn. rewrite app_nil_r. reflexivity.
  - cbn [app admitted]. rewrite IH, <- app_assoc. reflexivity.
Qed.

Lemma clock_ordered_snoc (calls : list (Q * Z)) (now : Q) (cost : Z) : forall start : Q,
  clock_ordered start (calls ++ [(now, cost)]) ->
  clock_ordered start calls /\ (last_reading start calls <= now)%Q.
Proof.
  induction calls as [|[n c] rest IH]; intros start H.
  - cbn in H |- *. tauto.
  - cbn [app clock_ordered] in H |- *. destruct H as [Hle H].
    destruct (IH n H) as [Ho Hl]. split; [split; assumption|exact Hl].
Qed.

(** The windows are a log of what was let through. From a new limiter, while
    the clock does not go backwards, the minute window after any sequence of
    calls holds exactly the clock readings of the allowed calls made less
    than 60 seconds before the last call, in order and with repetitions,
    and the hour window those made less than 3600 seconds before it; no
    denied call is ever counted. *)
Theorem X_windows_log_recent_admissions (calls : list (Q * Z)) (cfg : RateLimitConfig)
    (t0 : Q) :
  clock_ordered t0 calls ->
  let final := after_calls (init cfg t0) calls in
  let last := last_reading t0 calls in
  minute_requests final
  = List.filter (fun x => Qgtb x (last - 60)%Q) (admitted (init cfg t0) calls)
  /\ hour_requests final
     = List.filter (fun x => Qgtb x (last - 3600)%Q) (admitted (init cfg t0) calls).
Proof.
  induction calls as [|[now cost] calls IH] using rev_ind; intros Ho.
  - cbn. split; reflexivity.
  - cbv zeta. apply clock_ordered_snoc in Ho. destruct Ho as [Ho Hlast].
    destruct (IH Ho) as [IHm IHh].
    rewrite after_calls_snoc, last_reading_snoc, admitted_snoc.
    destruct (is_allowed_windows (after_calls (init cfg t0) calls) now cost) as [Em Eh].
    rewrite Em, Eh, IHm, IHh.
    rewrite !List.filter_app.
    rewrite !filter_filter_recent by lra.
    split; (f_equal;
            destruct (allowed (fst (is_allowed (after_calls (init cfg t0) calls) now cost)));
            [|reflexivity]; symmetry; apply filter_recent_now; reflexivity).
Qed.

Lemma X_windows_log_recent_admissions_witness :
  clock_ordered 0 Examples.paced_calls
  /\ minute_requests (after_calls (init Examples.gemini_rate 0) Examples.paced_calls)
     = [0%Q; 0%Q].
Proof.
  assert (Ho : clock_ordered 0 Examples.paced_calls).
  { cbn. repeat split; discriminate. }
  split; [exact Ho|].
  destruct (X_windows_log_recent_admissions Examples.paced_calls Examples.gemini_rate 0 Ho)
    as [Em _].
  rewrite Em. vm_compute. reflexivity.
Defined.

End RateLimiterAccounting.
